(** * galac: the entanglement engine, embedded and checked against its design

    A shallow embedding of the parts of [galac] that its design document
    makes promises about: the parser dispatch ([parsing/__init__.py]), the
    workspace lookup, the status classifiers and the reference resolver
    ([entanglement_management.py]), the two record stores
    ([models/storages.py]), the document tree and its renderer
    ([models/entangled_entities.py]), the two line scanners and the
    attributes of a fenced code block ([parsing/markdown.py],
    [parsing/entangled.py]).

    Conventions of the embedding.
    - A Python function that may raise returns a [result]; a generator is
      the list of what it yields, paired with the exception that ends the
      iteration when there is one.
    - Python values of different classes are never equal: comparing a
      [Path] with a [str], or a [str] with a protobuf message, is [false].
    - [isinstance] follows the class hierarchy of [entangled_entities.py]:
      [NonEntangledCodeBlock] < [EntangledCodeBlock] < [EntangledDocument]
      and [RawCodeBlock] < [EntangledDocument]; [type(x) == C] is exact.
    - Text is a [string] over the code points below 256.
    - Reading a name that is no local, no global of its module and no
      builtin raises [NameError]. The functions that read a class which
      their module does not import take the [globals] of the module as a
      parameter: [Shipped] for the repository as it is, [Completed] for the
      repository with those imports added. A call with more arguments than
      the function has parameters raises [TypeError].
    - The rules of a [mawk.RuleSet] are tried on each line of
      [str.splitlines] in the order of their declaration, and a rule that
      returns a list ends the line.
    - The file system, the hash function of the [xxhash] package, the
      [suffix] of a path and [__version__] are inputs of the functions that
      consult them.
    - A [Path] is a pure POSIX path, and [resolve] is the one of a file
      system without symbolic links: it makes the path absolute in the
      current directory and follows every [".."] by name. *)

From Stdlib Require Import String Ascii ZArith NArith List Lia Bool.
From stdpp Require Import base option list strings gmap.

Local Open Scope string_scope.
Local Open Scope list_scope.

(** ** Python-level vocabulary *)

Inductive exception : Type :=
  | TypeError
  | AttributeError
  | UnboundLocalError
  | NameError
  | ValueError
  | FileIndexException
  | IndexError
  | NoEntangledWorkspaceError.

Inductive result (A : Type) : Type :=
  | Ok (a : A)
  | Raise (e : exception).
Arguments Ok {A} a.
Arguments Raise {A} e.

(** The global names of the modules. [resolve_non_entangled_document]
    reads the classes [EntangledCodeBlock], [RawCodeBlock] and
    [NonEntangledCodeBlock], which [entanglement_management.py] does not
    import, and [format_child] reads [EntangledNowebBloodhound], which
    [entangled_entities.py] does not import. [Shipped] is the repository
    as it is; [Completed] is the repository with these imports added. *)
Inductive globals : Type := Shipped | Completed.

(** A generator: what it yields, and the exception that ends it. *)
Record generated (A : Type) : Type :=
  mkGenerated { yielded : list A; ended_by : option exception }.
Arguments mkGenerated {A} yielded ended_by.
Arguments yielded {A} g.
Arguments ended_by {A} g.

(** Records of the [logging] module, level and message. *)
Inductive log_record : Type :=
  | LogInfo (msg : string)
  | LogWarning (msg : string)
  | LogError (msg : string).

(** ** Text: what [str] and [re] provide *)

Module Text.

Definition code (c : ascii) : N := N_of_ascii c.

Definition between (lo hi : N) (c : ascii) : bool :=
  ((lo <=? code c) && (code c <=? hi))%N.

Definition is_char (x : ascii) (c : ascii) : bool := bool_decide (c = x).

Definition hex_digit (n : N) : ascii :=
  match n with
  | 0 => "0" | 1 => "1" | 2 => "2" | 3 => "3" | 4 => "4" | 5 => "5"
  | 6 => "6" | 7 => "7" | 8 => "8" | 9 => "9" | 10 => "a" | 11 => "b"
  | 12 => "c" | 13 => "d" | 14 => "e" | _ => "f"
  end%N%char.

Definition newline : ascii := ascii_of_N 10.

(** [\d], [\w] and [\s] of a [str] pattern, and [.]. *)
Definition is_digit (c : ascii) : bool := between 48 57 c.

Definition is_word (c : ascii) : bool :=
  is_digit c || between 65 90 c || between 97 122 c || is_char "_" c
  || bool_decide (code c ∈ [170; 178; 179; 181; 185; 186; 188; 189; 190]%N)
  || between 192 214 c || between 216 246 c || between 248 255 c.

Definition is_space (c : ascii) : bool :=
  between 9 13 c || between 28 32 c
  || bool_decide (code c ∈ [133; 160]%N).

Definition is_dot (c : ascii) : bool := negb (is_char newline c).

(** [str.isprintable] on one character. *)
Definition is_printable (c : ascii) : bool :=
  between 32 126 c || between 161 172 c || between 174 255 c.

Fixpoint all_chars (p : ascii → bool) (s : string) : bool :=
  match s with
  | EmptyString => true
  | String c s' => p c && all_chars p s'
  end.

Fixpoint has_char (x : ascii) (s : string) : bool :=
  match s with
  | EmptyString => false
  | String c s' => is_char x c || has_char x s'
  end.

(** [s.startswith(prefix)], with the remainder. *)
Fixpoint strip_prefix (prefix s : string) : option string :=
  match prefix, s with
  | EmptyString, _ => Some s
  | String a prefix', String b s' =>
      if bool_decide (a = b) then strip_prefix prefix' s' else None
  | String _ _, EmptyString => None
  end.

(** The first [n] characters of [s]. *)
Fixpoint take_chars (n : nat) (s : string) : string :=
  match n, s with
  | S n', String c s' => String c (take_chars n' s')
  | _, _ => EmptyString
  end.

(** The longest prefix of [s] inside a class, and what follows it. *)
Fixpoint take_while (class : ascii → bool) (s : string) : string :=
  match s with
  | String c s' => if class c then String c (take_while class s') else ""
  | EmptyString => ""
  end.

Fixpoint drop_while (class : ascii → bool) (s : string) : string :=
  match s with
  | String c s' => if class c then drop_while class s' else s
  | EmptyString => ""
  end.

(** [s] does not begin with a character of the class. *)
Definition starts_outside (class : ascii → bool) (s : string) : Prop :=
  match s with
  | String c _ => class c = false
  | EmptyString => True
  end.

(** [' ' * n]. *)
Fixpoint spaces (n : nat) : string :=
  match n with
  | O => ""
  | S n' => String " " (spaces n')
  end.

(** ["\n".join(lines)]. *)
Fixpoint join_lines (lines : list string) : string :=
  match lines with
  | [] => ""
  | [l] => l
  | l :: rest => l +:+ String newline (join_lines rest)
  end.

(** [text.split("\n")], with the line being read in [current]. *)
Fixpoint split_from (current : string) (text : string) : list string :=
  match text with
  | EmptyString => [current]
  | String c text' =>
      if is_char newline c then current :: split_from "" text'
      else split_from (current +:+ String c "") text'
  end.

Definition split_newline (text : string) : list string := split_from "" text.

(** The line boundaries of [str.splitlines]. *)
Definition is_linebreak (c : ascii) : bool :=
  between 10 13 c || between 28 30 c || bool_decide (code c = 133%N).

(** [text.splitlines()]: a carriage return takes a following line feed
    with it, and no empty line is made after a final boundary. *)
Fixpoint splitlines_from (current : string) (after_cr : bool) (text : string)
  : list string :=
  match text with
  | EmptyString => if bool_decide (current = "") then [] else [current]
  | String c text' =>
      if after_cr && is_char newline c then splitlines_from current false text'
      else if is_linebreak c
           then current :: splitlines_from "" (bool_decide (code c = 13%N)) text'
           else splitlines_from (current +:+ String c "") false text'
  end.

Definition splitlines (text : string) : list string :=
  splitlines_from "" false text.

(** *** [repr] of a [str] *)

Definition hex2 (c : ascii) : string :=
  String (hex_digit (code c / 16)%N)
    (String (hex_digit (code c mod 16)%N) "").

Definition repr_char (quote c : ascii) : string :=
  if is_char quote c || is_char "\" c then String "\" (String c "")
  else if is_char (ascii_of_N 9) c then "\t"
  else if is_char (ascii_of_N 10) c then "\n"
  else if is_char (ascii_of_N 13) c then "\r"
  else if is_printable c then String c ""
  else "\x" +:+ hex2 c.

Fixpoint repr_body (quote : ascii) (s : string) : string :=
  match s with
  | EmptyString => ""
  | String c s' => repr_char quote c +:+ repr_body quote s'
  end.

(** Single quotes, unless the text has one and has no double quote. *)
Definition repr (s : string) : string :=
  let quote : ascii :=
    if has_char "'" s && negb (has_char (ascii_of_N 34) s)
    then ascii_of_N 34 else "'"%char in
  String quote (repr_body quote s +:+ String quote "").

(** [str(x)] for an attribute that may be [None]. *)
Definition str_or_None (x : option string) : string :=
  match x with Some s => s | None => "None" end.

(** *** Patterns

    The patterns of the two scanners are sequences of literals, of
    greedy repetitions of one character class, of named group
    boundaries, of [.] and of a final [$]. *)
Inductive atom : Type :=
  | Lit (text : string)
  | Star (class : ascii → bool)
  | Plus (class : ascii → bool)
  | Dot
  | Open (group : string)
  | Close (group : string)
  | Eol.

Definition pattern : Type := list atom.

(** The groups opened (with the text that was ahead at that point) and
    the groups closed (with what they captured). *)
Record groups : Type :=
  mkGroups { opened : list (string * string); closed : list (string * string) }.

Definition no_groups : groups := mkGroups [] [].

Fixpoint assoc (key : string) (l : list (string * string)) : option string :=
  match l with
  | [] => None
  | (k, v) :: l' => if bool_decide (k = key) then Some v else assoc key l'
  end.

Definition open_group (g : string) (ahead : string) (gs : groups) : groups :=
  mkGroups ((g, ahead) :: opened gs) (closed gs).

Definition close_group (g : string) (ahead : string) (gs : groups) : groups :=
  match assoc g (opened gs) with
  | Some start =>
      mkGroups (opened gs)
        ((g, take_chars (String.length start - String.length ahead) start)
           :: closed gs)
  | None => gs
  end.

(** Backtracking match of a pattern at the head of the text, longest
    repetition first. *)
Fixpoint match_here (p : pattern) : string → groups → option groups :=
  match p with
  | [] => λ _ gs, Some gs
  | Lit text :: p' => λ s gs,
      match strip_prefix text s with
      | Some s' => match_here p' s' gs
      | None => None
      end
  | Star class :: p' =>
      fix star (s : string) (gs : groups) : option groups :=
        match s with
        | String c s' =>
            if class c then
              match star s' gs with
              | Some r => Some r
              | None => match_here p' s gs
              end
            else match_here p' s gs
        | EmptyString => match_here p' s gs
        end
  | Plus class :: p' => λ s gs,
      match s with
      | String c s' =>
          if class c then
            (fix star (s : string) (gs : groups) : option groups :=
               match s with
               | String c s' =>
                   if class c then
                     match star s' gs with
                     | Some r => Some r
                     | None => match_here p' s gs
                     end
                   else match_here p' s gs
               | EmptyString => match_here p' s gs
               end) s' gs
          else None
      | EmptyString => None
      end
  | Dot :: p' => λ s gs,
      match s with
      | String c s' => if is_dot c then match_here p' s' gs else None
      | EmptyString => None
      end
  | Open g :: p' => λ s gs, match_here p' s (open_group g s gs)
  | Close g :: p' => λ s gs, match_here p' s (close_group g s gs)
  | Eol :: p' => λ s gs,
      if bool_decide (s = "") || bool_decide (s = String newline "")
      then match_here p' s gs else None
  end.

(** [re.match(pattern, text)], then [m[group]]. *)
Definition re_match (p : pattern) (text : string) : option groups :=
  match_here p text no_groups.

Definition group (m : groups) (g : string) : string :=
  default "" (assoc g (closed m)).

End Text.

(** ** parsing/__init__.py, parsing/markdown.py, parsing/binary.py,
       parsing/entangled.py: the parser dispatch *)

Module Dispatch.

(** The three classes listed in [DocumentParser.PARSERS]. *)
Inductive parser_class : Type :=
  | MarkdownDocumentParser
  | BinaryDocumentParser
  | EntangledDocumentParser.

(** [BinaryDocumentParser.FORMATS]. *)
Definition FORMATS : list string :=
  [ ".pdf"; ".bin"; ".jpg"; ".jpeg"; ".png"; ".gif"; ".exe"; ".zip";
    ".tar"; ".dll"; ".so"; ".dylib"; ".a"; ".o"; ".obj"; ".lib" ].

(** The three [is_compatible] static methods; the argument is
    [file.suffix]. *)
Definition is_compatible (p : parser_class) (suffix : string) : bool :=
  match p with
  | MarkdownDocumentParser => bool_decide (suffix = ".md")
  | BinaryDocumentParser => bool_decide (suffix ∈ FORMATS)
  | EntangledDocumentParser => negb (bool_decide (suffix = ".md"))
  end.

Definition PARSERS : list parser_class :=
  [ MarkdownDocumentParser; BinaryDocumentParser; EntangledDocumentParser ].

(** The loop of [DocumentParser.__init__]: [self.parser] starts as [None]
    and becomes the first compatible class. *)
Fixpoint first_compatible (parsers : list parser_class) (suffix : string)
  : option parser_class :=
  match parsers with
  | [] => None
  | parser :: rest =>
      if is_compatible parser suffix then Some parser
      else first_compatible rest suffix
  end.

Definition DocumentParser_init (suffix : string) : option parser_class :=
  first_compatible PARSERS suffix.

End Dispatch.

(** ** entanglement_management.py: [Intergalactangled.find_workspace] *)

Module Workspace.

(** An absolute POSIX path is the list of its components below the anchor
    ["/"]; the anchor itself is the empty list. *)
Definition path : Type := list string.

Definition workspace_folder : string := ".intergalac".

(** What [==] sees on the two sides of a comparison. *)
Inductive pyvalue : Type :=
  | PathV (p : path)
  | StrV (s : string).

Definition py_eq (a b : pyvalue) : bool :=
  match a, b with
  | PathV p, PathV q => bool_decide (p = q)
  | StrV s, StrV t => bool_decide (s = t)
  | _, _ => false
  end.

(** [current_dir.anchor], a [str]. *)
Definition anchor (p : path) : string := "/".

(** How the [while] loop of [find_workspace] ends. *)
Inductive loop_exit : Type :=
  | Returned (current_dir : path)
  | Fell_through (current_dir : path).

(** [while str(current_dir) != current_dir.anchor: ...], on the reversed
    component list: [str(current_dir)] is the anchor exactly when no
    component is left, and [current_dir.parent] drops the last one. *)
Fixpoint while_not_anchor (exists_ : path → bool) (rev_dir : list string)
  : loop_exit :=
  match rev_dir with
  | [] => Fell_through []
  | _ :: parent =>
      if exists_ (rev rev_dir ++ [workspace_folder])
      then Returned (rev rev_dir)
      else while_not_anchor exists_ parent
  end.

(** [find_workspace], with the file system as [exists_] and [Path.cwd()]
    as [cwd]. *)
Definition find_workspace (exists_ : path → bool) (cwd : path) : result path :=
  if negb (exists_ (cwd ++ [workspace_folder])) then
    match while_not_anchor exists_ (rev cwd) with
    | Returned current_dir => Ok current_dir
    | Fell_through current_dir =>
        if py_eq (PathV current_dir) (StrV (anchor current_dir))
        then Raise NoEntangledWorkspaceError
        else Ok current_dir
    end
  else Ok cwd.

(** A directory and all its ancestors, the anchor included. *)
Definition ancestors_or_self (cwd : path) : list path :=
  (λ n, take n cwd) <$> seq 0 (S (length cwd)).

End Workspace.

(** ** models/storages.py: the two record stores *)

Module Storages.

(** [File] of [file_pb2]: the two fields the stores read and write. *)
Record File : Type := mkFile { filename : string; fast_hash : string }.

#[global] Instance File_eq_dec : EqDecision File.
Proof. solve_decision. Defined.

(** [Reference], [CodeBlock], [Definition] and [Entanglement] of
    [entanglement_pb2], with the fields the modelled functions use; an
    unset protobuf string is the empty string. *)
Record Reference : Type := mkReference { reference : string; indent : string }.

Record CodeBlock : Type :=
  mkCodeBlock { hash : string; content : string; language : string }.

Record BlockDefinition : Type :=
  mkDefinition {
    name : string;
    file : string;
    attributes : string;
    target_file : string;
    indirect_target_file : string }.

Record Entanglement : Type :=
  mkEntanglement {
    block : CodeBlock;
    definition : BlockDefinition;
    references_to : list Reference }.

#[global] Instance Reference_eq_dec : EqDecision Reference.
Proof. solve_decision. Defined.
#[global] Instance CodeBlock_eq_dec : EqDecision CodeBlock.
Proof. solve_decision. Defined.
#[global] Instance BlockDefinition_eq_dec : EqDecision BlockDefinition.
Proof. solve_decision. Defined.
#[global] Instance Entanglement_eq_dec : EqDecision Entanglement.
Proof. solve_decision. Defined.

Definition set_name (n : string) (d : BlockDefinition) : BlockDefinition :=
  mkDefinition n (file d) (attributes d) (target_file d) (indirect_target_file d).

Definition set_fast_hash (h : string) (f : File) : File :=
  mkFile (filename f) h.

(** *** Hexadecimal digest of a 64-bit hash *)

Fixpoint hex_digits (width : nat) (n : N) : string :=
  match width with
  | O => ""
  | S w => hex_digits w (n / 16)%N +:+ String (Text.hex_digit (n mod 16)%N) ""
  end.

(** [.hexdigest()] of an [xxh64] object: sixteen lower-case digits. *)
Definition hexdigest (h : N) : string := hex_digits 16 (h mod 2 ^ 64)%N.

Section FileIndex.
(** [xxhash.xxh64] as a function to the 64-bit value, and the file
    system as seen through [os.access(_, R_OK)] and [just_read]. *)
Context (xxh64 : string → N).
Context (is_readable : string → bool) (just_read : string → string).

(** [get_file_hash]: the [str] branch hashes the text it is given, the
    [Path] branch the bytes of the file. *)
Definition get_file_hash (text : string) : string := hexdigest (xxh64 text).
Definition get_file_hash_of_path (file : string) : string :=
  hexdigest (xxh64 (just_read file)).

(** [indexof_file]: the index of the first record with that name, or
    [None]. *)
Definition indexof_file (files : list File) (file : string) : option nat :=
  fst <$> list_find (λ pb_file, filename pb_file = file) files.

(** [add_file]: the new list of records and what was logged. *)
Definition add_file (files : list File) (file : string)
  : result (list File * list log_record) :=
  if negb (is_readable file) then Raise FileIndexException
  else
    let log :=
      if indexof_file files file is Some _
      then [LogWarning (file +:+ " already exists in the index.")]
      else [] in
    let pb_file := mkFile file (get_file_hash (just_read file)) in
    Ok (files ++ [pb_file], log).

(** [update_file]. *)
Definition update_file (files : list File) (file : string)
  : result (list File) :=
  match indexof_file files file with
  | Some index => Ok (alter (set_fast_hash (just_read file)) index files)
  | None => Raise FileIndexException
  end.
End FileIndex.

(** *** EntanglementIndex *)

(** What callers pass to [indexof_entanglement]: a name, or a whole
    [Entanglement] message. *)
Inductive lookup_key : Type :=
  | KeyName (entanglement_name : string)
  | KeyMessage (entanglement : Entanglement).

(** [pb_entanglement.definition.name == entanglement_name]. *)
Definition name_eq (n : string) (key : lookup_key) : bool :=
  match key with
  | KeyName s => bool_decide (n = s)
  | KeyMessage _ => false
  end.

Definition indexof_entanglement (entanglements : list Entanglement)
    (key : lookup_key) : Z :=
  match list_find (λ e, name_eq (name (definition e)) key = true) entanglements with
  | Some (index, _) => Z.of_nat index
  | None => -1
  end.

(** What callers pass to [get_entanglement]. *)
Inductive subscript : Type :=
  | IntIndex (i : Z)
  | StrIndex (s : string).

(** [self.serialized_index.entanglements[index]]: a negative integer
    counts from the end, a string is not a subscript. *)
Definition get_entanglement (entanglements : list Entanglement)
    (index : subscript) : result Entanglement :=
  match index with
  | StrIndex _ => Raise TypeError
  | IntIndex i =>
      let n := Z.of_nat (length entanglements) in
      let j := (if i <? 0 then i + n else i)%Z in
      if (j <? 0)%Z then Raise IndexError
      else match entanglements !! Z.to_nat j with
           | Some e => Ok e
           | None => Raise IndexError
           end
  end.

(** [add_entanglement]: the new list and what was logged; the name stands
    in the log text for the message that the source formats into it. *)
Definition add_entanglement (entanglements : list Entanglement)
    (entanglement : Entanglement) : list Entanglement * list log_record :=
  if negb (indexof_entanglement entanglements (KeyMessage entanglement) =? -1)%Z
  then (entanglements,
        [LogInfo ("Entanglement " +:+ name (definition entanglement)
                  +:+ " already exists in the index.")])
  else (entanglements ++ [entanglement], []).

End Storages.

(** ** pathlib: pure POSIX paths *)

Module Pathlib.
Import Text.

(** A path is its anchor, [""] for a relative path, ["/"] or ["//"], and
    its components. The constructor drops the empty components and the
    components ["."], and keeps [".."]. *)
Record Path : Type := mkPath { anchor : string; parts : list string }.

#[global] Instance Path_eq_dec : EqDecision Path.
Proof. solve_decision. Defined.








(** [p.is_relative_to(base)] and [p.relative_to(base)]. *)
Definition is_relative_to (p base : Path) : bool :=
  bool_decide (anchor p = anchor base)
  && bool_decide (take (length (parts base)) (parts p) = parts base).

Definition relative_to (p base : Path) : result Path :=
  if is_relative_to p base then Ok (mkPath "" (drop (length (parts base)) (parts p)))
  else Raise ValueError.

End Pathlib.

(** ** models/diff.py and entanglement_management.py: the two classifiers *)

Module Status.
Import Storages Pathlib.

(** [DiffedObjectType]. *)
Inductive DiffedObjectType : Type :=
  | Modified | Created | Deleted | Unchanged | Inexistent.

#[global] Instance DiffedObjectType_eq_dec : EqDecision DiffedObjectType.
Proof. solve_decision. Defined.


Record DiffedEntanglementBlock : Type :=
  mkDiffedBlock { parsed_entanglement : Entanglement; status : DiffedObjectType }.

(** [DocumentKind] of [parsing/parseable.py] and
    [ParsedEntanglementBlock]. *)
Inductive DocumentKind : Type := Markdown | Entangled | Binary.

Record ParsedEntanglementBlock : Type :=
  mkParsed { index : nat; entanglement : Entanglement; kind : DocumentKind }.


Section get_status.
(** [xxhash.xxh64] and the file system: the bytes of a file, the current
    directory, and for the [target] of the call whether it is a file.
    [relative_root] is the attribute of that name, and [target_files]
    stands for what [get_target_files(target)] yields. *)
Context (xxh64 : string → N) (read_bytes : Path → string).
Context (cwd relative_root target : Path) (target_is_file : bool).














End get_status.

(** [get_file_blocks]. *)
Definition get_file_blocks (raw_entanglements : list Entanglement)
    (file : string) : list Entanglement :=
  filter (λ x, Storages.file (definition x) = file
               ∨ target_file (definition x) = file
               ∨ indirect_target_file (definition x) = file)
         raw_entanglements.

(** The names that an index holds. *)
Definition names_of (es : list Entanglement) : list string :=
  (λ e, name (definition e)) <$> es.

(** State of the first loop of [get_block_status]: the names not met yet
    and the local [indexed_entanglement], unbound until the first parsed
    block that the index knows. *)
Record block_loop_state : Type :=
  mkLoop {
    non_processed_entanglements : gset string;
    indexed_entanglement : option Entanglement }.

(** One pass of the first loop. *)
Definition current_block_step (raw_entanglements : list Entanglement)
    (st : block_loop_state) (parsed_entanglement_block : ParsedEntanglementBlock)
  : result (DiffedEntanglementBlock * block_loop_state) :=
  let entanglement := entanglement parsed_entanglement_block in
  let index :=
    indexof_entanglement raw_entanglements (KeyName (name (definition entanglement))) in
  if (index =? -1)%Z then
    let renamed :=
      mkEntanglement (block entanglement)
        (set_name (name (definition entanglement) +:+ "*") (definition entanglement))
        (references_to entanglement) in
    Ok (mkDiffedBlock renamed Created, st)
  else
    match get_entanglement raw_entanglements (IntIndex index) with
    | Ok indexed =>
        let st' :=
          mkLoop (non_processed_entanglements st ∖ {[ name (definition indexed) ]})
                 (Some indexed) in
        if bool_decide (hash (block entanglement) = hash (block indexed))
        then Ok (mkDiffedBlock entanglement Unchanged, st')
        else Ok (mkDiffedBlock entanglement Modified, st')
    | Raise e => Raise e
    end.

(** The first loop: what it yields, the state it ends in, and the
    exception that ends it. *)
Fixpoint current_blocks_loop (raw_entanglements : list Entanglement)
    (st : block_loop_state) (parsed : list ParsedEntanglementBlock)
  : generated DiffedEntanglementBlock * block_loop_state :=
  match parsed with
  | [] => (mkGenerated [] None, st)
  | b :: rest =>
      match current_block_step raw_entanglements st b with
      | Ok (d, st') =>
          let '(g, st'') := current_blocks_loop raw_entanglements st' rest in
          (mkGenerated (d :: yielded g) (ended_by g), st'')
      | Raise e => (mkGenerated [] (Some e), st)
      end
  end.

(** The second loop: its first statement formats
    [indexed_entanglement.definition.name] into a log message. *)
Fixpoint deleted_blocks_loop (raw_entanglements : list Entanglement)
    (indexed_entanglement : option Entanglement) (names : list string)
  : generated DiffedEntanglementBlock :=
  match names with
  | [] => mkGenerated [] None
  | entanglement_name :: rest =>
      match indexed_entanglement with
      | None => mkGenerated [] (Some UnboundLocalError)
      | Some _ =>
          let tail := deleted_blocks_loop raw_entanglements indexed_entanglement rest in
          let index := indexof_entanglement raw_entanglements (KeyName entanglement_name) in
          if (index =? -1)%Z then tail
          else match get_entanglement raw_entanglements (IntIndex index) with
               | Ok entanglement =>
                   mkGenerated (mkDiffedBlock entanglement Deleted :: yielded tail)
                               (ended_by tail)
               | Raise e => mkGenerated [] (Some e)
               end
      end
  end.

(** The state that the design gives a parsed block: [Created] (and the name
    marked with a star) when the index has no entry of its name, else
    [Unchanged] or [Modified] by the hash of the first entry of its name. *)
Definition classified (raw_entanglements : list Entanglement)
    (b : ParsedEntanglementBlock) (d : DiffedEntanglementBlock) : Prop :=
  let n := name (definition (entanglement b)) in
  ((n ∉ names_of raw_entanglements) ∧ status d = Created
   ∧ name (definition (parsed_entanglement d)) = n +:+ "*")
  ∨ (∃ indexed,
       get_entanglement raw_entanglements
         (IntIndex (indexof_entanglement raw_entanglements (KeyName n))) = Ok indexed
       ∧ name (definition indexed) = n
       ∧ parsed_entanglement d = entanglement b
       ∧ status d = if bool_decide (hash (block (entanglement b)) = hash (block indexed))
                    then Unchanged else Modified).

(** The names of the parsed blocks. *)
Definition parsed_names (parsed : list ParsedEntanglementBlock) : list string :=
  (λ b, name (definition (entanglement b))) <$> parsed.

(** [get_block_status], given what the parser of [file] yields from
    [get_entanglements()]. The set is iterated in the order of
    [elements]. *)
Definition get_block_status (raw_entanglements : list Entanglement)
    (parsed : list ParsedEntanglementBlock) (file : string)
  : generated DiffedEntanglementBlock :=
  let names : gset string :=
    list_to_set ((λ x, name (definition x)) <$> get_file_blocks raw_entanglements file) in
  let '(g, st) := current_blocks_loop raw_entanglements (mkLoop names None) parsed in
  match ended_by g with
  | Some e => g
  | None =>
      let tail :=
        deleted_blocks_loop raw_entanglements (indexed_entanglement st)
          (elements (non_processed_entanglements st)) in
      mkGenerated (yielded g ++ yielded tail) (ended_by tail)
  end.

End Status.

(** ** models/entangled_entities.py: the document tree and its renderer *)

Module Entities.
Import Text.

(** What a [children] list can hold: a [str], or an object of one of the
    four classes. [parent] is left to the scanner that maintains it. *)
#[local] Set Warnings "-register-all".
Inductive node : Type :=
  | Str (text : string)
  | RawCodeBlock (children : list node)
  | EntangledCodeBlock (source : option string) (ref_name : string)
      (indent : nat) (children : list node)
  | NonEntangledCodeBlock (source : option string) (ref_name : string)
      (indent : nat) (children : list node)
  | EntangledDocument (children : list node) (source_file : option string).

(** [isinstance(x, C)] for the four classes. *)
Definition isinstance_NonEntangledCodeBlock (x : node) : bool :=
  match x with NonEntangledCodeBlock _ _ _ _ => true | _ => false end.

Definition isinstance_EntangledCodeBlock (x : node) : bool :=
  match x with
  | EntangledCodeBlock _ _ _ _ | NonEntangledCodeBlock _ _ _ _ => true
  | _ => false
  end.

Definition isinstance_RawCodeBlock (x : node) : bool :=
  match x with RawCodeBlock _ => true | _ => false end.

Definition node_children (x : node) : list node :=
  match x with
  | Str _ => []
  | RawCodeBlock children
  | EntangledCodeBlock _ _ _ children
  | NonEntangledCodeBlock _ _ _ children
  | EntangledDocument children _ => children
  end.

Definition node_ref_name (x : node) : string :=
  match x with
  | EntangledCodeBlock _ ref_name _ _
  | NonEntangledCodeBlock _ ref_name _ _ => ref_name
  | _ => "None"
  end.

(** [EntangledNowebBloodhound.generate_entangled_block]. *)
Definition generate_entangled_block (source : option string) (ref_name : string)
    (indent : string) : string * string :=
  (indent +:+ "# Entanglement: This block is entangled with {" +:+ ref_name
     +:+ "}@{" +:+ str_or_None source +:+ "}.",
   indent +:+ "# End of block entanglement.").

(** [EntangledNowebBloodhound.generate_entangled_document], for the
    [__version__] of [galac/version.py]. *)
Definition generate_entangled_document (version : string)
    (source : option string) : string * string :=
  ("# Entanglement: This file is entangled with {" +:+ str_or_None source +:+ "}.",
   "# End of file entanglement. Created by Intergalactangled (Version "
     +:+ version +:+ ").").

(** A call of [generate_entangled_document], which has one parameter, with
    the positional arguments of the call site. *)
Definition call_generate_entangled_document (version : string)
    (arguments : list (option string)) : result (string * string) :=
  match arguments with
  | [source] => Ok (generate_entangled_document version source)
  | _ => Raise TypeError
  end.

(** The three lines that stand for a block met a second time. *)
Definition cycle_lines (indent : nat) (ref_name : string) : list node :=
  [ Str (spaces indent +:+ ">>>>>>>>");
    Str (spaces indent +:+ "Cycle detected: " +:+ ref_name);
    Str (spaces indent +:+ "<<<<<<<<<<") ].

(** What a generator over a shared [seen] set leaves behind. *)
Record rendering : Type :=
  mkRendering {
    emitted : list node;
    seen_after : gset string;
    raised : option exception }.

Section render.
(** The globals of [entangled_entities.py], [__version__], and the
    parameter [comment_chars] of [format_child], which every call of it
    passes on as it is. *)
Context (g : globals) (version comment_chars : string).

(** [format_child], the function that [entangled] defines: the values it
    yields, the [seen] set as it leaves it, and the exception that stops
    it. The branches are in the order of the [isinstance] chain; the
    second and the fourth begin by reading [EntangledNowebBloodhound]. *)
Fixpoint format_child (child : node) (seen : gset string) : rendering :=
  let format_all :=
    fix format_all (children : list node) (seen : gset string) : rendering :=
      match children with
      | [] => mkRendering [] seen None
      | grandchild :: rest =>
          let r := format_child grandchild seen in
          match raised r with
          | Some e => r
          | None =>
              let r' := format_all rest (seen_after r) in
              mkRendering (emitted r ++ emitted r') (seen_after r') (raised r')
          end
      end in
  match child with
  | NonEntangledCodeBlock _ _ _ _ =>
      mkRendering [Str "Error: Unresolved Entangled Block."] seen None
  | EntangledCodeBlock source ref_name indent children =>
      match g with
      | Shipped => mkRendering [] seen (Some NameError)
      | Completed =>
          let '(header, footer) :=
            generate_entangled_block source ref_name comment_chars in
          if bool_decide (ref_name ∈ seen) then
            mkRendering (Str header :: cycle_lines indent ref_name ++ [Str footer])
                        seen None
          else
            let r := format_all children ({[ ref_name ]} ∪ seen) in
            match raised r with
            | Some e => mkRendering (Str header :: emitted r) (seen_after r) (Some e)
            | None =>
                mkRendering (Str header :: emitted r ++ [Str footer])
                            (seen_after r) None
            end
      end
  | RawCodeBlock children => mkRendering children seen None
  | EntangledDocument children source_file =>
      match g with
      | Shipped => mkRendering [] seen (Some NameError)
      | Completed =>
          match call_generate_entangled_document version
                  [source_file; Some comment_chars] with
          | Raise e => mkRendering [] seen (Some e)
          | Ok (file_header, file_footer) =>
              let r := format_all children seen in
              match raised r with
              | Some e =>
                  mkRendering (Str file_header :: emitted r) (seen_after r) (Some e)
              | None =>
                  mkRendering (Str file_header :: emitted r ++ [Str file_footer])
                              (seen_after r) None
              end
          end
      end
  | Str text => mkRendering [Str (repr text)] seen None
  end.

(** The loop [for grandchild in child.children: yield from format_child]. *)
Fixpoint format_children (children : list node) (seen : gset string)
  : rendering :=
  match children with
  | [] => mkRendering [] seen None
  | grandchild :: rest =>
      let r := format_child grandchild seen in
      match raised r with
      | Some e => r
      | None =>
          let r' := format_children rest (seen_after r) in
          mkRendering (emitted r ++ emitted r') (seen_after r') (raised r')
      end
  end.

(** The [EntangledDocument] branch of [format_child] past the call that
    builds the marker pair, for a pair that is given. *)
Definition format_document (markers : string * string) (children : list node)
    (seen : gset string) : rendering :=
  let '(file_header, file_footer) := markers in
  let r := format_children children seen in
  match raised r with
  | Some e => mkRendering (Str file_header :: emitted r) (seen_after r) (Some e)
  | None =>
      mkRendering (Str file_header :: emitted r ++ [Str file_footer])
                  (seen_after r) None
  end.

End render.

(** ["\n".join(values)]: every value has to be a [str]. *)
Fixpoint join_values (values : list node) : result (list string) :=
  match values with
  | [] => Ok []
  | Str text :: rest =>
      match join_values rest with
      | Ok lines => Ok (text :: lines)
      | Raise e => Raise e
      end
  | _ :: _ => Raise TypeError
  end.

(** A call of [entangled] with the positional [arguments]. [self] is its
    one parameter, so a call with an argument is refused. Without one,
    the body builds the argument list of [format_child(self,
    comment_chars)]: [comment_chars] is no parameter and no local of
    [entangled], no global of the module and no builtin, and an import
    binds no such name. [format_child] is not called. *)
Definition entangled (arguments : list string) (self : node) : result string :=
  match arguments with
  | _ :: _ => Raise TypeError
  | [] => Raise NameError
  end.

(** The first statement of [create_target_file]:
    [body = self.entangled(comment_chars)]. *)
Definition create_target_file_body (comment_chars : string) (self : node)
  : result string :=
  entangled [comment_chars] self.

(** The names of the blocks of a tree, resolved or not, in document
    order. *)
Fixpoint block_names (x : node) : list string :=
  let names_of :=
    fix names_of (children : list node) : list string :=
      match children with
      | [] => []
      | c :: rest => block_names c ++ names_of rest
      end in
  match x with
  | Str _ => []
  | RawCodeBlock children => names_of children
  | EntangledCodeBlock _ ref_name _ children
  | NonEntangledCodeBlock _ ref_name _ children => ref_name :: names_of children
  | EntangledDocument children _ => names_of children
  end.

(** The unresolved references of a tree with their indentation, in
    document order. *)
Fixpoint unresolved (x : node) : list (string * nat) :=
  let unresolved_of :=
    fix unresolved_of (children : list node) : list (string * nat) :=
      match children with
      | [] => []
      | c :: rest => unresolved c ++ unresolved_of rest
      end in
  match x with
  | Str _ => []
  | RawCodeBlock children => unresolved_of children
  | EntangledCodeBlock _ _ _ children => unresolved_of children
  | NonEntangledCodeBlock _ ref_name indent children =>
      (ref_name, indent) :: unresolved_of children
  | EntangledDocument children _ => unresolved_of children
  end.

End Entities.

(** ** entanglement_management.py: [resolve_non_entangled_document] *)

Module Resolver.
Import Text Storages Entities.

(** The loop over [entangled_document_children], for the globals [g] of
    [entanglement_management.py]. The first statement of a pass reads
    [EntangledCodeBlock]. With the classes imported the tests are in the
    order of the source: the first one, [isinstance(child,
    EntangledCodeBlock)], also holds of a [NonEntangledCodeBlock]. In the
    third branch the index is subscripted with the name, and
    [DocumentParser] is given the [str] in [definition.file], whose
    [suffix] it reads. *)
Fixpoint resolve_non_entangled_document (g : globals)
    (entanglements : list Entanglement)
    (entangled_document_children : list node) (seen : gset string)
  : rendering :=
  match entangled_document_children with
  | [] => mkRendering [] seen None
  | child :: rest =>
      match g with
      | Shipped => mkRendering [] seen (Some NameError)
      | Completed =>
          if isinstance_EntangledCodeBlock child then
            let r := resolve_non_entangled_document g entanglements rest seen in
            mkRendering (child :: emitted r) (seen_after r) (raised r)
          else if isinstance_RawCodeBlock child then
            let r := resolve_non_entangled_document g entanglements rest seen in
            mkRendering (node_children child ++ emitted r) (seen_after r) (raised r)
          else if isinstance_NonEntangledCodeBlock child then
            if bool_decide (node_ref_name child ∈ seen) then
              resolve_non_entangled_document g entanglements rest seen
            else
              let seen := {[ node_ref_name child ]} ∪ seen in
              match get_entanglement entanglements
                      (StrIndex (node_ref_name child)) with
              | Raise e => mkRendering [] seen (Some e)
              | Ok entanglement => mkRendering [] seen (Some AttributeError)
              end
          else resolve_non_entangled_document g entanglements rest seen
      end
  end.

(** What the loop does, with the classes imported, to one child that is
    reached by its first two tests or by none. *)
Definition passed_through (child : node) : list node :=
  if isinstance_EntangledCodeBlock child then [child]
  else if isinstance_RawCodeBlock child then node_children child
  else [].

End Resolver.

(** ** parsing/markdown.py: [NowebBloodhound] *)

Module Prose.
Import Text Storages Entities.

(** The class [[\r\t\f ]] and the class [[\w-]]. *)
Definition is_blank (c : ascii) : bool :=
  bool_decide (code c ∈ [13; 9; 12; 32]%N).

Definition is_name_char (c : ascii) : bool := is_word c || is_char "-" c.

Definition NOWEB_REFERENCE : pattern :=
  [ Open "indent"; Star is_blank; Close "indent"; Lit "<<";
    Open "ref_name"; Plus is_name_char; Close "ref_name"; Lit ">>";
    Star is_blank; Eol ].

(** [NOWEB_REFERENCE] read from left to right: each repetition takes all
    it can, and the two groups are returned. *)
Definition scan_reference (line : string) : option (string * string) :=
  match strip_prefix "<<" (drop_while is_blank line) with
  | Some rest =>
      if bool_decide (take_while is_name_char rest = "") then None
      else
        match strip_prefix ">>" (drop_while is_name_char rest) with
        | Some rest' =>
            let final := drop_while is_blank rest' in
            if bool_decide (final = "") || bool_decide (final = String newline "")
            then Some (take_while is_blank line, take_while is_name_char rest)
            else None
        | None => None
        end
  | None => None
  end.

(** [self.current_parent] is the document or the [RawCodeBlock] that is
    its last child. *)
Inductive cursor : Type := AtDocument | AtRawCodeBlock.

Record NowebBloodhound : Type :=
  mkBloodhound {
    noweb_references : list Reference;
    line_number : nat;
    document_children : list node;
    current_parent : cursor }.

(** [__init__]. *)
Definition new_bloodhound : NowebBloodhound := mkBloodhound [] 0 [] AtDocument.

Definition document (self : NowebBloodhound) : node :=
  EntangledDocument (document_children self) None.

(** [children.append(x)] on the last child of the document. *)
Fixpoint append_to_last (x : node) (children : list node) : list node :=
  match children with
  | [] => []
  | [RawCodeBlock lines] => [RawCodeBlock (lines ++ [x])]
  | [other] => [other]
  | c :: rest => c :: append_to_last x rest
  end.

(** [self.current_parent.children.append(x)]. *)
Definition append_to_current (x : node) (self : NowebBloodhound) : list node :=
  match current_parent self with
  | AtDocument => document_children self ++ [x]
  | AtRawCodeBlock => append_to_last x (document_children self)
  end.

(** The rule [on_line]; it returns [None]. *)
Definition on_line (self : NowebBloodhound) : NowebBloodhound :=
  mkBloodhound (noweb_references self) (S (line_number self))
    (document_children self) (current_parent self).

(** The rule [on_noweb_reference], for the match [m]. *)
Definition on_noweb_reference (self : NowebBloodhound) (m : groups)
  : NowebBloodhound :=
  let reference := mkReference (group m "ref_name") (group m "indent") in
  let entangled_block :=
    NonEntangledCodeBlock None (group m "ref_name")
      (String.length (group m "indent")) [] in
  mkBloodhound (noweb_references self ++ [reference]) (line_number self)
    (append_to_current entangled_block self) (current_parent self).

(** The rule [get_line]. *)
Definition get_line (self : NowebBloodhound) (line : string) : NowebBloodhound :=
  let self :=
    match current_parent self with
    | AtDocument =>
        mkBloodhound (noweb_references self) (line_number self)
          (document_children self ++ [RawCodeBlock []]) AtRawCodeBlock
    | AtRawCodeBlock => self
    end in
  mkBloodhound (noweb_references self) (line_number self)
    (append_to_current (Str line) self) (current_parent self).

(** One line through the rules, in the order of their declaration; a rule
    that returns a list ends the line. *)
Definition step (self : NowebBloodhound) (line : string) : NowebBloodhound :=
  let self := on_line self in
  match re_match NOWEB_REFERENCE line with
  | Some m => on_noweb_reference self m
  | None => get_line self line
  end.

Definition run_lines (lines : list string) : NowebBloodhound :=
  fold_left step lines new_bloodhound.

(** [run(code)]. *)
Definition run (code : string) : NowebBloodhound := run_lines (splitlines code).

(** The reference grammar: blanks, [<<], a name, [>>], blanks, and
    possibly one final line feed. *)
Definition reference_line (indent ref_name line : string) : Prop :=
  ∃ trailing final,
    line = indent +:+ "<<" +:+ ref_name +:+ ">>" +:+ trailing +:+ final
    ∧ all_chars is_blank indent = true
    ∧ all_chars is_name_char ref_name = true
    ∧ ref_name ≠ ""
    ∧ all_chars is_blank trailing = true
    ∧ (final = "" ∨ final = String newline "").

(** The grammar in the words of the design: white space, [<<name>>],
    white space, nothing else. *)
Definition reference_line_as_designed (line : string) : Prop :=
  ∃ leading ref_name trailing,
    line = leading +:+ "<<" +:+ ref_name +:+ ">>" +:+ trailing
    ∧ all_chars is_space leading = true
    ∧ ref_name ≠ ""
    ∧ all_chars is_space trailing = true.

(** The scanner's cursor is at a raw block only when the document ends
    with one. *)
Definition cursor_ok (self : NowebBloodhound) : Prop :=
  current_parent self = AtRawCodeBlock →
  ∃ init lines, document_children self = init ++ [RawCodeBlock lines].

End Prose.

(** ** parsing/entangled.py: the scanner of generated files *)

Module Generated.
Import Text.

Definition not_bracket (c : ascii) : bool := negb (is_char "]" c).

Definition ENTANGLED_FILE_CONTENTS : pattern :=
  [ Star is_dot; Lit "Entanglement: This file is entangled with ";
    Lit "{"; Open "source"; Star not_bracket; Close "source"; Lit "}"; Dot ].

Definition ENTANGLED_FILE_END : pattern :=
  [ Star is_dot; Lit "End of file entanglement"; Dot;
    Lit " Created by Intergalactangled (Version ";
    Plus is_digit; Lit "."; Plus is_digit; Lit "."; Plus is_digit; Lit " )." ].

Definition NOWEB_HEADER : pattern :=
  [ Open "indent"; Star is_space; Close "indent"; Star is_dot;
    Lit "Entanglement: This block is entangled with"; Lit " {";
    Open "ref_name"; Star not_bracket; Close "ref_name"; Lit "}@{";
    Open "source"; Star not_bracket; Close "source"; Lit "}." ].

Definition NOWEB_FOOTER : pattern :=
  [ Open "indent"; Star is_space; Close "indent"; Star is_dot;
    Lit "End of block entanglement"; Dot ].

(** The objects that the scanner builds and links by [parent]: each has an
    address in the store, a [children] list of lines and addresses, and a
    [parent] that is an address or [None]. *)
Inductive class_of : Type :=
  | EntangledDocument
  | EntangledCodeBlock
  | RawCodeBlock.

Inductive element : Type :=
  | Line (text : string)
  | Object (address : nat).

Record object : Type :=
  mkObject {
    class : class_of;
    children : list element;
    parent : option nat;
    source : option string;
    ref_name : string;
    indent : nat }.

Record EntangledNowebBloodhound : Type :=
  mkBloodhound {
    store : list object;
    document : nat;
    current_parent : option nat }.

(** [__init__]: the document at address 0. *)
Definition new_bloodhound : EntangledNowebBloodhound :=
  mkBloodhound [mkObject EntangledDocument [] None None "" 0] 0 (Some 0).

(** [type(x)] for [x] an address or [None]. *)
Definition type_of (store : list object) (x : option nat) : option class_of :=
  a ← x; class <$> store !! a.

Definition append_child (e : element) (o : object) : object :=
  mkObject (class o) (children o ++ [e]) (parent o) (source o) (ref_name o)
    (indent o).

Definition set_parent (p : option nat) (o : object) : object :=
  mkObject (class o) (children o) p (source o) (ref_name o) (indent o).

(** [x.parent] for [x] an address or [None]. *)
Definition parent_of (store : list object) (x : option nat)
  : result (option nat) :=
  match x with
  | None => Raise AttributeError
  | Some a =>
      match store !! a with
      | Some o => Ok (parent o)
      | None => Raise AttributeError
      end
  end.

(** The rule [on_header], for the match [m]. *)
Definition on_header (self : EntangledNowebBloodhound) (m : groups)
  : result EntangledNowebBloodhound :=
  let entangled_block :=
    mkObject EntangledCodeBlock [] None (Some (group m "source"))
      (group m "ref_name") (String.length (group m "indent")) in
  let new := length (store self) in
  let store := store self ++ [entangled_block] in
  match type_of store (current_parent self), current_parent self with
  | Some EntangledDocument, Some current =>
      Ok (mkBloodhound (alter (append_child (Object new)) current store)
            (document self) (Some new))
  | Some EntangledCodeBlock, Some current =>
      let store := alter (append_child (Object new)) current store in
      Ok (mkBloodhound (alter (set_parent (Some current)) new store)
            (document self) (Some new))
  | Some RawCodeBlock, Some current =>
      match parent_of store (Some current) with
      | Ok (Some parent) =>
          Ok (mkBloodhound (alter (append_child (Object new)) parent store)
                (document self) (Some new))
      | Ok None => Raise AttributeError
      | Raise e => Raise e
      end
  | _, _ => Ok self
  end.

(** The rule [on_footer]. [None] has no attribute [parent]. *)
Definition on_footer (self : EntangledNowebBloodhound)
  : result EntangledNowebBloodhound :=
  let after_raw :=
    match type_of (store self) (current_parent self) with
    | Some RawCodeBlock =>
        match parent_of (store self) (current_parent self) with
        | Ok container => parent_of (store self) container
        | Raise e => Raise e
        end
    | _ => Ok (current_parent self)
    end in
  match after_raw with
  | Ok None => Ok (mkBloodhound (store self) (document self) (Some (document self)))
  | Ok (Some a) => Ok (mkBloodhound (store self) (document self) (Some a))
  | Raise e => Raise e
  end.

(** The rule [on_line]. *)
Definition on_line (self : EntangledNowebBloodhound) (line : string)
  : EntangledNowebBloodhound :=
  let self :=
    match type_of (store self) (current_parent self), current_parent self with
    | Some EntangledDocument, Some current
    | Some EntangledCodeBlock, Some current =>
        let new := length (store self) in
        let raw := mkObject RawCodeBlock [] (Some current) None "" 0 in
        mkBloodhound
          (alter (append_child (Object new)) current (store self ++ [raw]))
          (document self) (Some new)
    | _, _ => self
    end in
  match type_of (store self) (current_parent self), current_parent self with
  | Some RawCodeBlock, Some current =>
      mkBloodhound (alter (append_child (Line line)) current (store self))
        (document self) (current_parent self)
  | _, _ => self
  end.

(** One line through the rules, in the order of their declaration; each
    rule returns a list and so ends the line. *)
Definition step (self : EntangledNowebBloodhound) (line : string)
  : result EntangledNowebBloodhound :=
  match re_match NOWEB_HEADER line with
  | Some m => on_header self m
  | None =>
      match re_match NOWEB_FOOTER line with
      | Some _ => on_footer self
      | None => Ok (on_line self line)
      end
  end.

Fixpoint run_lines (self : EntangledNowebBloodhound) (lines : list string)
  : result EntangledNowebBloodhound :=
  match lines with
  | [] => Ok self
  | line :: rest =>
      match step self line with
      | Ok self' => run_lines self' rest
      | Raise e => Raise e
      end
  end.

(** [run(code)]. *)
Definition run (code : string) : result EntangledNowebBloodhound :=
  run_lines new_bloodhound (splitlines code).

(** The tree below an address of the store, as the renderer sees it. *)
Fixpoint tree_at (fuel : nat) (store : list object) (address : nat)
  : Entities.node :=
  match fuel with
  | O => Entities.Str ""
  | S fuel =>
      match store !! address with
      | None => Entities.Str ""
      | Some o =>
          let below :=
            (λ e, match e with
                  | Line text => Entities.Str text
                  | Object a => tree_at fuel store a
                  end) <$> children o in
          match class o with
          | EntangledDocument => Entities.EntangledDocument below None
          | EntangledCodeBlock =>
              Entities.EntangledCodeBlock (source o) (ref_name o) (indent o) below
          | RawCodeBlock => Entities.RawCodeBlock below
          end
      end
  end.

Definition document_tree (self : EntangledNowebBloodhound) : Entities.node :=
  tree_at (length (store self)) (store self) (document self).

(** [code[i]] for [i] = -1 or -2. *)
Definition from_end (back : nat) (code : list string) : option string :=
  if decide (back <= length code)%nat then code !! (length code - back)%nat
  else None.

(** [extract_entanglement]: [None], or the source and how many lines the
    footer takes from the end. *)
Definition extract_entanglement (code : list string)
  : result (option (string * nat)) :=
  if bool_decide (code = [""]) then Ok None
  else
    let last_line :=
      match from_end 1 code with
      | Some l => if bool_decide (l = "") then 2%nat else 1%nat
      | None => 1%nat
      end in
    match code !! 0%nat, from_end last_line code with
    | Some first, Some last =>
        let match_ := re_match ENTANGLED_FILE_CONTENTS first in
        let file_end := re_match ENTANGLED_FILE_END last in
        match match_, file_end with
        | None, None => Ok None
        | None, Some _ => Raise AttributeError
        | Some m, _ => Ok (Some (group m "source", last_line))
        end
    | _, _ => Raise IndexError
    end.

(** [EntangledDocumentParser.parse], on the text of the file: no document,
    or the scanner at the end of the lines between the two markers and the
    source it was given. *)
Definition parse (text : string)
  : result (option (EntangledNowebBloodhound * string)) :=
  let code := split_newline text in
  match extract_entanglement code with
  | Raise e => Raise e
  | Ok None => Ok None
  | Ok (Some (source, last_line)) =>
      let body := take (length code - last_line - 1) (drop 1 code) in
      match run (join_lines body) with
      | Ok parser => Ok (Some (parser, source))
      | Raise e => Raise e
      end
  end.

(** The tree that [parse] gives for a text. *)
Definition parsed_tree (text : string) : result (option Entities.node) :=
  match parse text with
  | Ok (Some (parser, _)) => Ok (Some (document_tree parser))
  | Ok None => Ok None
  | Raise e => Raise e
  end.

End Generated.

(** ** Resolve, render, parse again *)

Module Roundtrip.
Import Text Storages.

Definition rendered_text (r : Entities.rendering) : result string :=
  match Entities.raised r with
  | Some e => Raise e
  | None =>
      match Entities.join_values (Entities.emitted r) with
      | Ok lines => Ok (join_lines lines)
      | Raise e => Raise e
      end
  end.

(** The children of a document are resolved, the document of the resolved
    children is rendered by [entangled], called as [create_target_file]
    calls it, and the text is parsed by [EntangledDocumentParser.parse]. *)
Definition roundtrip (g : globals) (comment_chars : string)
    (entanglements : list Entanglement) (children : list Entities.node)
    (source_file : option string) : result (option Entities.node) :=
  let resolved :=
    Resolver.resolve_non_entangled_document g entanglements children ∅ in
  match Entities.raised resolved with
  | Some e => Raise e
  | None =>
      match Entities.create_target_file_body comment_chars
              (Entities.EntangledDocument (Entities.emitted resolved) source_file) with
      | Ok text => Generated.parsed_tree text
      | Raise e => Raise e
      end
  end.

(** The same with the imports added, and with the document rendered by
    [format_document] between the marker pair of
    [generate_entangled_document(source_file)]. *)
Definition roundtrip_between_markers (version comment_chars : string)
    (entanglements : list Entanglement) (children : list Entities.node)
    (source_file : option string) : result (option Entities.node) :=
  let resolved :=
    Resolver.resolve_non_entangled_document Completed entanglements children ∅ in
  match Entities.raised resolved with
  | Some e => Raise e
  | None =>
      match rendered_text
              (Entities.format_document Completed version comment_chars
                 (Entities.generate_entangled_document version source_file)
                 (Entities.emitted resolved) ∅) with
      | Ok text => Generated.parsed_tree text
      | Raise e => Raise e
      end
  end.

End Roundtrip.

(** ** models/storages.py: removal from the two stores *)

Module Removal.
Import Storages.

(** [container.pop(index)] of a protobuf repeated field: the element at
    [index] and the list without it; like a subscript, a negative index
    counts from the end. *)
Definition pop {A} (l : list A) (index : Z) : result (A * list A) :=
  let n := Z.of_nat (length l) in
  let j := (if index <? 0 then index + n else index)%Z in
  if (j <? 0)%Z then Raise IndexError
  else match l !! Z.to_nat j with
       | Some x => Ok (x, delete (Z.to_nat j) l)
       | None => Raise IndexError
       end.

(** [FileIndex.remove_file]: the record taken out and the records left. *)
Definition remove_file (files : list File) (file : string)
  : result (File * list File) :=
  match indexof_file files file with
  | Some index => pop files (Z.of_nat index)
  | None => Raise FileIndexException
  end.

(** [EntanglementIndex.remove_entanglement]: the lookup is handed the
    message; its answer is an [int], which [is not None], so the branch
    that raises [EntanglementIndexException] is never taken. *)
Definition remove_entanglement (entanglements : list Entanglement)
    (entanglement : Entanglement) : result (Entanglement * list Entanglement) :=
  let index := indexof_entanglement entanglements (KeyMessage entanglement) in
  pop entanglements index.

End Removal.

(** ** models/entangled_entities.py: [__str__] and [flatten] *)

Module Printing.
Import Text Entities.

Definition node_indent (x : node) : nat :=
  match x with
  | EntangledCodeBlock _ _ indent _
  | NonEntangledCodeBlock _ _ indent _ => indent
  | _ => 0
  end.

(** [f"{' ' * child.indent}<<{child.ref_name}>>"]. *)
Definition reference_text (child : node) : string :=
  spaces (node_indent child) +:+ "<<" +:+ node_ref_name child +:+ ">>".

(** [format_children] of [EntangledDocument.__str__]: the values it
    yields, in the order of its [isinstance] chain. *)
Fixpoint document_format_children (children : list node) : list node :=
  match children with
  | [] => []
  | child :: rest =>
      (if isinstance_NonEntangledCodeBlock child
       then [Str "Error: Unresolved Entangled Block."]
       else if isinstance_EntangledCodeBlock child
            then [Str (reference_text child)]
            else if isinstance_RawCodeBlock child then node_children child
                 else [])
        ++ document_format_children rest
  end.

(** [format_children] of [EntangledCodeBlock.__str__]. *)
Fixpoint block_format_children (children : list node) : list node :=
  match children with
  | [] => []
  | child :: rest =>
      (if isinstance_EntangledCodeBlock child
       then [Str (reference_text child)]
       else if isinstance_RawCodeBlock child then node_children child
            else [])
        ++ block_format_children rest
  end.

(** ["\n".join(values)]. *)
Definition joined (values : list node) : result string :=
  match join_values values with
  | Ok lines => Ok (join_lines lines)
  | Raise e => Raise e
  end.

(** [str(x)], by the class of [x]: [NonEntangledCodeBlock] inherits the
    method of [EntangledCodeBlock]. *)
Definition str (x : node) : result string :=
  match x with
  | Str text => Ok text
  | RawCodeBlock children => joined children
  | EntangledCodeBlock _ _ _ children
  | NonEntangledCodeBlock _ _ _ children => joined (block_format_children children)
  | EntangledDocument children _ => joined (document_format_children children)
  end.

(** [flatten_children] of [flatten], on one child and on a list. *)
Fixpoint flatten_child (child : node) : list node :=
  let flatten_children :=
    fix flatten_children (children : list node) : list node :=
      match children with
      | [] => []
      | c :: rest => flatten_child c ++ flatten_children rest
      end in
  match child with
  | EntangledCodeBlock _ _ _ children
  | NonEntangledCodeBlock _ _ _ children => child :: flatten_children children
  | RawCodeBlock children => flatten_children children
  | _ => []
  end.

Definition flatten (self : node) : list node :=
  node_children self ≫= flatten_child.

End Printing.

(** ** parsing/markdown.py: what the prose scanner makes of a line *)

Module ProseLines.
Import Text Storages Entities Prose.

(** The child that a line becomes: the unresolved block of
    [on_noweb_reference], or the line itself. *)
Definition line_item (line : string) : node :=
  match re_match NOWEB_REFERENCE line with
  | Some m =>
      NonEntangledCodeBlock None (group m "ref_name")
        (String.length (group m "indent")) []
  | None => Str line
  end.

(** The [Reference] that [on_noweb_reference] records for a line. *)
Definition line_reference (line : string) : option Reference :=
  (λ m, mkReference (group m "ref_name") (group m "indent"))
    <$> re_match NOWEB_REFERENCE line.

Definition is_reference (line : string) : bool :=
  bool_decide (is_Some (re_match NOWEB_REFERENCE line)).

End ProseLines.

(** ** utils.py: [get_relative_path], which
       [Intergalactangled.relative_path] calls with the current directory
       and a path below the workspace root *)

Module RelativePath.

(** An absolute path is the list of its components below the anchor, as
    in [Workspace]; a relative path is a list of components, among which
    [".."] may occur. *)
Definition path : Type := list string.

(** [p.parent]: the anchor is its own parent. *)
Definition parent (p : path) : path := removelast p.

(** [Path(p.name)]: the name of the anchor is empty, and [Path("")] has
    no component. *)
Definition Path_of_name (p : path) : list string :=
  match last p with
  | Some name => [name]
  | None => []
  end.

(** [p.parents], the nearest first and the anchor last. *)
Definition parents (p : path) : list path :=
  (λ n, take n p) <$> reverse (seq 0 (length p)).

(** [p.is_relative_to(base)] and [p.relative_to(base)]; the latter raises
    [ValueError] when [p] is not below [base]. *)
Definition is_relative_to (p base : path) : bool :=
  bool_decide (take (length base) p = base).

Definition relative_to (p base : path) : option (list string) :=
  if is_relative_to p base then Some (drop (length base) p) else None.

(** How a call ends: it returns a path or [None], or raises
    [ValueError]. *)
Inductive outcome : Type :=
  | Returns (relative : option (list string))
  | RaisesValueError.

(** [l[i - 1]] for [i] the position in an [enumerate]: at [i = 0] the
    subscript is [-1], the last element. *)
Definition before (l : list path) (i : nat) : option path :=
  match i with
  | O => last l
  | S j => l !! j
  end.

(** The [for i, parent in enumerate(base_parents)] loop, from position
    [i] on. *)
Fixpoint for_parents (target_file : path) (base_parents : list path)
    (i : nat) (remaining : list path) : outcome :=
  match remaining with
  | [] => Returns None
  | parent :: rest =>
      if negb (bool_decide (parent ∈ parents target_file)) then
        match list_find (λ p, p = parent) base_parents, before base_parents i with
        | Some (index, _), Some anchor_side =>
            match relative_to target_file anchor_side with
            | Some relative =>
                Returns (Some (replicate (length base_parents - index) ".."
                                 ++ relative))
            | None => RaisesValueError
            end
        | _, _ => RaisesValueError
        end
      else for_parents target_file base_parents (S i) rest
  end.

Definition get_relative_path (base_folder target_file : path) : outcome :=
  if bool_decide (base_folder = parent target_file)
  then Returns (Some (Path_of_name target_file))
  else if is_relative_to (parent target_file) base_folder
       then match relative_to target_file base_folder with
            | Some relative => Returns (Some relative)
            | None => RaisesValueError
            end
       else
         let base_parents := reverse (base_folder :: parents base_folder) in
         for_parents target_file base_parents 0 base_parents.

(** Where a relative path leads from a directory: [".."] goes to the
    parent, any other component goes down. *)
Fixpoint resolve_from (dir : path) (relative : list string) : path :=
  match relative with
  | [] => dir
  | c :: relative' =>
      if bool_decide (c = "..") then resolve_from (removelast dir) relative'
      else resolve_from (dir ++ [c]) relative'
  end.

End RelativePath.

(** ** What a pattern needs of a text *)

Module Needs.
Import Text.

(** Two characters stand side by side in a text. *)
Fixpoint has_pair (x y : ascii) (s : string) : bool :=
  match s with
  | String a ((String b _) as s') => (is_char x a && is_char y b) || has_pair x y s'
  | _ => false
  end.

(** A literal of the pattern holds the character. *)
Definition needs_char (x : ascii) (p : pattern) : bool :=
  existsb (λ a, match a with Lit text => has_char x text | _ => false end) p.

(** A literal of the pattern holds the two characters side by side. *)
Definition needs_pair (x y : ascii) (p : pattern) : bool :=
  existsb (λ a, match a with Lit text => has_pair x y text | _ => false end) p.

End Needs.

(** ** parsing/entangled.py: what the scanner keeps true of its objects *)

Module ScannerState.
Import Text Generated.

(** Every raw block of the store has a parent, and every parent is an
    address of the store. *)
Definition store_ok (store : list object) : Prop :=
  ∀ a o, store !! a = Some o →
    (class o = RawCodeBlock → is_Some (parent o))
    ∧ (∀ p, parent o = Some p → (p < length store)%nat).

(** The cursor and the document are addresses of the store. *)
Definition scanner_ok (self : EntangledNowebBloodhound) : Prop :=
  store_ok (store self)
  ∧ (∃ a, current_parent self = Some a ∧ (a < length (store self))%nat)
  ∧ (document self < length (store self))%nat.

(** A line that is neither a block header nor a block footer. *)
Definition plain (line : string) : Prop :=
  re_match NOWEB_HEADER line = None ∧ re_match NOWEB_FOOTER line = None.

End ScannerState.

(** ** parsing/entangled.py: [EntangledDocumentParser.get_entanglements] *)

Module GeneratedParser.
Import Text Storages Status Entities Printing.

(** The [Entanglement] that [get_entanglements] builds around a code text:
    [language=None] leaves the field unset. *)
Definition entanglement_of (xxh64 : string → N) (code : string)
    (definition : BlockDefinition) : Entanglement :=
  mkEntanglement (mkCodeBlock (hexdigest (xxh64 code)) code "") definition [].

(** The loop over [enumerate(self.parsed_document.flatten())]. *)
Fixpoint nested_blocks (xxh64 : string → N) (document : string)
    (node_index : nat) (references : list node)
  : generated ParsedEntanglementBlock :=
  match references with
  | [] => mkGenerated [] None
  | reference :: rest =>
      match str reference with
      | Raise e => mkGenerated [] (Some e)
      | Ok code =>
          let entanglement :=
            entanglement_of xxh64 code
              (mkDefinition (node_ref_name reference)
                 (default "" (match reference with
                              | EntangledCodeBlock source _ _ _
                              | NonEntangledCodeBlock source _ _ _ => source
                              | _ => None
                              end))
                 "" "" document) in
          let tail := nested_blocks xxh64 document (S node_index) rest in
          mkGenerated (mkParsed node_index entanglement Entangled :: yielded tail)
                      (ended_by tail)
      end
  end.

(** [get_entanglements], for [str(self.document)] and for the parsed
    document with the [source] that [parse] gave it, or [None]. *)
Definition get_entanglements (xxh64 : string → N) (document : string)
    (parsed_document : option (node * string))
  : generated ParsedEntanglementBlock :=
  match parsed_document with
  | None => mkGenerated [] None
  | Some (tree, source) =>
      match str tree with
      | Raise e => mkGenerated [] (Some e)
      | Ok code =>
          let entanglement :=
            entanglement_of xxh64 code (mkDefinition document source "" document "") in
          let tail := nested_blocks xxh64 document 0 (flatten tree) in
          mkGenerated (mkParsed 0 entanglement Entangled :: yielded tail)
                      (ended_by tail)
      end
  end.

End GeneratedParser.

(** ** entanglement_management.py: [create_dummy_entanglement] *)

Module Dummy.
Import Text Entities.

(** What [create_dummy_entanglement] writes to the Python file: [md_file]
    is the text of [Path(name + ".md")], [exists_] says whether the Python
    file is there already. The result is the mode of [open] and the text
    written. *)
Definition py_text (version name md_file : string) (exists_ : bool)
  : string * string :=
  let ref_name := "dummy_ref_name_" +:+ name in
  let '(header, footer) := generate_entangled_block (Some md_file) ref_name "" in
  let body :=
    [ header; "if __name__ == '__main__':"; "    print('hello world')"; footer ] in
  if exists_ then ("a", join_lines body)
  else
    let '(file_header, file_footer) :=
      generate_entangled_document version (Some md_file) in
    let file_header := [file_header; "print('prelude')"] in
    let file_footer := ["print('epilogue')"; ""; file_footer] in
    ("w", join_lines (file_header ++ body ++ file_footer)).

End Dummy.


(** ** parsing/markdown.py: [MarkdownExtra] *)

Module Extra.
Import Text.

(** The part of the [re] syntax that [EXTRA_PATTERN] is written in: one
    character of a class, [class+] (greedy), [class*?] (lazy), sequence,
    alternation and named group. *)
Inductive regex : Type :=
  | Char (class : ascii → bool)
  | Many (class : ascii → bool)
  | Few (class : ascii → bool)
  | Then (r1 r2 : regex)
  | Or (r1 r2 : regex)
  | Named (group : string) (r : regex).

(** A greedy repetition offers the longest run to what follows it, [k],
    and gives characters back one by one while [k] fails; a lazy one
    offers the shortest run first. *)
Fixpoint greedy {R : Type} (class : ascii → bool) (k : string → option R)
    (s : string) : option R :=
  match s with
  | String c s' =>
      if class c then
        match greedy class k s' with
        | Some r => Some r
        | None => k s
        end
      else k s
  | EmptyString => k s
  end.

Fixpoint lazy {R : Type} (class : ascii → bool) (k : string → option R)
    (s : string) : option R :=
  match k s with
  | Some r => Some r
  | None =>
      match s with
      | String c s' => if class c then lazy class k s' else None
      | EmptyString => None
      end
  end.

(** Backtracking match at the head of [s]: [k] is what has to match after
    [r], given the text that is left and the groups closed so far; an
    alternation offers its branches from left to right. *)
Fixpoint matches {R : Type} (r : regex) (s : string) (gs : list (string * string))
    (k : string → list (string * string) → option R) : option R :=
  match r with
  | Char class =>
      match s with
      | String c s' => if class c then k s' gs else None
      | EmptyString => None
      end
  | Many class =>
      match s with
      | String c s' => if class c then greedy class (λ rest, k rest gs) s' else None
      | EmptyString => None
      end
  | Few class => lazy class (λ rest, k rest gs) s
  | Then r1 r2 => matches r1 s gs (λ s' gs', matches r2 s' gs' k)
  | Or r1 r2 =>
      match matches r1 s gs k with
      | Some r => Some r
      | None => matches r2 s gs k
      end
  | Named group r =>
      matches r s gs
        (λ s' gs',
           k s' ((group, take_chars (String.length s - String.length s') s) :: gs'))
  end.

(** One attempt of the search at the head of [s]: the groups and the
    text after the match. With [must_advance] an empty match is no
    match. *)
Definition match_at (must_advance : bool) (r : regex) (s : string)
  : option (list (string * string) * string) :=
  matches r s []
    (λ rest gs,
       if must_advance && (String.length rest =? String.length s)%nat then None
       else Some (gs, rest)).

(** [re.findall(r, text)], each match given as [tuple] of its groups:
    the matches from left to right, none overlapping another. [skip]
    counts the characters of the last match that are still ahead. After
    an empty match the search tries the same place again for a match
    that is not empty, then moves on. *)
Fixpoint findall_from {T : Type} (r : regex) (tuple : list (string * string) → T)
    (skip : nat) (s : string) : list T :=
  match skip, s with
  | S skip', String _ s' => findall_from r tuple skip' s'
  | S _, EmptyString => []
  | O, String _ s' =>
      let ahead (rest : string) : nat := String.length s - String.length rest - 1 in
      match match_at false r s with
      | Some (gs, rest) =>
          if (String.length rest =? String.length s)%nat then
            tuple gs
              :: match match_at true r s with
                 | Some (gs', rest') =>
                     tuple gs' :: findall_from r tuple (ahead rest') s'
                 | None => findall_from r tuple 0 s'
                 end
          else tuple gs :: findall_from r tuple (ahead rest) s'
      | None => findall_from r tuple 0 s'
      end
  | O, EmptyString =>
      match match_at false r s with
      | Some (gs, _) => [tuple gs]
      | None => []
      end
  end.

Definition findall {T : Type} (r : regex) (tuple : list (string * string) → T)
    (text : string) : list T :=
  findall_from r tuple 0 text.

Definition non_space (c : ascii) : bool := negb (is_space c).

Definition quote : ascii := ascii_of_N 34.

(** [EXTRA_PATTERN]. *)
Definition EXTRA_PATTERN : regex :=
  Or (Named "kv"
        (Then (Many non_space)
           (Then (Char (is_char "="))
              (Or (Then (Char (is_char quote))
                     (Then (Few is_dot) (Char (is_char quote))))
                  (Many non_space)))))
     (Named "attr" (Many non_space)).

(** The tuple [(kv, attr)] of a match, [""] for the group that took no
    part. *)
Definition kv_attr (gs : list (string * string)) : string * string :=
  (default "" (assoc "kv" gs), default "" (assoc "attr" gs)).

(** [s.split(sep)] for a separator of one character, with the part being
    read in [current]. *)
Fixpoint split_at (sep : ascii) (current : string) (s : string) : list string :=
  match s with
  | EmptyString => [current]
  | String c s' =>
      if is_char sep c then current :: split_at sep "" s'
      else split_at sep (current +:+ String c "") s'
  end.

(** The values of [self.data]: a [str], or [True]. *)
Inductive value : Type :=
  | VStr (s : string)
  | VTrue.

(** A [dict] with [str] keys, in the order of insertion; an assignment
    to a key that is there keeps its place. *)
Definition dict : Type := list (string * value).

Fixpoint dict_set (key : string) (v : value) (d : dict) : dict :=
  match d with
  | [] => [(key, v)]
  | (k, w) :: d' =>
      if bool_decide (k = key) then (k, v) :: d' else (k, w) :: dict_set key v d'
  end.

Fixpoint dict_get (key : string) (d : dict) : option value :=
  match d with
  | [] => None
  | (k, w) :: d' => if bool_decide (k = key) then Some w else dict_get key d'
  end.

(** One pass of the loop of [__init__]: the unpacking of a split that
    does not give two values raises [ValueError]. *)
Definition on_token (data : dict) (kv attr : string) : result dict :=
  if negb (bool_decide (kv = "")) then
    match split_at "=" "" kv with
    | [key; v] => Ok (dict_set key (VStr v) data)
    | _ => Raise ValueError
    end
  else if negb (bool_decide (attr = "")) then
    match attr with
    | String "#" name => Ok (dict_set "id" (VStr name) data)
    | _ => Ok (dict_set attr VTrue data)
    end
  else Ok data.

Fixpoint on_tokens (data : dict) (tokens : list (string * string)) : result dict :=
  match tokens with
  | [] => Ok data
  | (kv, attr) :: rest =>
      match on_token data kv attr with
      | Ok data' => on_tokens data' rest
      | Raise e => Raise e
      end
  end.

(** [MarkdownExtra.__init__]: the [data] it leaves. *)
Definition MarkdownExtra (extra : string) : result dict :=
  if bool_decide (extra = "") then Ok []
  else on_tokens [] (findall EXTRA_PATTERN kv_attr extra).

(** Truth of a value that [dict.get] returns, [None] and [False] for a
    key that is not there. *)
Definition truthy (v : option value) : bool :=
  match v with
  | Some (VStr s) => negb (bool_decide (s = ""))
  | Some VTrue => true
  | None => false
  end.

Definition get_id (data : dict) : option value := dict_get "id" data.

Definition get_target_file (data : dict) : option value := dict_get "file" data.

(** The truth of what [ignore()] and [has_noweb()] return. *)
Definition ignore (data : dict) : bool :=
  truthy (dict_get "ignore-markdown" data) || truthy (dict_get "ignore" data).

Definition has_noweb (data : dict) : bool := truthy (dict_get "noweb" data).

(** The info strings that the class is written for: attributes,
    [key=value] pairs and pairs with a quoted value, with one space
    between two of them. *)
Inductive token : Type :=
  | Attr (name : string)
  | Pair (key v : string)
  | Quoted (key v : string).

Definition token_text (t : token) : string :=
  match t with
  | Attr name => name
  | Pair key v => key +:+ "=" +:+ v
  | Quoted key v => key +:+ "=" +:+ String quote v +:+ String quote ""
  end.

(** A word: not empty, without white space and without [=]. *)
Definition word (s : string) : bool :=
  negb (bool_decide (s = "")) && all_chars non_space s && negb (has_char "=" s).

(** A value that is written without quotes. *)
Definition plain_value (v : string) : bool :=
  word v && negb (bool_decide (take_chars 1 v = String quote "")).

Definition well_formed (t : token) : bool :=
  match t with
  | Attr name => word name
  | Pair key v => word key && plain_value v
  | Quoted key v =>
      word key && all_chars is_dot v && negb (has_char quote v) && negb (has_char "=" v)
  end.

Fixpoint info_string (tokens : list token) : string :=
  match tokens with
  | [] => ""
  | [t] => token_text t
  | t :: rest => token_text t +:+ " " +:+ info_string rest
  end.

(** What a token leaves in the dictionary. *)
Definition token_key (t : token) : string :=
  match t with
  | Attr (String "#" _) => "id"
  | Attr name => name
  | Pair key _ | Quoted key _ => key
  end.

Definition token_value (t : token) : value :=
  match t with
  | Attr (String "#" name) => VStr name
  | Attr _ => VTrue
  | Pair _ v => VStr v
  | Quoted _ v => VStr (String quote v +:+ String quote "")
  end.

Definition set_token (data : dict) (t : token) : dict :=
  dict_set (token_key t) (token_value t) data.

(** The alternative after [=]: a quoted text, or a run without white
    space. *)
Definition VALUE : regex :=
  Or (Then (Char (is_char quote)) (Then (Few is_dot) (Char (is_char quote))))
     (Many non_space).

(** The tuple that [findall] gives for a token. *)
Definition pair_of (t : token) : string * string :=
  match t with
  | Attr name => ("", name)
  | _ => (token_text t, "")
  end.

(** The text after the first token of an info string. *)
Definition tail_text (tokens : list token) : string :=
  match tokens with
  | [] => ""
  | _ :: _ => " " +:+ info_string tokens
  end.

Definition asks_to_ignore (t : token) : bool :=
  bool_decide (token_key t = "ignore-markdown") || bool_decide (token_key t = "ignore").

End Extra.

(** * Theorems *)

(** C10. For every suffix the dispatch picks a parser, never [None]:
    Markdown for [.md], the binary parser for a suffix of its format list,
    the generated-form parser for every other suffix. *)
Theorem dispatch_total (suffix : string) :
  Dispatch.DocumentParser_init suffix =
    Some (if bool_decide (suffix = ".md") then Dispatch.MarkdownDocumentParser
          else if bool_decide (suffix ∈ Dispatch.FORMATS)
               then Dispatch.BinaryDocumentParser
               else Dispatch.EntangledDocumentParser).
Proof.
  unfold Dispatch.DocumentParser_init, Dispatch.PARSERS; simpl.
  destruct (bool_decide (suffix = ".md")); simpl; [done|].
  by destruct (bool_decide (suffix ∈ Dispatch.FORMATS)).
Qed.

Lemma while_not_anchor_falls_through exists_ rev_dir :
  (∀ k, exists_ (rev (drop k rev_dir) ++ [Workspace.workspace_folder]) = false) →
  Workspace.while_not_anchor exists_ rev_dir = Workspace.Fell_through [].
Proof.
  induction rev_dir as [|c up IH]; intros Hno; [done|].
  cbn [Workspace.while_not_anchor].
  pose proof (Hno 0%nat) as H0. rewrite drop_0 in H0. rewrite H0.
  apply IH. intros k. apply (Hno (S k)).
Qed.

(** With no marker directory in the current directory nor in any of its
    ancestors, [find_workspace] returns the anchor. *)
Lemma find_workspace_without_marker exists_ cwd :
  (∀ d, d ∈ Workspace.ancestors_or_self cwd →
        exists_ (d ++ [Workspace.workspace_folder]) = false) →
  Workspace.find_workspace exists_ cwd = Ok [].
Proof.
  intros Hno.
  assert (∀ n, exists_ (take n cwd ++ [Workspace.workspace_folder]) = false) as Htake.
  { intros n. destruct (decide (n <= length cwd)%nat) as [Hle|Hgt].
    - apply Hno. unfold Workspace.ancestors_or_self.
      apply list_elem_of_fmap. exists n. split; [done|].
      apply elem_of_seq. lia.
    - rewrite take_ge by lia. rewrite <- (take_ge cwd (length cwd)) by lia.
      apply Hno. unfold Workspace.ancestors_or_self.
      apply list_elem_of_fmap. exists (length cwd). split; [done|].
      apply elem_of_seq. lia. }
  unfold Workspace.find_workspace.
  rewrite <- (take_ge cwd (length cwd)) at 1 by lia. rewrite Htake. simpl.
  rewrite while_not_anchor_falls_through; [done|].
  intros k. rewrite skipn_rev, rev_involutive. apply Htake.
Qed.

(** C8. [find_workspace] never raises [NoEntangledWorkspaceError]; on an
    empty file system, started in [/home/user], it returns the anchor. *)
Theorem find_workspace_never_raises :
  (∀ exists_ cwd, Workspace.find_workspace exists_ cwd
                  ≠ Raise NoEntangledWorkspaceError)
  ∧ Workspace.find_workspace (λ _, false) ["home"; "user"] = Ok [].
Proof.
  split; [|reflexivity].
  intros exists_ cwd. unfold Workspace.find_workspace.
  destruct (negb _); [|done].
  destruct (Workspace.while_not_anchor _ _); [done|]. simpl. done.
Qed.

(** ** The record stores *)

Lemma string_length_app (s t : string) :
  String.length (s +:+ t) = String.length s + String.length t.
Proof. induction s as [|c s IH]; simpl; [done|]. by rewrite IH. Qed.

Lemma hex_digits_length width n : String.length (Storages.hex_digits width n) = width.
Proof.
  revert n. induction width as [|w IH]; intros n; simpl; [done|].
  rewrite string_length_app, IH. simpl. lia.
Qed.

Lemma hexdigest_length h : String.length (Storages.hexdigest h) = 16.
Proof. apply hex_digits_length. Qed.

(** A readable file is appended by [add_file] whatever the index holds. *)
Lemma add_file_appends xxh64 is_readable just_read files file :
  is_readable file = true →
  ∃ log, Storages.add_file xxh64 is_readable just_read files file
         = Ok (files ++ [Storages.mkFile file (Storages.get_file_hash xxh64 (just_read file))], log).
Proof.
  intros Hr. unfold Storages.add_file. rewrite Hr; simpl. eauto.
Qed.

(** No record's name equals a message, so the lookup by message fails. *)
Lemma indexof_entanglement_message entanglements e :
  Storages.indexof_entanglement entanglements (Storages.KeyMessage e) = (-1)%Z.
Proof.
  unfold Storages.indexof_entanglement.
  destruct (list_find _ entanglements) as [[i x]|] eqn:Hfind; [|done].
  apply list_find_Some in Hfind as (_ & Hx & _). done.
Qed.

Lemma add_entanglement_appends entanglements e :
  Storages.add_entanglement entanglements e = (entanglements ++ [e], []).
Proof.
  unfold Storages.add_entanglement. by rewrite indexof_entanglement_message.
Qed.

(** C5. Adding a path that the file index already holds logs a warning and
    appends a second record for it; adding an entanglement whose name the
    index already holds appends it again, without a log record. *)
Theorem add_on_present_key_appends (xxh64 : string → N) :
  let pb_file := Storages.mkFile "a.md" (Storages.get_file_hash xxh64 "text") in
  let e := Storages.mkEntanglement
             (Storages.mkCodeBlock "0123456789abcdef" "pass" "python")
             (Storages.mkDefinition "greet" "a.md" "" "" "") [] in
  Storages.add_file xxh64 (λ _, true) (λ _, "text") [pb_file] "a.md"
    = Ok ([pb_file; pb_file], [LogWarning "a.md already exists in the index."])
  ∧ Storages.add_entanglement [e] e = ([e; e], []).
Proof. split; reflexivity. Qed.

(** [update_file] on a path that the index does not hold raises and has
    nothing to write back. *)
Lemma update_file_absent just_read files file :
  Storages.indexof_file files file = None →
  Storages.update_file just_read files file = Raise FileIndexException.
Proof. intros H. unfold Storages.update_file. by rewrite H. Qed.

(** [update_file] on a path that the index holds writes the text of the
    file into [fast_hash]. *)
Lemma update_file_present just_read files file index :
  Storages.indexof_file files file = Some index →
  Storages.update_file just_read files file
  = Ok (alter (Storages.set_fast_hash (just_read file)) index files).
Proof. intros H. unfold Storages.update_file. by rewrite H. Qed.

(** C6. For a file recorded by [add_file] whose text is now [hello],
    [update_file] stores the text [hello] as [fast_hash], which is not the
    digest that [get_file_hash] gives, whatever the hash function. *)
Theorem update_file_stores_text (xxh64 : string → N) :
  let files := [Storages.mkFile "a.md" (Storages.get_file_hash xxh64 "old")] in
  Storages.update_file (λ _, "hello") files "a.md"
    = Ok [Storages.mkFile "a.md" "hello"]
  ∧ "hello" ≠ Storages.get_file_hash xxh64 "hello".
Proof.
  split; [reflexivity|].
  intros Heq. apply (f_equal String.length) in Heq.
  unfold Storages.get_file_hash in Heq. rewrite hexdigest_length in Heq.
  discriminate.
Qed.

(** ** The file classifier *)



Section get_status_facts.
Import Pathlib Storages Status.
Context (xxh64 : string → N) (read_bytes : Path → string).
Context (relative_root target : Path) (target_is_file : bool).


















End get_status_facts.



(** ** The block classifier *)

(** When the first loop binds [indexed_entanglement], the second loop
    raises nothing of its own. *)
Lemma deleted_blocks_loop_bound raw_entanglements indexed names :
  ended_by
    (Status.deleted_blocks_loop raw_entanglements (Some indexed) names)
  ≠ Some UnboundLocalError.
Proof.
  induction names as [|n names IH]; simpl; [done|].
  unfold Storages.get_entanglement.
  repeat case_match; simplify_eq/=; done.
Qed.

(** C7. The index holds block [greet] of [doc.md]; the file now has no
    block. [get_block_status] reports nothing and ends with
    [UnboundLocalError] where [greet] was to be reported [Deleted]. With
    another block [intro] still in the file, [greet] is reported. *)
Theorem get_block_status_deleted_only :
  let greet := Storages.mkEntanglement
                 (Storages.mkCodeBlock "0123456789abcdef" "pass" "python")
                 (Storages.mkDefinition "greet" "doc.md" "" "" "") [] in
  let intro := Storages.mkEntanglement
                 (Storages.mkCodeBlock "fedcba9876543210" "import os" "python")
                 (Storages.mkDefinition "intro" "doc.md" "" "" "") [] in
  Status.get_block_status [greet] [] "doc.md"
    = mkGenerated [] (Some UnboundLocalError)
  ∧ Status.get_block_status [greet; intro]
      [Status.mkParsed 0 intro Status.Markdown] "doc.md"
    = mkGenerated
        [Status.mkDiffedBlock intro Status.Unchanged;
         Status.mkDiffedBlock greet Status.Deleted] None.
Proof. split; vm_compute; reflexivity. Qed.

(** ** The renderer and the resolver *)

Section tree_facts.
Import Text Storages Entities Resolver.

(** With the classes imported, the resolver hands every child on, or the
    children of a raw block, and neither raises nor changes [seen]. *)
Lemma resolve_passes_through entanglements children seen :
  resolve_non_entangled_document Completed entanglements children seen
  = mkRendering (children ≫= passed_through) seen None.
Proof.
  induction children as [|child rest IH]; [done|].
  simpl. unfold passed_through at 1.
  destruct child; simpl; rewrite IH; done.
Qed.

End tree_facts.

(** C3. Block [A] of [doc.md] holds the line [<<A>>], a cycle. Resolving
    what the scanner makes of it ends in [NameError] with nothing
    yielded, as resolving any list with a child does, whatever the index
    and [seen] hold: no name is visited and no cycle marker is emitted.
    The renderer, which has the cycle lines, is not reached either:
    [entangled] raises [NameError], called with an argument [TypeError],
    and [format_child] at a block raises [NameError] before it yields. *)
Theorem cycle_marker_is_never_emitted :
  let A := Storages.mkEntanglement
             (Storages.mkCodeBlock "0123456789abcdef" "<<A>>" "python")
             (Storages.mkDefinition "A" "doc.md" "" "" "") [] in
  let prose := Prose.document_children (Prose.run "<<A>>") in
  prose = [Entities.NonEntangledCodeBlock None "A" 0 []]
  ∧ Resolver.resolve_non_entangled_document Shipped [A] prose ∅
    = Entities.mkRendering [] ∅ (Some NameError)
  ∧ (∀ entanglements child rest seen,
       Resolver.resolve_non_entangled_document Shipped entanglements
         (child :: rest) seen
       = Entities.mkRendering [] seen (Some NameError))
  ∧ (∀ self, Entities.entangled [] self = Raise NameError)
  ∧ (∀ argument arguments self,
       Entities.entangled (argument :: arguments) self = Raise TypeError)
  ∧ (∀ version comment_chars source ref_name indent children seen,
       Entities.format_child Shipped version comment_chars
         (Entities.EntangledCodeBlock source ref_name indent children) seen
       = Entities.mkRendering [] seen (Some NameError)).
Proof. split_and!; [vm_compute; reflexivity|reflexivity..]. Qed.

(** C4. Block [A] holds the lines [x = 1], [<<B>>] and [y = 2], and the
    index has no entry named [B]. Resolving what the scanner makes of
    [A] ends in [NameError] at the first child: neither line is handed
    on and the reference leaves no node. The same holds of every list
    with a reference in it, whatever stands before and after. And the
    lookup that the resolver would make, [get_entanglement] with the
    name, raises [TypeError] whatever the index holds: it never returns
    the [-1] that the resolver tests for. *)
Theorem missing_reference_ends_resolution :
  let A := Storages.mkEntanglement
             (Storages.mkCodeBlock "0123456789abcdef" "x = 1" "python")
             (Storages.mkDefinition "A" "doc.md" "" "" "") [] in
  let text := "x = 1" +:+ String Text.newline "<<B>>" +:+ String Text.newline "y = 2" in
  let prose := Prose.document_children (Prose.run text) in
  Storages.indexof_entanglement [A] (Storages.KeyName "B") = (-1)%Z
  ∧ prose = [Entities.RawCodeBlock
               [Entities.Str "x = 1";
                Entities.NonEntangledCodeBlock None "B" 0 [];
                Entities.Str "y = 2"]]
  ∧ Resolver.resolve_non_entangled_document Shipped [A] prose ∅
    = Entities.mkRendering [] ∅ (Some NameError)
  ∧ (∀ entanglements source ref_name indent grandchildren before after seen,
       Resolver.resolve_non_entangled_document Shipped entanglements
         (before ++ Entities.NonEntangledCodeBlock source ref_name indent grandchildren
            :: after) seen
       = Entities.mkRendering [] seen (Some NameError))
  ∧ (∀ entanglements ref_name,
       Storages.get_entanglement entanglements (Storages.StrIndex ref_name)
       = Raise TypeError).
Proof.
  split_and!; [reflexivity|vm_compute; reflexivity|reflexivity| |reflexivity].
  intros. by destruct before.
Qed.

(** ** The reference pattern *)

Section pattern_facts.
Import Text.

Lemma string_app_cons (x : ascii) (a b : string) :
  String x a +:+ b = String x (a +:+ b).
Proof. reflexivity. Qed.

Lemma string_app_nil (b : string) : "" +:+ b = b.
Proof. reflexivity. Qed.

Lemma string_app_assoc (a b c : string) : (a +:+ b) +:+ c = a +:+ (b +:+ c).
Proof.
  induction a as [|x a IH]; [reflexivity|].
  rewrite !string_app_cons. by f_equal.
Qed.

Lemma string_app_empty_r (a : string) : a +:+ "" = a.
Proof.
  induction a as [|x a IH]; [reflexivity|]. rewrite string_app_cons. by f_equal.
Qed.

Lemma take_drop_while class s : take_while class s +:+ drop_while class s = s.
Proof.
  induction s as [|c s IH]; simpl; [done|].
  destruct (class c); [|done].
  rewrite string_app_cons. by f_equal.
Qed.

Lemma take_while_all class s : all_chars class (take_while class s) = true.
Proof.
  induction s as [|c s IH]; simpl; [done|].
  destruct (class c) eqn:Hc; simpl; [by rewrite Hc|done].
Qed.

Lemma drop_while_starts_outside class s : starts_outside class (drop_while class s).
Proof.
  induction s as [|c s IH]; simpl; [done|].
  destruct (class c) eqn:Hc; simpl; done.
Qed.

Lemma take_while_app class a b :
  all_chars class a = true → starts_outside class b →
  take_while class (a +:+ b) = a.
Proof.
  intros Ha Hb. induction a as [|c a IH].
  - rewrite string_app_nil. destruct b as [|c b]; simpl in *; [done|].
    by rewrite Hb.
  - rewrite string_app_cons. simpl in *.
    apply andb_prop in Ha as [Hc Ha]. rewrite Hc. by rewrite IH.
Qed.

Lemma drop_while_app class a b :
  all_chars class a = true → starts_outside class b →
  drop_while class (a +:+ b) = b.
Proof.
  intros Ha Hb. induction a as [|c a IH].
  - rewrite string_app_nil. destruct b as [|c b]; simpl in *; [done|].
    by rewrite Hb.
  - rewrite string_app_cons. simpl in *.
    apply andb_prop in Ha as [Hc Ha]. rewrite Hc. by apply IH.
Qed.

Lemma take_chars_take_while class s :
  take_chars (String.length s - String.length (drop_while class s)) s
  = take_while class s.
Proof.
  induction s as [|c s IH]; simpl; [done|].
  destruct (class c) eqn:Hc; simpl.
  - assert (String.length (drop_while class s) <= String.length s)%nat as Hle.
    { clear. induction s as [|c s IH]; simpl; [done|].
      destruct (class c); simpl; lia. }
    replace (S (String.length s) - String.length (drop_while class s))
      with (S (String.length s - String.length (drop_while class s))) by lia.
    simpl. by rewrite IH.
  - by rewrite Nat.sub_diag.
Qed.

Lemma strip_prefix_Some prefix s rest :
  strip_prefix prefix s = Some rest ↔ s = prefix +:+ rest.
Proof.
  revert s. induction prefix as [|a prefix IH]; intros s.
  - rewrite string_app_nil. simpl. split; congruence.
  - rewrite string_app_cons. simpl.
    destruct s as [|b s]; [split; congruence|].
    case_bool_decide as Hab.
    + subst b. rewrite IH. split; congruence.
    + split; [done|]. intros [= ? ?]. done.
Qed.

(** A repetition followed by something that cannot begin inside the class
    takes the longest prefix and never gives any of it back. *)
Lemma match_star class rest :
  (∀ c s gs, class c = true → match_here rest (String c s) gs = None) →
  ∀ s gs, match_here (Star class :: rest) s gs
          = match_here rest (drop_while class s) gs.
Proof.
  intros Hrest s gs. induction s as [|c s IH]; [done|].
  simpl in *. destruct (class c) eqn:Hc; [|done].
  rewrite IH. destruct (match_here rest (drop_while class s) gs); [done|].
  by apply Hrest.
Qed.

Lemma match_plus class rest :
  (∀ c s gs, class c = true → match_here rest (String c s) gs = None) →
  ∀ s gs, match_here (Plus class :: rest) s gs
          = if bool_decide (take_while class s = "") then None
            else match_here rest (drop_while class s) gs.
Proof.
  intros Hrest s gs. destruct s as [|c s]; [done|].
  simpl. destruct (class c) eqn:Hc; [|done].
  rewrite bool_decide_false by done.
  pose proof (match_star class rest Hrest s gs) as Hstar. simpl in Hstar.
  exact Hstar.
Qed.

Lemma match_here_open g p s gs :
  match_here (Open g :: p) s gs = match_here p s (open_group g s gs).
Proof. reflexivity. Qed.

Lemma match_here_close g p s gs :
  match_here (Close g :: p) s gs = match_here p s (close_group g s gs).
Proof. reflexivity. Qed.

Lemma match_here_lit text p s gs :
  match_here (Lit text :: p) s gs
  = match strip_prefix text s with
    | Some s' => match_here p s' gs
    | None => None
    end.
Proof. reflexivity. Qed.

Lemma match_here_eol s gs :
  match_here [Eol] s gs
  = if bool_decide (s = "") || bool_decide (s = String newline "")
    then Some gs else None.
Proof. reflexivity. Qed.

Lemma is_blank_not_angle c :
  Prose.is_blank c && (is_char "<" c || is_char newline c) = false.
Proof. destruct c as [[] [] [] [] [] [] [] []]; reflexivity. Qed.

Lemma is_name_char_not_angle c : Prose.is_name_char c && is_char ">" c = false.
Proof. destruct c as [[] [] [] [] [] [] [] []]; reflexivity. Qed.

(** The pattern matches exactly the lines that the left-to-right reading
    accepts, with the same two groups. *)
Lemma re_match_scan_reference line :
  (λ m, (group m "indent", group m "ref_name")) <$> re_match Prose.NOWEB_REFERENCE line
  = Prose.scan_reference line.
Proof.
  unfold re_match, Prose.NOWEB_REFERENCE, Prose.scan_reference.
  rewrite match_here_open, match_star; cycle 1.
  { intros c s gs Hc. rewrite match_here_close, match_here_lit. simpl.
    pose proof (is_blank_not_angle c) as H. rewrite Hc in H. simpl in H.
    apply orb_false_elim in H as [H _]. unfold is_char in H.
    rewrite bool_decide_eq_false in H.
    rewrite bool_decide_false; [done|congruence]. }
  rewrite match_here_close, match_here_lit.
  destruct (strip_prefix "<<" (drop_while Prose.is_blank line)) as [rest|]; [|done].
  rewrite match_here_open, match_plus; cycle 1.
  { intros c s gs Hc. rewrite match_here_close, match_here_lit. simpl.
    pose proof (is_name_char_not_angle c) as H. rewrite Hc in H. simpl in H.
    unfold is_char in H. rewrite bool_decide_eq_false in H.
    rewrite bool_decide_false; [done|congruence]. }
  case_bool_decide as Hname; [done|].
  rewrite match_here_close, match_here_lit.
  destruct (strip_prefix ">>" (drop_while Prose.is_name_char rest)) as [rest'|];
    [|done].
  rewrite match_star; cycle 1.
  { intros c s gs Hc. rewrite match_here_eol.
    pose proof (is_blank_not_angle c) as H. rewrite Hc in H. simpl in H.
    apply orb_false_elim in H as [_ H]. unfold is_char in H.
    rewrite bool_decide_eq_false in H.
    rewrite !bool_decide_false; [done| |done]. congruence. }
  rewrite match_here_eol.
  destruct (_ || _); [|done]. simpl.
  unfold group, close_group, open_group. simpl.
  rewrite !take_chars_take_while. done.
Qed.

End pattern_facts.

(** ** The prose scanner *)

Section prose_facts.
Import Text Storages Entities Prose.

(** The left-to-right reading accepts exactly the lines of the grammar. *)
Lemma scan_reference_grammar line indent ref_name :
  scan_reference line = Some (indent, ref_name)
  ↔ reference_line indent ref_name line.
Proof.
  unfold scan_reference, reference_line. split.
  - destruct (strip_prefix "<<" _) as [rest|] eqn:H1; [|done].
    case_bool_decide as Hname; [done|].
    destruct (strip_prefix ">>" _) as [rest'|] eqn:H2; [|done].
    destruct (_ || _) eqn:Hfinal; [|done]. intros [= <- <-].
    apply strip_prefix_Some in H1, H2.
    exists (take_while is_blank rest'), (drop_while is_blank rest').
    split_and!.
    + rewrite take_drop_while, <- H2, take_drop_while, <- H1.
      by rewrite take_drop_while.
    + apply take_while_all.
    + apply take_while_all.
    + done.
    + apply take_while_all.
    + apply orb_prop in Hfinal as [H|H]; apply bool_decide_eq_true in H; auto.
  - intros (trailing & final & -> & Hi & Hn & Hne & Ht & Hf).
    assert (starts_outside is_blank final) as Hfo by (by destruct Hf as [->| ->]).
    rewrite drop_while_app by done.
    rewrite (proj2 (strip_prefix_Some "<<" _ _) eq_refl).
    rewrite take_while_app, drop_while_app by done.
    rewrite bool_decide_false by done.
    rewrite (proj2 (strip_prefix_Some ">>" _ _) eq_refl).
    rewrite drop_while_app by done.
    rewrite take_while_app by done.
    destruct Hf as [->| ->]; done.
Qed.

Lemma unresolved_document children source_file :
  unresolved (EntangledDocument children source_file) = children ≫= unresolved.
Proof.
  induction children as [|c l IH]; [done|].
  simpl in *. by rewrite IH.
Qed.

Lemma unresolved_raw children :
  unresolved (RawCodeBlock children) = children ≫= unresolved.
Proof.
  induction children as [|c l IH]; [done|].
  simpl in *. by rewrite IH.
Qed.

(** The scanner's cursor is at a raw block only when the document ends
    with one. *)
Definition cursor_ok (self : NowebBloodhound) : Prop :=
  current_parent self = AtRawCodeBlock →
  ∃ init lines, document_children self = init ++ [RawCodeBlock lines].

Lemma append_to_last_raw x init lines :
  append_to_last x (init ++ [RawCodeBlock lines])
  = init ++ [RawCodeBlock (lines ++ [x])].
Proof.
  induction init as [|c init IH]; [reflexivity|].
  destruct init as [|d init]; [by destruct c|].
  change ((c :: d :: init) ++ [RawCodeBlock (lines ++ [x])])
    with (c :: ((d :: init) ++ [RawCodeBlock (lines ++ [x])])).
  rewrite <- IH. by destruct c.
Qed.

Lemma bind_one {A B} (f : A → list B) (y : A) : [y] ≫= f = f y.
Proof. simpl. apply app_nil_r. Qed.

Lemma unresolved_append_to_current self x :
  cursor_ok self →
  unresolved (EntangledDocument (append_to_current x self) None)
  = unresolved (document self) ++ unresolved x.
Proof.
  intros Hok. unfold append_to_current, document.
  rewrite !unresolved_document.
  destruct (current_parent self) eqn:Hcur.
  - by rewrite bind_app, bind_one.
  - destruct (Hok Hcur) as (init & lines & ->).
    rewrite append_to_last_raw, !bind_app, !bind_one.
    rewrite !unresolved_raw, bind_app, bind_one.
    by rewrite app_assoc.
Qed.

Lemma cursor_ok_step self line : cursor_ok self → cursor_ok (step self line).
Proof.
  intros Hok. unfold step.
  destruct (re_match NOWEB_REFERENCE line) as [m|].
  - unfold on_noweb_reference, on_line, cursor_ok, append_to_current. simpl.
    intros Hcur. rewrite Hcur.
    destruct (Hok Hcur) as (init & lines & ->).
    rewrite append_to_last_raw. eauto.
  - unfold get_line, on_line, cursor_ok, append_to_current. simpl.
    intros _. destruct (current_parent self) eqn:Hcur; simpl.
    + rewrite append_to_last_raw. eauto.
    + destruct (Hok Hcur) as (init & lines & ->).
      rewrite append_to_last_raw. eauto.
Qed.

Lemma cursor_ok_run lines : cursor_ok (run_lines lines).
Proof.
  unfold run_lines.
  assert (∀ self, cursor_ok self → cursor_ok (fold_left step lines self)) as H.
  { induction lines as [|l lines IH]; intros self Hok; simpl; [done|].
    by apply IH, cursor_ok_step. }
  apply H. intros Hcur. discriminate.
Qed.

Lemma unresolved_on_noweb_reference self m :
  cursor_ok self →
  unresolved (document (on_noweb_reference (on_line self) m))
  = unresolved (document self)
      ++ [(group m "ref_name", String.length (group m "indent"))].
Proof.
  intros Hok.
  change (document (on_noweb_reference (on_line self) m)) with
    (EntangledDocument
       (append_to_current
          (NonEntangledCodeBlock None (group m "ref_name")
             (String.length (group m "indent")) []) self) None).
  by rewrite unresolved_append_to_current.
Qed.

Lemma unresolved_get_line self line :
  cursor_ok self →
  unresolved (document (get_line (on_line self) line))
  = unresolved (document self).
Proof.
  intros Hok. destruct self as [refs n children [|]].
  - change (document (get_line (on_line (mkBloodhound refs n children AtDocument)) line))
      with (EntangledDocument
              (append_to_last (Str line) (children ++ [RawCodeBlock []])) None).
    unfold document. simpl document_children.
    rewrite append_to_last_raw, !unresolved_document.
    rewrite bind_app, bind_one, unresolved_raw.
    change ([] ++ [Str line]) with [Str line]. rewrite bind_one.
    apply app_nil_r.
  - change (document (get_line (on_line (mkBloodhound refs n children AtRawCodeBlock)) line))
      with (EntangledDocument
              (append_to_current (Str line)
                 (mkBloodhound refs n children AtRawCodeBlock)) None).
    rewrite unresolved_append_to_current by done. apply app_nil_r.
Qed.

(** The amended C9. After any lines of a block, the next line adds a
    reference to [noweb_references] and an unresolved node with the length
    of its indentation to the tree exactly when it is made of blanks (space,
    tab, carriage return, form feed), [<<], a non-empty name of word
    characters and hyphens, [>>] and blanks; any other line adds neither. *)
Theorem reference_line_recognised (before : list string) (line : string) :
  let self := run_lines before in
  let self' := step self line in
  (∀ indent ref_name,
     reference_line indent ref_name line →
     noweb_references self' = noweb_references self ++ [mkReference ref_name indent]
     ∧ unresolved (document self')
       = unresolved (document self) ++ [(ref_name, String.length indent)])
  ∧ ((∀ indent ref_name, ¬ reference_line indent ref_name line) →
     noweb_references self' = noweb_references self
     ∧ unresolved (document self') = unresolved (document self)).
Proof.
  intros self self'. subst self'. unfold step.
  pose proof (cursor_ok_run before) as Hok. fold self in Hok.
  pose proof (re_match_scan_reference line) as Hscan.
  destruct (re_match NOWEB_REFERENCE line) as [m|]; simpl in Hscan.
  - symmetry in Hscan. apply scan_reference_grammar in Hscan as Hline. split.
    + intros indent ref_name Hline'.
      apply scan_reference_grammar in Hline'. rewrite Hline' in Hscan.
      injection Hscan as -> ->.
      split; [done|]. by apply unresolved_on_noweb_reference.
    + intros Hno. by destruct (Hno _ _ Hline).
  - split.
    + intros indent ref_name Hline.
      apply scan_reference_grammar in Hline. congruence.
    + intros _. split.
      { unfold get_line, on_line. simpl. by destruct (current_parent self). }
      by apply unresolved_get_line.
Qed.

End prose_facts.

(** Against C9 as stated: the line [<<out.py>>] is white space, [<<name>>]
    and white space, for the name [out.py] of a block with that target
    file; the scanner takes it for text. *)
Lemma reference_to_file_name_not_recognised :
  Prose.reference_line_as_designed "<<out.py>>"
  ∧ Prose.noweb_references (Prose.run "<<out.py>>") = []
  ∧ Prose.document (Prose.run "<<out.py>>")
    = Entities.EntangledDocument
        [Entities.RawCodeBlock [Entities.Str "<<out.py>>"]] None.
Proof.
  split; [|split; reflexivity].
  exists "", "out.py", "". split_and!; done.
Qed.

(** ** The round trip *)

(** C1. The round trip returns no tree, whatever the document. As the
    repository is, it ends in [NameError] when there is a child to
    resolve and in [TypeError] when there is none; with the imports added
    it ends in [TypeError] for every document, and so does [format_child]
    at a document, whose call for the file markers passes two arguments
    to a function of one. With the imports added and the marker pair put
    around the rendering of the children: block [A] of [doc.md] with the
    single line [<<B>>], [B] defined in the index, comes back as one raw
    line and no block; and the resolved tree of [A] with the lines [x],
    block [B] with [y], [z] comes back with [z] moved out of [A] to the
    document. *)
Theorem roundtrip_loses_the_tree :
  let B := Storages.mkEntanglement
             (Storages.mkCodeBlock "0123456789abcdef" "y" "python")
             (Storages.mkDefinition "B" "doc.md" "" "" "") [] in
  let prose := Prose.document_children (Prose.run "<<B>>") in
  let block_B :=
    Entities.EntangledCodeBlock (Some "doc.md") "B" 0
      [Entities.RawCodeBlock [Entities.Str "y"]] in
  let block_A :=
    Entities.EntangledCodeBlock (Some "doc.md") "A" 0
      [Entities.RawCodeBlock [Entities.Str "x"]; block_B;
       Entities.RawCodeBlock [Entities.Str "z"]] in
  (∀ comment_chars entanglements children source_file,
     Roundtrip.roundtrip Completed comment_chars entanglements children source_file
     = Raise TypeError)
  ∧ (∀ comment_chars entanglements child rest source_file,
       Roundtrip.roundtrip Shipped comment_chars entanglements (child :: rest)
         source_file
       = Raise NameError)
  ∧ (∀ comment_chars entanglements source_file,
       Roundtrip.roundtrip Shipped comment_chars entanglements [] source_file
       = Raise TypeError)
  ∧ (∀ version comment_chars children source_file seen,
       Entities.format_child Completed version comment_chars
         (Entities.EntangledDocument children source_file) seen
       = Entities.mkRendering [] seen (Some TypeError))
  ∧ prose = [Entities.NonEntangledCodeBlock None "B" 0 []]
  ∧ Entities.block_names (Entities.EntangledDocument prose None) = ["B"]
  ∧ Roundtrip.roundtrip_between_markers "0.1.0" "" [B] prose (Some "doc.md")
    = Ok (Some (Entities.EntangledDocument
                  [Entities.RawCodeBlock
                     [Entities.Str "Error: Unresolved Entangled Block."]] None))
  ∧ Entities.block_names
      (Entities.EntangledDocument
         [Entities.RawCodeBlock
            [Entities.Str "Error: Unresolved Entangled Block."]] None) = []
  ∧ Roundtrip.roundtrip_between_markers "0.1.0" "" [B] [block_A] (Some "doc.md")
    = Ok (Some (Entities.EntangledDocument
                  [Entities.EntangledCodeBlock (Some "doc.md") "A" 0
                     [Entities.RawCodeBlock [Entities.Str "x"]; block_B];
                   Entities.RawCodeBlock [Entities.Str "z"]] None)).
Proof.
  split_and!.
  - intros. unfold Roundtrip.roundtrip.
    by rewrite resolve_passes_through.
  - reflexivity.
  - reflexivity.
  - reflexivity.
  - vm_compute. reflexivity.
  - reflexivity.
  - vm_compute. reflexivity.
  - reflexivity.
  - vm_compute. reflexivity.
Qed.

(** ** The block classifier, apart from the unbound name *)

Section block_status_facts.
Import Storages Status.

Lemma indexof_entanglement_absent es n :
  n ∉ names_of es → indexof_entanglement es (KeyName n) = (-1)%Z.
Proof.
  intros Hn. unfold indexof_entanglement.
  destruct (list_find _ es) as [[i e]|] eqn:Hfind; [|done].
  apply list_find_Some in Hfind as (Hl & He & _). simpl in He.
  apply bool_decide_eq_true in He. destruct Hn.
  apply list_elem_of_fmap. exists e. split; [done|].
  by eapply list_elem_of_lookup_2.
Qed.

Lemma indexof_entanglement_present es n :
  n ∈ names_of es →
  ∃ e, e ∈ es ∧ name (definition e) = n
       ∧ indexof_entanglement es (KeyName n) ≠ (-1)%Z
       ∧ get_entanglement es (IntIndex (indexof_entanglement es (KeyName n))) = Ok e.
Proof.
  intros Hn. unfold indexof_entanglement.
  destruct (list_find _ es) as [[i e]|] eqn:Hfind.
  - apply list_find_Some in Hfind as (Hl & He & _). simpl in He.
    apply bool_decide_eq_true in He. exists e. split_and!.
    + by eapply list_elem_of_lookup_2.
    + done.
    + lia.
    + unfold get_entanglement.
      destruct (Z.of_nat i <? 0)%Z eqn:Hneg; [apply Z.ltb_lt in Hneg; lia|].
      rewrite Hneg. by rewrite Nat2Z.id, Hl.
  - apply list_find_None in Hfind.
    apply list_elem_of_fmap in Hn as (e & -> & He).
    eapply Forall_forall in Hfind; [|exact He]. simpl in Hfind.
    by rewrite bool_decide_true in Hfind.
Qed.

Lemma parsed_names_cons b rest :
  parsed_names (b :: rest)
  = name (definition (entanglement b)) :: parsed_names rest.
Proof. reflexivity. Qed.

#[local] Arguments parsed_names : simpl never.

Lemma current_block_step_spec es st b :
  ∃ d st',
    current_block_step es st b = Ok (d, st')
    ∧ classified es b d
    ∧ non_processed_entanglements st'
      = (if bool_decide (name (definition (entanglement b)) ∈ names_of es)
         then non_processed_entanglements st
                ∖ {[ name (definition (entanglement b)) ]}
         else non_processed_entanglements st)
    ∧ (is_Some (indexed_entanglement st')
       ↔ is_Some (indexed_entanglement st)
         ∨ name (definition (entanglement b)) ∈ names_of es).
Proof.
  unfold current_block_step, classified.
  destruct (decide (name (definition (entanglement b)) ∈ names_of es)) as [Hin|Hout].
  - destruct (indexof_entanglement_present _ _ Hin) as (e & He & Hname & Hidx & Hget).
    rewrite (proj2 (Z.eqb_neq _ _) Hidx), Hget.
    rewrite (bool_decide_eq_true_2 _ Hin).
    destruct (bool_decide (hash (block (entanglement b)) = hash (block e))) eqn:Hh;
      eexists _, _; (split; [reflexivity|]); simpl; rewrite Hname;
      (split_and!; [right; exists e; by rewrite Hh | done | ]);
      (split; [intros _; by right | intros _; eauto]).
  - rewrite indexof_entanglement_absent by done. simpl.
    rewrite (bool_decide_eq_false_2 _ Hout).
    eexists _, _. split; [reflexivity|]. simpl.
    split_and!; [by left|done|tauto].
Qed.

Lemma current_blocks_loop_spec es parsed :
  ∀ st, ∃ out st',
    current_blocks_loop es st parsed = (mkGenerated out None, st')
    ∧ Forall2 (classified es) parsed out
    ∧ (∀ n, n ∈ non_processed_entanglements st'
            ↔ n ∈ non_processed_entanglements st
              ∧ ¬ (n ∈ parsed_names parsed ∧ n ∈ names_of es))
    ∧ (is_Some (indexed_entanglement st')
       ↔ is_Some (indexed_entanglement st)
         ∨ ∃ n, n ∈ parsed_names parsed ∧ n ∈ names_of es).
Proof.
  induction parsed as [|b rest IH]; intros st.
  - exists [], st. split_and!; [done|constructor| |].
    + intros n. unfold parsed_names. rewrite fmap_nil, elem_of_nil. tauto.
    + split; [auto|]. intros [H|(n & Hn & _)]; [done|]. by inversion Hn.
  - simpl. destruct (current_block_step_spec es st b) as (d & st1 & -> & Hd & Hnp & Hix).
    destruct (IH st1) as (out & st2 & -> & Hout & Hnp2 & Hix2). simpl.
    exists (d :: out), st2. split_and!; [done|by constructor| |].
    + intros n. rewrite Hnp2, Hnp, parsed_names_cons, elem_of_cons.
      case_bool_decide as Hb.
      * rewrite elem_of_difference, elem_of_singleton.
        split; [intros [[? ?] ?]; split; [done|]; intros [[->|?] ?]; tauto|].
        intros [? Hno]. split_and!; [done| |tauto].
        intros ->. tauto.
      * split; [intros [? ?]; split; [done|]; intros [[->|?] ?]; tauto|].
        intros [? Hno]. split; [done|]. tauto.
    + rewrite Hix2, Hix. setoid_rewrite parsed_names_cons.
      setoid_rewrite elem_of_cons. split.
      * intros [[?|?]|(n & ? & ?)]; [by left|right; eauto|right; eauto].
      * intros [?|(n & [->|?] & ?)]; [left; by left|left; by right|right; eauto].
Qed.

Lemma deleted_blocks_loop_spec es e0 names :
  (∀ n, n ∈ names → n ∈ names_of es) →
  ∃ out,
    deleted_blocks_loop es (Some e0) names = mkGenerated out None
    ∧ Forall2 (λ n d, status d = Deleted ∧ parsed_entanglement d ∈ es
                      ∧ name (definition (parsed_entanglement d)) = n) names out.
Proof.
  induction names as [|n names IH]; intros Hin; cbn [deleted_blocks_loop].
  - exists []. split; [done|constructor].
  - destruct IH as (out & -> & Hout); [intros; apply Hin; by right|].
    destruct (indexof_entanglement_present es n) as (e & He & Hname & Hidx & Hget);
      [apply Hin; by left|].
    rewrite (proj2 (Z.eqb_neq _ _) Hidx), Hget. simpl.
    eexists. split; [done|]. by constructor.
Qed.

(** X10. Where some parsed block is in the index, [get_block_status] raises
    nothing: it gives every parsed block the state of the design, and then
    reports [Deleted] exactly the indexed names of the file that the parse
    did not meet. *)
Lemma get_block_status_with_indexed_block es parsed file :
  (∃ n, n ∈ parsed_names parsed ∧ n ∈ names_of es) →
  ∃ current deleted,
    get_block_status es parsed file = mkGenerated (current ++ deleted) None
    ∧ Forall2 (classified es) parsed current
    ∧ Forall (λ d, status d = Deleted ∧ parsed_entanglement d ∈ es) deleted
    ∧ (∀ n, n ∈ (λ d, name (definition (parsed_entanglement d))) <$> deleted
            ↔ n ∈ names_of (get_file_blocks es file) ∧ n ∉ parsed_names parsed).
Proof.
  intros Hsome. unfold get_block_status.
  set (names := list_to_set _ : gset string).
  destruct (current_blocks_loop_spec es parsed (mkLoop names None))
    as (current & st & -> & Hcur & Hnp & Hix). simpl in *.
  assert (is_Some (indexed_entanglement st)) as [e0 He0] by (apply Hix; by right).
  rewrite He0.
  assert (∀ n, n ∈ names → n ∈ names_of es) as Hsub.
  { intros n Hn. unfold names in Hn. apply elem_of_list_to_set in Hn.
    apply list_elem_of_fmap in Hn as (e & -> & He).
    apply list_elem_of_filter in He as [_ He].
    apply list_elem_of_fmap. eauto. }
  destruct (deleted_blocks_loop_spec es e0 (elements (non_processed_entanglements st)))
    as (deleted & -> & Hdel).
  { intros n Hn. apply elem_of_elements, Hnp in Hn as [Hn _]. by apply Hsub. }
  simpl. exists current, deleted. split_and!; [done|done| |].
  - clear -Hdel. induction Hdel as [|n d ns ds (? & ? & ?) _ IH]; constructor; auto.
  - intros n.
    assert ((λ d, name (definition (parsed_entanglement d))) <$> deleted
            = elements (non_processed_entanglements st)) as ->.
    { clear -Hdel. induction Hdel as [|n d ns ds (? & ? & ?) _ IH]; [done|].
      rewrite fmap_cons. by f_equal. }
    rewrite elem_of_elements, Hnp.
    assert (n ∈ names ↔ n ∈ names_of (get_file_blocks es file)) as ->
      by (unfold names; apply elem_of_list_to_set).
    split; [intros [Hn Hno]; split; [done|]; intros Hp; apply Hno; split; [done|]|].
    + apply Hsub. unfold names. by apply elem_of_list_to_set.
    + intros [? ?]. split; [done|]. tauto.
Qed.

End block_status_facts.

(** * Further properties of the code *)

(** ** The record stores: lookup, removal, update *)

Section store_facts.
Import Storages Status Removal.
Context (xxh64 : string → N).
Context (is_readable : string → bool) (just_read : string → string).

Lemma indexof_file_Some files file i :
  indexof_file files file = Some i ↔
  ∃ f, files !! i = Some f ∧ filename f = file
       ∧ ∀ j g, files !! j = Some g → (j < i)%nat → filename g ≠ file.
Proof.
  unfold indexof_file. split.
  - intros H. destruct (list_find _ files) as [[k f]|] eqn:Hfind; simplify_eq/=.
    apply list_find_Some in Hfind as (Hl & Hf & Hbefore). eauto.
  - intros (f & Hl & Hf & Hbefore).
    assert (list_find (λ pb_file, filename pb_file = file) files = Some (i, f)) as ->; [|done].
    apply list_find_Some. eauto.
Qed.

Lemma indexof_file_None files file :
  indexof_file files file = None ↔ file ∉ filename <$> files.
Proof.
  unfold indexof_file. split.
  - intros H Hin. destruct (list_find _ files) as [[k f]|] eqn:Hfind; simplify_eq/=.
    apply list_find_None in Hfind.
    apply list_elem_of_fmap in Hin as (g & -> & Hg).
    by eapply Forall_forall in Hfind.
  - intros Hno. destruct (list_find _ files) as [[k f]|] eqn:Hfind; [|done].
    apply list_find_Some in Hfind as (Hl & Hf & _). destruct Hno.
    apply list_elem_of_fmap. exists f. split; [done|].
    by eapply list_elem_of_lookup_2.
Qed.

Lemma pop_at {A} (l : list A) (i : nat) x :
  l !! i = Some x → pop l (Z.of_nat i) = Ok (x, delete i l).
Proof.
  intros Hl. unfold pop.
  destruct (Z.of_nat i <? 0)%Z eqn:Hneg; [apply Z.ltb_lt in Hneg; lia|].
  rewrite Hneg. by rewrite Nat2Z.id, Hl.
Qed.

Lemma pop_last {A} (l : list A) x : pop (l ++ [x]) (-1) = Ok (x, l).
Proof.
  unfold pop. rewrite length_app. simpl length.
  change (-1 <? 0)%Z with true. cbv iota.
  replace (-1 + Z.of_nat (length l + 1))%Z with (Z.of_nat (length l)) by lia.
  destruct (Z.of_nat (length l) <? 0)%Z eqn:Hneg; [apply Z.ltb_lt in Hneg; lia|].
  rewrite Nat2Z.id.
  rewrite list_lookup_middle by done.
  by rewrite delete_middle, app_nil_r.
Qed.

Lemma indexof_file_middle before f after :
  filename f ∉ filename <$> before →
  indexof_file (before ++ f :: after) (filename f) = Some (length before).
Proof.
  intros Hno. apply indexof_file_Some. exists f. split_and!.
  - by apply list_lookup_middle.
  - done.
  - intros j g Hj Hlt Hg. apply Hno.
    rewrite lookup_app_l in Hj by done.
    apply list_elem_of_fmap. exists g. split; [done|].
    by eapply list_elem_of_lookup_2.
Qed.

(** X1. A readable path that the file index does not hold yet: [add_file]
    appends one record with the digest of the file's text and logs
    nothing, [indexof_file] then answers the position of that record, and
    [remove_file] takes the record out again and leaves the index as it
    was. *)
Theorem add_lookup_remove_file files file :
  is_readable file = true →
  file ∉ filename <$> files →
  let pb_file := mkFile file (get_file_hash xxh64 (just_read file)) in
  add_file xxh64 is_readable just_read files file = Ok (files ++ [pb_file], [])
  ∧ indexof_file (files ++ [pb_file]) file = Some (length files)
  ∧ remove_file (files ++ [pb_file]) file = Ok (pb_file, files).
Proof.
  intros Hr Hno pb_file.
  assert (indexof_file (files ++ [pb_file]) file = Some (length files)) as Hidx
    by (by apply (indexof_file_middle files pb_file [])).
  split_and!; [|done|].
  - unfold add_file. rewrite Hr. simpl.
    by rewrite (proj2 (indexof_file_None files file) Hno).
  - unfold remove_file. rewrite Hidx.
    rewrite (pop_at _ _ pb_file) by (by apply list_lookup_middle).
    by rewrite delete_middle, app_nil_r.
Qed.

(** X2. [remove_file] raises [FileIndexException] when no record has the
    path; otherwise it takes out the first record of the path and leaves
    every other record in place, later records of the same path
    included. *)
Theorem remove_file_takes_first_record files file :
  (file ∉ filename <$> files → remove_file files file = Raise FileIndexException)
  ∧ (∀ before f after,
       files = before ++ f :: after → filename f = file →
       file ∉ filename <$> before →
       remove_file files file = Ok (f, before ++ after)).
Proof.
  split.
  - intros Hno. unfold remove_file.
    by rewrite (proj2 (indexof_file_None files file) Hno).
  - intros before f after -> <- Hno. unfold remove_file.
    rewrite indexof_file_middle by done.
    rewrite (pop_at _ _ f) by (by apply list_lookup_middle).
    by rewrite delete_middle.
Qed.

(** X3. Where [update_file] returns, the index tracks the same paths in
    the same order as before; the first record of the path now holds the
    text of the file, and every other record, a later record of the same
    path included, is untouched. *)
Theorem update_file_touches_one_record files file files' :
  update_file just_read files file = Ok files' →
  filename <$> files' = filename <$> files
  ∧ ∃ i, indexof_file files file = Some i
         ∧ files' !! i = Some (mkFile file (just_read file))
         ∧ ∀ j, j ≠ i → files' !! j = files !! j.
Proof.
  unfold update_file. intros H.
  destruct (indexof_file files file) as [i|] eqn:Hidx; [|done].
  injection H as <-.
  pose proof Hidx as Hidx'.
  apply indexof_file_Some in Hidx as (f & Hl & Hf & _).
  split.
  - apply list_eq. intros j. rewrite !list_lookup_fmap, list_lookup_alter.
    destruct (decide (i = j)) as [->|]; [|done].
    rewrite Hl. done.
  - exists i. split_and!.
    + done.
    + rewrite list_lookup_alter_eq, Hl. simpl.
      unfold set_fast_hash. by rewrite Hf.
    + intros j Hj. by rewrite list_lookup_alter_ne.
Qed.
End store_facts.

Lemma add_lookup_remove_file_witness :
  let files := [Storages.mkFile "a.md" "0123456789abcdef"] in
  let pb_file := Storages.mkFile "b.md" (Storages.get_file_hash (λ _, 7%N) "text") in
  Storages.add_file (λ _, 7%N) (λ _, true) (λ _, "text") files "b.md"
    = Ok (files ++ [pb_file], [])
  ∧ Storages.indexof_file (files ++ [pb_file]) "b.md" = Some 1%nat
  ∧ Removal.remove_file (files ++ [pb_file]) "b.md" = Ok (pb_file, files).
Proof.
  apply (add_lookup_remove_file (λ _, 7%N) (λ _, true) (λ _, "text")
           [Storages.mkFile "a.md" "0123456789abcdef"] "b.md").
  - reflexivity.
  - apply (bool_decide_unpack _). vm_compute. exact I.
Defined.

Lemma update_file_touches_one_record_witness :
  let files := [Storages.mkFile "a.md" "0123456789abcdef";
                Storages.mkFile "a.md" "fedcba9876543210"] in
  let files' := [Storages.mkFile "a.md" "hello";
                 Storages.mkFile "a.md" "fedcba9876543210"] in
  Storages.filename <$> files' = Storages.filename <$> files
  ∧ ∃ i, Storages.indexof_file files "a.md" = Some i
         ∧ files' !! i = Some (Storages.mkFile "a.md" "hello")
         ∧ ∀ j, j ≠ i → files' !! j = files !! j.
Proof.
  apply (update_file_touches_one_record (λ _, "hello")
           [Storages.mkFile "a.md" "0123456789abcdef";
            Storages.mkFile "a.md" "fedcba9876543210"] "a.md").
  reflexivity.
Defined.

(** ** The entanglement index *)

Section entanglement_index_facts.
Import Storages Status Removal.

(** X4. [remove_entanglement] never looks at the entanglement it is given:
    on an empty index it raises [IndexError], and on any other index it
    takes out the last entry, whatever the argument. *)
Theorem remove_entanglement_takes_last :
  (∀ e, remove_entanglement [] e = Raise IndexError)
  ∧ (∀ es x e, remove_entanglement (es ++ [x]) e = Ok (x, es)).
Proof.
  split; [reflexivity|].
  intros es x e. unfold remove_entanglement.
  rewrite indexof_entanglement_message. apply pop_last.
Qed.

Lemma indexof_entanglement_first es n i e :
  es !! i = Some e → name (definition e) = n →
  (∀ j g, es !! j = Some g → (j < i)%nat → name (definition g) ≠ n) →
  indexof_entanglement es (KeyName n) = Z.of_nat i.
Proof.
  intros Hl Hn Hbefore. unfold indexof_entanglement.
  assert (list_find (λ e, name_eq (name (definition e)) (KeyName n) = true) es
          = Some (i, e)) as ->; [|done].
  apply list_find_Some. split_and!; [done|simpl; by apply bool_decide_eq_true| ].
  intros j g Hj Hlt. simpl. rewrite bool_decide_eq_true. by eapply Hbefore.
Qed.

Lemma get_entanglement_at es i e :
  es !! i = Some e → get_entanglement es (IntIndex (Z.of_nat i)) = Ok e.
Proof.
  intros Hl. unfold get_entanglement.
  destruct (Z.of_nat i <? 0)%Z eqn:Hneg; [apply Z.ltb_lt in Hneg; lia|].
  rewrite Hneg. by rewrite Nat2Z.id, Hl.
Qed.

Lemma names_of_first es n :
  n ∈ names_of es →
  ∃ i e, es !! i = Some e ∧ name (definition e) = n
         ∧ ∀ j g, es !! j = Some g → (j < i)%nat → name (definition g) ≠ n.
Proof.
  intros Hn.
  destruct (list_find (λ e, name (definition e) = n) es) as [[i e]|] eqn:Hfind.
  - apply list_find_Some in Hfind as (Hl & He & Hbefore). eauto.
  - apply list_find_None in Hfind.
    apply list_elem_of_fmap in Hn as (e & -> & He).
    by eapply Forall_forall in Hfind.
Qed.

(** X5. For a name that the index holds, [indexof_entanglement] answers
    the position of the first entry of that name, and [get_entanglement]
    at that position returns this entry. *)
Theorem lookup_by_name_finds_first es n :
  n ∈ names_of es →
  ∃ i e, indexof_entanglement es (KeyName n) = Z.of_nat i
         ∧ es !! i = Some e ∧ name (definition e) = n
         ∧ (∀ j g, es !! j = Some g → (j < i)%nat → name (definition g) ≠ n)
         ∧ get_entanglement es (IntIndex (indexof_entanglement es (KeyName n))) = Ok e.
Proof.
  intros Hn. destruct (names_of_first es n Hn) as (i & e & Hl & He & Hbefore).
  exists i, e. rewrite (indexof_entanglement_first es n i e) by done.
  split_and!; [done..|]. by apply get_entanglement_at.
Qed.

(** X6. For a name that the index does not hold, [indexof_entanglement]
    answers [-1]; handed on to [get_entanglement] unchecked, that answer
    is a subscript from the end: the last entry of the index comes back,
    and [IndexError] only on an empty index. *)
Theorem lookup_by_absent_name_gives_last es n :
  n ∉ names_of es →
  indexof_entanglement es (KeyName n) = (-1)%Z
  ∧ get_entanglement es (IntIndex (indexof_entanglement es (KeyName n)))
    = match last es with Some e => Ok e | None => Raise IndexError end.
Proof.
  intros Hn. rewrite indexof_entanglement_absent by done. split; [done|].
  destruct (decide (es = [])) as [->|Hne]; [reflexivity|].
  destruct (exists_last Hne) as (l & x & ->).
  rewrite last_snoc. unfold get_entanglement.
  rewrite length_app. simpl length.
  change (-1 <? 0)%Z with true. cbv iota.
  replace (-1 + Z.of_nat (length l + 1))%Z with (Z.of_nat (length l)) by lia.
  destruct (Z.of_nat (length l) <? 0)%Z eqn:Hneg; [apply Z.ltb_lt in Hneg; lia|].
  by rewrite Nat2Z.id, list_lookup_middle.
Qed.

(** X7. After [add_entanglement], the lookup by the name of the added
    entanglement succeeds; it returns the added entanglement when the
    index held no entry of that name, and otherwise the old first entry of
    that name, not the one just added. *)
Theorem add_entanglement_then_lookup es e :
  let es' := (add_entanglement es e).1 in
  let n := name (definition e) in
  ∃ i x, indexof_entanglement es' (KeyName n) = Z.of_nat i
         ∧ get_entanglement es' (IntIndex (Z.of_nat i)) = Ok x
         ∧ name (definition x) = n
         ∧ (n ∉ names_of es → i = length es ∧ x = e)
         ∧ (n ∈ names_of es → es !! i = Some x).
Proof.
  intros es' n. unfold es'. rewrite add_entanglement_appends. simpl.
  destruct (decide (n ∈ names_of es)) as [Hin|Hout].
  - destruct (names_of_first es n Hin) as (i & x & Hl & Hx & Hbefore).
    assert ((es ++ [e]) !! i = Some x) as Hl'.
    { rewrite lookup_app_l; [done|]. by eapply lookup_lt_Some. }
    exists i, x. split_and!; [|by apply get_entanglement_at|done|done|done].
    apply (indexof_entanglement_first _ _ _ x); [done..|].
    intros j g Hj Hlt. apply (Hbefore j g); [|done].
    rewrite lookup_app_l in Hj; [done|].
    apply lookup_lt_Some in Hl. lia.
  - assert ((es ++ [e]) !! length es = Some e) as Hl' by (by apply list_lookup_middle).
    exists (length es), e. split_and!; [|by apply get_entanglement_at|done|done|done].
    apply (indexof_entanglement_first _ _ _ e); [done..|].
    intros j g Hj Hlt Hg. apply Hout.
    rewrite lookup_app_l in Hj by done.
    apply list_elem_of_fmap. exists g. split; [done|].
    by eapply list_elem_of_lookup_2.
Qed.
End entanglement_index_facts.

Lemma lookup_by_name_finds_first_witness :
  let older := Storages.mkEntanglement
                 (Storages.mkCodeBlock "0123456789abcdef" "pass" "python")
                 (Storages.mkDefinition "greet" "a.md" "" "" "") [] in
  let newer := Storages.mkEntanglement
                 (Storages.mkCodeBlock "fedcba9876543210" "print(1)" "python")
                 (Storages.mkDefinition "greet" "b.md" "" "" "") [] in
  let es := [older; newer] in
  ∃ i e, Storages.indexof_entanglement es (Storages.KeyName "greet") = Z.of_nat i
         ∧ es !! i = Some e ∧ Storages.name (Storages.definition e) = "greet"
         ∧ (∀ j g, es !! j = Some g → (j < i)%nat
                   → Storages.name (Storages.definition g) ≠ "greet")
         ∧ Storages.get_entanglement es
             (Storages.IntIndex
                (Storages.indexof_entanglement es (Storages.KeyName "greet")))
           = Ok e.
Proof.
  apply (lookup_by_name_finds_first
           [Storages.mkEntanglement
              (Storages.mkCodeBlock "0123456789abcdef" "pass" "python")
              (Storages.mkDefinition "greet" "a.md" "" "" "") [];
            Storages.mkEntanglement
              (Storages.mkCodeBlock "fedcba9876543210" "print(1)" "python")
              (Storages.mkDefinition "greet" "b.md" "" "" "") []] "greet").
  apply (bool_decide_unpack _). vm_compute. exact I.
Defined.

Lemma lookup_by_absent_name_gives_last_witness :
  let greet := Storages.mkEntanglement
                 (Storages.mkCodeBlock "0123456789abcdef" "pass" "python")
                 (Storages.mkDefinition "greet" "a.md" "" "" "") [] in
  let intro := Storages.mkEntanglement
                 (Storages.mkCodeBlock "fedcba9876543210" "import os" "python")
                 (Storages.mkDefinition "intro" "a.md" "" "" "") [] in
  Storages.indexof_entanglement [greet; intro] (Storages.KeyName "outro") = (-1)%Z
  ∧ Storages.get_entanglement [greet; intro]
      (Storages.IntIndex
         (Storages.indexof_entanglement [greet; intro] (Storages.KeyName "outro")))
    = Ok intro.
Proof.
  apply (lookup_by_absent_name_gives_last
           [Storages.mkEntanglement
              (Storages.mkCodeBlock "0123456789abcdef" "pass" "python")
              (Storages.mkDefinition "greet" "a.md" "" "" "") [];
            Storages.mkEntanglement
              (Storages.mkCodeBlock "fedcba9876543210" "import os" "python")
              (Storages.mkDefinition "intro" "a.md" "" "" "") []] "outro").
  intros Hin. apply (bool_decide_pack _) in Hin. vm_compute in Hin. exact Hin.
Defined.

(** ** The workspace lookup *)

Lemma while_not_anchor_nearest exists_ rev_dir :
  ∀ n, (n <= length rev_dir)%nat →
    (∀ m, (n < m <= length rev_dir)%nat →
          exists_ (take m (rev rev_dir) ++ [Workspace.workspace_folder]) = false) →
    (n = 0%nat
     ∨ exists_ (take n (rev rev_dir) ++ [Workspace.workspace_folder]) = true) →
    Workspace.while_not_anchor exists_ rev_dir
    = match n with
      | O => Workspace.Fell_through []
      | S _ => Workspace.Returned (take n (rev rev_dir))
      end.
Proof.
  induction rev_dir as [|c up IH]; intros n Hn Hfar Hat.
  - simpl in Hn. by replace n with 0%nat by lia.
  - cbn [Workspace.while_not_anchor]. simpl length in *.
    destruct (decide (n = S (length up))) as [->|Hne].
    + destruct Hat as [?|Hat]; [done|].
      rewrite take_ge in Hat by (rewrite length_rev; simpl; lia).
      rewrite Hat. rewrite take_ge by (rewrite length_rev; simpl; lia). done.
    + pose proof (Hfar (S (length up))) as Hself.
      rewrite take_ge in Hself by (rewrite length_rev; simpl; lia).
      rewrite Hself by lia.
      assert (∀ m, (m <= length up)%nat →
                   take m (rev (c :: up)) = take m (rev up)) as Htake.
      { intros m Hm. simpl. rewrite take_app_le; [done|]. rewrite length_rev. lia. }
      rewrite (IH n); [|lia| |].
      * destruct n; [done|]. by rewrite Htake by lia.
      * intros m Hm. rewrite <- Htake by lia. apply Hfar. lia.
      * destruct Hat as [?|Hat]; [by left|right]. by rewrite <- Htake by lia.
Qed.

(** X8. When the current directory or one of its ancestors, the anchor
    included, holds the marker directory, [find_workspace] returns the
    nearest such directory: for the ancestor [take n cwd] that has the
    marker while no directory between it and [cwd] has it. *)
Theorem find_workspace_nearest_marker exists_ cwd n :
  (n <= length cwd)%nat →
  exists_ (take n cwd ++ [Workspace.workspace_folder]) = true →
  (∀ m, (n < m <= length cwd)%nat →
        exists_ (take m cwd ++ [Workspace.workspace_folder]) = false) →
  Workspace.find_workspace exists_ cwd = Ok (take n cwd).
Proof.
  intros Hn Hat Hfar. unfold Workspace.find_workspace.
  destruct (decide (n = length cwd)) as [->|Hne].
  - rewrite take_ge in Hat by lia. rewrite Hat. simpl. by rewrite take_ge by lia.
  - pose proof (Hfar (length cwd)) as Hcwd.
    rewrite take_ge in Hcwd by lia. rewrite Hcwd by lia. simpl.
    rewrite (while_not_anchor_nearest exists_ (rev cwd) n).
    + destruct n; [done|]. by rewrite rev_involutive.
    + rewrite length_rev. lia.
    + intros m Hm. rewrite rev_involutive. apply Hfar. rewrite length_rev in Hm. lia.
    + right. by rewrite rev_involutive.
Qed.

Lemma find_workspace_nearest_marker_witness :
  Workspace.find_workspace
    (λ p, bool_decide (p = ["home"; ".intergalac"] ∨ p = [".intergalac"]))
    ["home"; "user"; "project"]
  = Ok ["home"].
Proof.
  apply (find_workspace_nearest_marker
           (λ p, bool_decide (p = ["home"; ".intergalac"] ∨ p = [".intergalac"]))
           ["home"; "user"; "project"] 1).
  - simpl. lia.
  - reflexivity.
  - intros m Hm. simpl in Hm.
    assert (m = 2 ∨ m = 3)%nat as [-> | ->] by lia; reflexivity.
Defined.

(** ** The file classifier, whatever the index holds *)

Section get_status_accounting.
Import Pathlib Storages Status.
Context (xxh64 : string → N) (read_bytes : Path → string).
Context (cwd relative_root target : Path) (target_is_file : bool).









End get_status_accounting.

(** ** The block classifier, with a parsed block that the index holds *)

Lemma get_block_status_classifies_with_indexed_block_witness :
  let greet := Storages.mkEntanglement
                 (Storages.mkCodeBlock "0123456789abcdef" "pass" "python")
                 (Storages.mkDefinition "greet" "doc.md" "" "" "") [] in
  let intro := Storages.mkEntanglement
                 (Storages.mkCodeBlock "fedcba9876543210" "import os" "python")
                 (Storages.mkDefinition "intro" "doc.md" "" "" "") [] in
  let es := [greet; intro] in
  let parsed := [Status.mkParsed 0 intro Status.Markdown] in
  ∃ current deleted,
    Status.get_block_status es parsed "doc.md"
    = mkGenerated (current ++ deleted) None
    ∧ Forall2 (Status.classified es) parsed current
    ∧ Forall (λ d, Status.status d = Status.Deleted
                   ∧ Status.parsed_entanglement d ∈ es) deleted
    ∧ (∀ n, n ∈ (λ d, Storages.name (Storages.definition (Status.parsed_entanglement d)))
                  <$> deleted
            ↔ n ∈ Status.names_of (Status.get_file_blocks es "doc.md")
              ∧ n ∉ Status.parsed_names parsed).
Proof.
  apply (get_block_status_with_indexed_block
           [Storages.mkEntanglement
              (Storages.mkCodeBlock "0123456789abcdef" "pass" "python")
              (Storages.mkDefinition "greet" "doc.md" "" "" "") [];
            Storages.mkEntanglement
              (Storages.mkCodeBlock "fedcba9876543210" "import os" "python")
              (Storages.mkDefinition "intro" "doc.md" "" "" "") []]
           [Status.mkParsed 0
              (Storages.mkEntanglement
                 (Storages.mkCodeBlock "fedcba9876543210" "import os" "python")
                 (Storages.mkDefinition "intro" "doc.md" "" "" "") [])
              Status.Markdown] "doc.md").
  exists "intro". split; apply (bool_decide_unpack _); vm_compute; exact I.
Defined.

(** ** The prose scanner, line by line *)

Section prose_shape.
Import Text Storages Entities Prose ProseLines Printing.

Lemma step_at_raw refs n init items line :
  step (mkBloodhound refs n (init ++ [RawCodeBlock items]) AtRawCodeBlock) line
  = mkBloodhound (refs ++ option_list (line_reference line)) (S n)
      (init ++ [RawCodeBlock (items ++ [line_item line])]) AtRawCodeBlock.
Proof.
  unfold step, line_reference, line_item.
  destruct (re_match NOWEB_REFERENCE line) as [m|]; simpl.
  - unfold on_noweb_reference, append_to_current. simpl.
    by rewrite append_to_last_raw.
  - unfold get_line, append_to_current. simpl.
    by rewrite append_to_last_raw, app_nil_r.
Qed.

Lemma run_at_raw lines :
  ∀ refs n init items,
    fold_left step lines
      (mkBloodhound refs n (init ++ [RawCodeBlock items]) AtRawCodeBlock)
    = mkBloodhound (refs ++ omap line_reference lines) (n + length lines)
        (init ++ [RawCodeBlock (items ++ (line_item <$> lines))]) AtRawCodeBlock.
Proof.
  induction lines as [|l lines IH]; intros refs n init items.
  - simpl. by rewrite !app_nil_r, Nat.add_0_r.
  - cbn [fold_left]. rewrite step_at_raw, IH.
    f_equal.
    + rewrite <- app_assoc. f_equal. simpl. by destruct (line_reference l).
    + simpl. lia.
    + by rewrite fmap_cons, <- app_assoc.
Qed.

Lemma step_at_document refs n children line :
  step (mkBloodhound refs n children AtDocument) line
  = if is_reference line
    then mkBloodhound (refs ++ option_list (line_reference line)) (S n)
           (children ++ [line_item line]) AtDocument
    else mkBloodhound refs (S n) (children ++ [RawCodeBlock [Str line]])
           AtRawCodeBlock.
Proof.
  unfold step, line_reference, line_item, is_reference.
  destruct (re_match NOWEB_REFERENCE line) as [m|].
  - rewrite bool_decide_true by eauto. done.
  - rewrite bool_decide_false by (intros [? ?]; done).
    unfold get_line, append_to_current. simpl.
    by rewrite append_to_last_raw.
Qed.

Lemma run_at_document leading :
  Forall (λ l, is_reference l = true) leading →
  ∀ refs n children,
    fold_left step leading (mkBloodhound refs n children AtDocument)
    = mkBloodhound (refs ++ omap line_reference leading) (n + length leading)
        (children ++ (line_item <$> leading)) AtDocument.
Proof.
  induction 1 as [|l leading Hl _ IH]; intros refs n children.
  - simpl. by rewrite !app_nil_r, Nat.add_0_r.
  - cbn [fold_left]. rewrite step_at_document, Hl, IH. f_equal.
    + rewrite <- app_assoc. f_equal. simpl. by destruct (line_reference l).
    + simpl. lia.
    + by rewrite fmap_cons, <- app_assoc.
Qed.

Lemma line_reference_text line :
  is_reference line = false → line_reference line = None ∧ line_item line = Str line.
Proof.
  unfold is_reference, line_reference, line_item. intros H.
  apply bool_decide_eq_false in H.
  destruct (re_match NOWEB_REFERENCE line); [destruct H; eauto|done].
Qed.

(** The scanner after references, one line of text and any lines. *)
Lemma run_lines_shape leading text rest :
  Forall (λ l, is_reference l = true) leading →
  is_reference text = false →
  run_lines (leading ++ text :: rest)
  = mkBloodhound (omap line_reference (leading ++ text :: rest))
      (length (leading ++ text :: rest))
      ((line_item <$> leading) ++ [RawCodeBlock (line_item <$> text :: rest)])
      AtRawCodeBlock.
Proof.
  intros Hlead Htext. unfold run_lines, new_bloodhound.
  rewrite fold_left_app, run_at_document by done.
  cbn [fold_left]. rewrite step_at_document, Htext.
  destruct (line_reference_text text Htext) as [Href Hitem].
  change [RawCodeBlock [Str text]] with ([] ++ [RawCodeBlock [Str text]]).
  rewrite app_assoc, run_at_raw. f_equal.
  - rewrite omap_app. simpl. by rewrite Href.
  - rewrite length_app. simpl. lia.
  - rewrite app_nil_r, fmap_cons, Hitem. done.
Qed.

(** The scanner after references and then lines that begin with text. *)
Lemma prose_scanner_shape_aux (leading rest : list string) :
  Forall (λ l, is_reference l = true) leading →
  head (is_reference <$> rest) ≠ Some true →
  let self := run_lines (leading ++ rest) in
  line_number self = length (leading ++ rest)
  ∧ noweb_references self = omap line_reference (leading ++ rest)
  ∧ document_children self
    = (line_item <$> leading)
        ++ match rest with
           | [] => []
           | _ :: _ => [RawCodeBlock (line_item <$> rest)]
           end.
Proof.
  intros Hlead Hrest. destruct rest as [|text rest].
  - cbv zeta. unfold run_lines, new_bloodhound.
    rewrite app_nil_r, run_at_document by done. simpl.
    by rewrite app_nil_r.
  - cbv zeta. rewrite run_lines_shape; [done|done|].
    simpl in Hrest. destruct (is_reference text); [done|done].
Qed.

(** X11. The prose scanner on any lines: it counts every line, records
    the references of all the lines that match the reference pattern, in
    order, and builds a document whose children are the unresolved blocks
    of the references that come before the first line of text, followed -
    when there is a line of text - by one raw block that holds the first
    line of text and everything after it, references included. *)
Theorem prose_scanner_shape (leading rest : list string) :
  Forall (λ l, is_reference l = true) leading →
  head (is_reference <$> rest) ≠ Some true →
  let self := run_lines (leading ++ rest) in
  line_number self = length (leading ++ rest)
  ∧ noweb_references self = omap line_reference (leading ++ rest)
  ∧ document_children self
    = (line_item <$> leading)
        ++ match rest with
           | [] => []
           | _ :: _ => [RawCodeBlock (line_item <$> rest)]
           end.
Proof. apply prose_scanner_shape_aux. Qed.

Lemma line_item_reference line :
  is_reference line = true → isinstance_NonEntangledCodeBlock (line_item line) = true.
Proof.
  unfold is_reference, line_item. intros H. apply bool_decide_eq_true in H as [m Hm].
  by rewrite Hm.
Qed.

Lemma document_format_children_leading leading tail :
  Forall (λ l, is_reference l = true) leading →
  document_format_children ((line_item <$> leading) ++ tail)
  = ((λ _, Str "Error: Unresolved Entangled Block.") <$> leading)
      ++ document_format_children tail.
Proof.
  induction 1 as [|l leading Hl _ IH]; [done|].
  rewrite !fmap_cons. cbn [app document_format_children].
  rewrite (line_item_reference l Hl), IH. done.
Qed.

Lemma join_values_app a b :
  join_values (a ++ b)
  = match join_values a with
    | Ok la => match join_values b with
               | Ok lb => Ok (la ++ lb)
               | Raise e => Raise e
               end
    | Raise e => Raise e
    end.
Proof.
  induction a as [|x a IH]; simpl.
  - by destruct (join_values b).
  - destruct x; try done. rewrite IH.
    destruct (join_values a); [|done]. by destruct (join_values b).
Qed.

Lemma join_values_Str (lines : list string) : join_values (Str <$> lines) = Ok lines.
Proof.
  induction lines as [|l lines IH]; [done|]. rewrite fmap_cons. simpl. by rewrite IH.
Qed.

Lemma join_values_line_items (rest : list string) :
  join_values (line_item <$> rest)
  = if forallb (λ l, negb (is_reference l)) rest then Ok rest else Raise TypeError.
Proof.
  induction rest as [|l rest IH]; [done|].
  rewrite fmap_cons. cbn [forallb].
  destruct (is_reference l) eqn:Hl.
  - apply line_item_reference in Hl. simpl.
    destruct (line_item l); done.
  - destruct (line_reference_text l Hl) as [_ ->]. simpl. rewrite IH.
    by destruct (forallb _ rest).
Qed.

(** X12. [str] of the document that the prose scanner builds: every
    reference ahead of the first line of text is shown as the error line
    of an unresolved block; if no reference follows a line of text, the
    lines of text come back as they are, joined by line feeds; and if a
    reference follows a line of text, [str] raises [TypeError], because
    the raw block then holds an object among its lines. *)
Theorem str_of_scanned_document (leading rest : list string) :
  Forall (λ l, is_reference l = true) leading →
  head (is_reference <$> rest) ≠ Some true →
  str (document (run_lines (leading ++ rest)))
  = if forallb (λ l, negb (is_reference l)) rest
    then Ok (join_lines
               (((λ _, "Error: Unresolved Entangled Block.") <$> leading) ++ rest))
    else Raise TypeError.
Proof.
  intros Hlead Hrest.
  destruct (prose_scanner_shape_aux leading rest Hlead Hrest) as (_ & _ & Hdoc).
  unfold document. rewrite Hdoc. unfold str, joined.
  rewrite document_format_children_leading by done.
  rewrite join_values_app.
  replace ((λ _, Str "Error: Unresolved Entangled Block.") <$> leading)
    with (Str <$> ((λ _, "Error: Unresolved Entangled Block.") <$> leading))
    by (by rewrite <- list_fmap_compose).
  rewrite join_values_Str.
  destruct rest as [|text rest]; [simpl; by rewrite app_nil_r|].
  cbn [document_format_children isinstance_NonEntangledCodeBlock
       isinstance_EntangledCodeBlock isinstance_RawCodeBlock node_children].
  rewrite app_nil_r, join_values_line_items.
  by destruct (forallb _ (text :: rest)).
Qed.

End prose_shape.

Lemma prose_scanner_shape_witness :
  let leading := ["<<a>>"] in
  let rest := ["x = 1"; "  <<b>>"] in
  let self := Prose.run_lines (leading ++ rest) in
  Prose.line_number self = length (leading ++ rest)
  ∧ Prose.noweb_references self = omap ProseLines.line_reference (leading ++ rest)
  ∧ Prose.document_children self
    = (ProseLines.line_item <$> leading)
        ++ [Entities.RawCodeBlock (ProseLines.line_item <$> rest)].
Proof.
  apply (prose_scanner_shape ["<<a>>"] ["x = 1"; "  <<b>>"]).
  - repeat constructor.
  - vm_compute. discriminate.
Defined.

Lemma str_of_scanned_document_witness :
  Printing.str (Prose.document (Prose.run_lines (["<<a>>"] ++ ["x = 1"; "y = 2"])))
  = Ok (Text.join_lines ["Error: Unresolved Entangled Block."; "x = 1"; "y = 2"]).
Proof.
  apply (str_of_scanned_document ["<<a>>"] ["x = 1"; "y = 2"]).
  - repeat constructor.
  - vm_compute. discriminate.
Defined.
Section relative_path_facts.
Import RelativePath.

Lemma resolve_from_plain relative :
  ∀ dir, ".." ∉ relative → resolve_from dir relative = dir ++ relative.
Proof.
  induction relative as [|c relative IH]; intros dir Hno; simpl.
  - by rewrite app_nil_r.
  - apply not_elem_of_cons in Hno as [Hc Hno].
    rewrite bool_decide_false by done.
    rewrite IH by done. by rewrite <- app_assoc.
Qed.

Lemma resolve_from_ups n :
  ∀ dir relative,
    resolve_from dir (replicate n ".." ++ relative)
    = resolve_from (take (length dir - n) dir) relative.
Proof.
  induction n as [|n IH]; intros dir relative; simpl.
  - by rewrite Nat.sub_0_r, firstn_all.
  - rewrite IH. rewrite removelast_firstn_len.
    rewrite length_take, take_take. f_equal. f_equal. lia.
Qed.

Lemma elem_of_parents (p target : path) :
  p ∈ parents target ↔ (length p < length target)%nat ∧ take (length p) target = p.
Proof.
  unfold parents. rewrite list_elem_of_fmap. split.
  - intros (n & -> & Hn). apply elem_of_reverse, elem_of_seq in Hn.
    rewrite length_take. split; [lia|]. f_equal. lia.
  - intros [Hlt Htake]. exists (length p). split; [done|].
    apply elem_of_reverse, elem_of_seq. lia.
Qed.

Lemma base_parents_eq (base : path) :
  reverse (base :: parents base) = (λ n, take n base) <$> seq 0 (S (length base)).
Proof.
  unfold parents. rewrite reverse_cons, <- fmap_reverse, reverse_involutive.
  rewrite seq_S, fmap_app. simpl. by rewrite firstn_all.
Qed.

Lemma base_parents_find (base : path) i :
  (i <= length base)%nat →
  list_find (λ p, p = take i base) ((λ n, take n base) <$> seq 0 (S (length base)))
  = Some (i, take i base).
Proof.
  intros Hi. apply list_find_Some. split_and!.
  - rewrite list_lookup_fmap, lookup_seq_lt by lia. done.
  - done.
  - intros j p Hj Hlt Heq.
    rewrite list_lookup_fmap, lookup_seq_lt in Hj by lia. simpl in Hj.
    injection Hj as <-. apply (f_equal length) in Heq.
    rewrite !length_take in Heq. lia.
Qed.

Lemma for_parents_spec (base target : path) :
  target ≠ [] →
  ∀ m i,
    (i + m = S (length base))%nat →
    (∀ j, (j < i)%nat → take j base ∈ parents target) →
    (∃ j, (i <= j <= length base)%nat ∧ take j base ∉ parents target) →
    ∃ j, (j < length base)%nat
         ∧ take j target = take j base
         ∧ for_parents target ((λ n, take n base) <$> seq 0 (S (length base))) i
             ((λ n, take n base) <$> seq i m)
           = Returns (Some (replicate (length base - j) ".." ++ drop j target)).
Proof.
  intros Hne.
  remember ((λ n, take n base) <$> seq 0 (S (length base))) as bp eqn:Hbp.
  induction m as [|m IH]; intros i Him Hpassed Hfails.
  - destruct Hfails as (j & Hj & _). lia.
  - cbn [seq]. rewrite fmap_cons. cbn [for_parents].
    destruct (decide (take i base ∈ parents target)) as [Hin|Hout].
    + rewrite bool_decide_true by done. cbn [negb].
      apply IH; [lia| |].
      * intros j Hj. destruct (decide (j = i)) as [->|]; [done|]. apply Hpassed. lia.
      * destruct Hfails as (j & Hj & Hout). exists j. split; [|done].
        destruct (decide (j = i)) as [->|]; [done|lia].
    + rewrite bool_decide_false by done. cbn [negb].
      destruct i as [|i].
      { destruct Hout. apply elem_of_parents. simpl.
        split; [|done]. destruct target; [done|simpl; lia]. }
      rewrite Hbp, base_parents_find by lia. cbn [before].
      rewrite list_lookup_fmap, lookup_seq_lt by lia. cbn [fmap option_fmap option_map].
      assert (take i base ∈ parents target) as Hprev by (apply Hpassed; lia).
      apply elem_of_parents in Hprev as [Hlen Htake].
      rewrite length_take in Hlen, Htake.
      replace (i `min` length base)%nat with i in * by lia.
      unfold relative_to, is_relative_to.
      rewrite length_take. change (0 + i)%nat with i.
      replace (i `min` length base)%nat with i by lia.
      rewrite bool_decide_true by done.
      exists i. split_and!; [lia|done|].
      rewrite length_fmap, length_seq. do 3 f_equal.
Qed.

(** X14. For a target that is not the anchor and has no [".."] among its
    components, [get_relative_path] returns a relative path, and that
    path leads from the base folder to the target: each [".."] goes to
    the parent directory and every other component goes down. *)
Theorem get_relative_path_leads_to_target (base_folder target_file : path) :
  target_file ≠ [] →
  ".." ∉ target_file →
  ∃ relative,
    get_relative_path base_folder target_file = Returns (Some relative)
    ∧ resolve_from base_folder relative = target_file.
Proof.
  intros Hne Hdots. unfold get_relative_path.
  destruct (exists_last Hne) as (dir & name & ->).
  unfold parent. rewrite removelast_last.
  case_bool_decide as Hparent.
  - subst dir. exists [name]. unfold Path_of_name. rewrite last_snoc.
    split; [done|]. simpl. rewrite bool_decide_false; [done|].
    intros ->. apply Hdots. apply elem_of_app. right. by left.
  - unfold is_relative_to at 1. case_bool_decide as Hbelow.
    + assert (length base_folder <= length dir)%nat as Hlen.
      { apply (f_equal length) in Hbelow. rewrite length_take in Hbelow. lia. }
      unfold relative_to, is_relative_to.
      rewrite take_app_le by done. rewrite bool_decide_true by done.
      eexists. split; [done|].
      rewrite resolve_from_plain.
      * rewrite <- Hbelow at 1. rewrite <- (take_app_le dir [name]) by done.
        apply take_drop.
      * intros Hin. apply Hdots.
        rewrite <- (take_drop (length base_folder) (dir ++ [name])).
        apply elem_of_app. by right.
    + rewrite base_parents_eq.
      destruct (for_parents_spec base_folder (dir ++ [name]) Hne
                  (S (length base_folder)) 0) as (j & Hj & Htake & ->).
      * done.
      * intros j Hj. lia.
      * exists (length base_folder). split; [lia|].
        rewrite firstn_all. intros Hin. apply elem_of_parents in Hin as [Hlt Hin].
        apply Hbelow. rewrite length_app in Hlt. simpl in Hlt.
        rewrite take_app_le in Hin by lia. done.
      * eexists. split; [done|].
        rewrite resolve_from_ups.
        replace (length base_folder - (length base_folder - j))%nat with j by lia.
        rewrite resolve_from_plain.
        -- rewrite <- Htake. apply take_drop.
        -- intros Hin. apply Hdots.
           rewrite <- (take_drop j (dir ++ [name])). apply elem_of_app. by right.
Qed.
End relative_path_facts.

Lemma get_relative_path_leads_to_target_witness :
  ∃ relative,
    RelativePath.get_relative_path ["home"; "user"; "docs"]
      ["home"; "user"; "src"; "main.py"] = RelativePath.Returns (Some relative)
    ∧ RelativePath.resolve_from ["home"; "user"; "docs"] relative
      = ["home"; "user"; "src"; "main.py"].
Proof.
  apply (get_relative_path_leads_to_target ["home"; "user"; "docs"]
           ["home"; "user"; "src"; "main.py"]).
  - done.
  - intros Hin. apply (bool_decide_pack _) in Hin. vm_compute in Hin. exact Hin.
Defined.
Section needs_facts.
Import Text Needs.

Lemma match_here_star_cons class rest c s gs :
  match_here (Star class :: rest) (String c s) gs
  = if class c then
      match match_here (Star class :: rest) s gs with
      | Some r => Some r
      | None => match_here rest (String c s) gs
      end
    else match_here rest (String c s) gs.
Proof. reflexivity. Qed.

Lemma match_here_star_nil class rest gs :
  match_here (Star class :: rest) "" gs = match_here rest "" gs.
Proof. reflexivity. Qed.

Lemma match_here_plus_cons class rest c s gs :
  match_here (Plus class :: rest) (String c s) gs
  = if class c then match_here (Star class :: rest) s gs else None.
Proof. reflexivity. Qed.

Lemma match_here_dot rest s gs :
  match_here (Dot :: rest) s gs
  = match s with
    | String c s' => if is_dot c then match_here rest s' gs else None
    | EmptyString => None
    end.
Proof. reflexivity. Qed.

Lemma has_char_app x a b : has_char x (a +:+ b) = has_char x a || has_char x b.
Proof.
  induction a as [|c a IH]; [done|].
  rewrite string_app_cons. simpl. rewrite IH. by rewrite orb_assoc.
Qed.

(** A pattern with a literal that holds a character matches no text
    without that character. *)
Lemma match_needs_char x p :
  needs_char x p = true →
  ∀ s gs, has_char x s = false → match_here p s gs = None.
Proof.
  induction p as [|a p IH]; intros Hneeds; [done|].
  assert (∀ s gs, has_char x s = false →
                  (match a with Lit text => has_char x text | _ => false end = false) →
                  match_here p s gs = None) as Hrest.
  { intros s gs Hs Ha. apply IH; [|done].
    unfold needs_char in Hneeds. simpl in Hneeds. by rewrite Ha in Hneeds. }
  destruct a as [text|class|class| |g|g|]; intros s gs Hs.
  - rewrite match_here_lit.
    destruct (strip_prefix text s) as [s'|] eqn:Hstrip; [|done].
    apply strip_prefix_Some in Hstrip as ->.
    rewrite has_char_app in Hs. apply orb_false_elim in Hs as [Ht Hs'].
    by apply Hrest.
  - induction s as [|c s IHs].
    + rewrite match_here_star_nil. by apply Hrest.
    + rewrite match_here_star_cons.
      simpl in Hs. apply orb_false_elim in Hs as [Hc Hs'].
      rewrite IHs by done. rewrite Hrest; [by destruct (class c)|simpl; by rewrite Hc|done].
  - destruct s as [|c s]; [done|]. rewrite match_here_plus_cons.
    destruct (class c); [|done].
    simpl in Hs. apply orb_false_elim in Hs as [Hc Hs]. clear Hc.
    induction s as [|d s IHs].
    + rewrite match_here_star_nil. by apply Hrest.
    + rewrite match_here_star_cons.
      simpl in Hs. apply orb_false_elim in Hs as [Hd Hs'].
      rewrite IHs by done. rewrite Hrest; [by destruct (class d)|simpl; by rewrite Hd|done].
  - rewrite match_here_dot. destruct s as [|c s]; [done|].
    simpl in Hs. apply orb_false_elim in Hs as [Hc Hs'].
    destruct (is_dot c); [|done]. by apply Hrest.
  - rewrite match_here_open. by apply Hrest.
  - rewrite match_here_close. by apply Hrest.
  - simpl. destruct (_ || _); [|done]. by apply Hrest.
Qed.

Lemma has_pair_cons x y c s :
  has_pair x y (String c s)
  = match s with
    | String b _ => (is_char x c && is_char y b) || has_pair x y s
    | EmptyString => false
    end.
Proof. by destruct s. Qed.

Lemma has_pair_tail x y c s : has_pair x y (String c s) = false → has_pair x y s = false.
Proof.
  rewrite has_pair_cons. destruct s as [|b s]; [done|].
  intros H. by apply orb_false_elim in H as [_ H].
Qed.

Lemma has_pair_app_inv x y a b :
  has_pair x y (a +:+ b) = false → has_pair x y a = false ∧ has_pair x y b = false.
Proof.
  induction a as [|c a IH]; [done|].
  rewrite string_app_cons. intros H.
  pose proof (has_pair_tail _ _ _ _ H) as Htail. apply IH in Htail as [Ha Hb].
  split; [|done]. rewrite has_pair_cons in H |- *.
  destruct a as [|d a]; [done|]. rewrite string_app_cons in H.
  apply orb_false_elim in H as [H _]. by rewrite H, Ha.
Qed.

(** A text without the second character, put in front of a text that
    does not begin with it, adds no pair. *)
Lemma has_pair_app x y a b :
  has_char y a = false → starts_outside (is_char y) b →
  has_pair x y (a +:+ b) = has_pair x y b.
Proof.
  intros Ha Hb. induction a as [|c a IH]; [done|].
  simpl in Ha. apply orb_false_elim in Ha as [Hc Ha].
  rewrite string_app_cons, has_pair_cons. rewrite <- IH by done.
  destruct a as [|d a].
  - rewrite string_app_nil. destruct b as [|e b]; [done|].
    simpl in Hb. rewrite Hb. by rewrite andb_false_r.
  - rewrite string_app_cons. simpl in Ha.
    apply orb_false_elim in Ha as [Hd _]. rewrite Hd. by rewrite andb_false_r.
Qed.

(** A pattern with a literal that holds two characters side by side
    matches no text without that pair. *)
Lemma match_needs_pair x y p :
  needs_pair x y p = true →
  ∀ s gs, has_pair x y s = false → match_here p s gs = None.
Proof.
  induction p as [|a p IH]; intros Hneeds; [done|].
  assert (∀ s gs, has_pair x y s = false →
                  (match a with Lit text => has_pair x y text | _ => false end = false) →
                  match_here p s gs = None) as Hrest.
  { intros s gs Hs Ha. apply IH; [|done].
    unfold needs_pair in Hneeds. simpl in Hneeds. by rewrite Ha in Hneeds. }
  destruct a as [text|class|class| |g|g|]; intros s gs Hs.
  - rewrite match_here_lit.
    destruct (strip_prefix text s) as [s'|] eqn:Hstrip; [|done].
    apply strip_prefix_Some in Hstrip as ->.
    apply has_pair_app_inv in Hs as [Ht Hs']. by apply Hrest.
  - induction s as [|c s IHs].
    + rewrite match_here_star_nil. by apply Hrest.
    + rewrite match_here_star_cons.
      rewrite IHs by (by eapply has_pair_tail).
      rewrite Hrest by done. by destruct (class c).
  - destruct s as [|c s]; [done|]. rewrite match_here_plus_cons.
    destruct (class c); [|done].
    apply has_pair_tail in Hs.
    induction s as [|d s IHs].
    + rewrite match_here_star_nil. by apply Hrest.
    + rewrite match_here_star_cons.
      rewrite IHs by (by eapply has_pair_tail).
      rewrite Hrest by done. by destruct (class d).
  - rewrite match_here_dot. destruct s as [|c s]; [done|].
    destruct (is_dot c); [|done]. apply Hrest; [|done]. by eapply has_pair_tail.
  - rewrite match_here_open. by apply Hrest.
  - rewrite match_here_close. by apply Hrest.
  - simpl. destruct (_ || _); [|done]. by apply Hrest.
Qed.

(** A repetition gives back what the rest of the pattern finds further
    on, across a prefix of the class. *)
Lemma match_star_across class rest w t gs r :
  all_chars class w = true →
  match_here (Star class :: rest) t gs = Some r →
  match_here (Star class :: rest) (w +:+ t) gs = Some r.
Proof.
  intros Hw Ht. induction w as [|c w IH]; [done|].
  simpl in Hw. apply andb_prop in Hw as [Hc Hw].
  rewrite string_app_cons, match_here_star_cons, Hc. by rewrite IH.
Qed.

(** A repetition followed by what the rest finds after the longest
    prefix of the class. *)
Lemma match_star_longest class rest s gs r :
  match_here rest (drop_while class s) gs = Some r →
  match_here (Star class :: rest) s gs = Some r.
Proof.
  induction s as [|c s IH]; simpl drop_while; intros H.
  - by rewrite match_here_star_nil.
  - rewrite match_here_star_cons. destruct (class c); [|done]. by rewrite IH.
Qed.

Lemma take_while_outside class a b :
  starts_outside class b → take_while class (a +:+ b) = take_while class a.
Proof.
  intros Hb. induction a as [|c a IH].
  - rewrite string_app_nil. destruct b as [|c b]; [done|]. simpl in *. by rewrite Hb.
  - rewrite string_app_cons. simpl. destruct (class c); [by rewrite IH|done].
Qed.

Lemma drop_while_outside class a b :
  starts_outside class b → drop_while class (a +:+ b) = drop_while class a +:+ b.
Proof.
  intros Hb. induction a as [|c a IH].
  - rewrite string_app_nil. destruct b as [|c b]; [done|]. simpl in *. by rewrite Hb.
  - rewrite string_app_cons. simpl. destruct (class c); [by rewrite IH|done].
Qed.

Lemma take_chars_app a b :
  take_chars (String.length (a +:+ b) - String.length b) (a +:+ b) = a.
Proof.
  rewrite string_length_app.
  replace (String.length a + String.length b - String.length b)%nat
    with (String.length a) by lia.
  induction a as [|c a IH]; [by destruct b|].
  rewrite string_app_cons. simpl. by rewrite IH.
Qed.

Lemma all_chars_app class a b :
  all_chars class (a +:+ b) = all_chars class a && all_chars class b.
Proof.
  induction a as [|c a IH]; [done|].
  rewrite string_app_cons. simpl. rewrite IH. by rewrite andb_assoc.
Qed.
End needs_facts.
Section marker_facts.
Import Text Needs Entities Generated.

(** A repetition finds nothing across a prefix without the first character
    of the literal that follows it, when it finds nothing after it. *)
Lemma match_star_skip class a l p w t gs :
  has_char a w = false →
  match_here (Star class :: Lit (String a l) :: p) t gs = None →
  match_here (Star class :: Lit (String a l) :: p) (w +:+ t) gs = None.
Proof.
  intros Hw Ht. induction w as [|c w IH]; [done|].
  simpl in Hw. apply orb_false_elim in Hw as [Hc Hw].
  rewrite string_app_cons, match_here_star_cons, IH by done.
  assert (match_here (Lit (String a l) :: p) (String c (w +:+ t)) gs = None) as ->.
  { rewrite match_here_lit. simpl. unfold is_char in Hc.
    apply bool_decide_eq_false in Hc. rewrite bool_decide_false; [done|congruence]. }
  by destruct (class c).
Qed.

Lemma no_char_all_chars x s :
  has_char x s = false → all_chars (λ c, negb (is_char x c)) s = true.
Proof.
  induction s as [|c s IH]; [done|]. simpl. intros H.
  apply orb_false_elim in H as [Hc Hs]. by rewrite Hc, IH.
Qed.

Lemma strip_prefix_app prefix s : strip_prefix prefix (prefix +:+ s) = Some s.
Proof. by apply strip_prefix_Some. Qed.

Lemma file_header_match src :
  has_char "{" src = false → has_char "]" src = false →
  re_match ENTANGLED_FILE_CONTENTS
    ("# Entanglement: This file is entangled with {" +:+ src +:+ "}.")
  = Some (close_group "source" "}." (open_group "source" (src +:+ "}.") no_groups)).
Proof.
  intros Hbrace Hbracket. unfold re_match, ENTANGLED_FILE_CONTENTS.
  set (X := src +:+ "}.").
  change ("# Entanglement: This file is entangled with {" +:+ X)
    with ("# " +:+ String "E" ("ntanglement: This file is entangled with {" +:+ X)).
  apply match_star_across; [reflexivity|].
  rewrite match_here_star_cons. change (is_dot "E") with true. cbv iota.
  assert (has_char "{" X = false) as HX.
  { unfold X. rewrite has_char_app, Hbrace. reflexivity. }
  rewrite (match_star_skip is_dot "E" _ _ "ntanglement: This file is entangled with {" X).
  - rewrite match_here_lit.
    change (String "E" ("ntanglement: This file is entangled with {" +:+ X))
      with ("Entanglement: This file is entangled with " +:+ ("{" +:+ X)).
    rewrite strip_prefix_app, match_here_lit, strip_prefix_app.
    rewrite match_here_open. unfold X.
    apply match_star_across; [by apply no_char_all_chars|]. reflexivity.
  - reflexivity.
  - apply (match_needs_char "{"); [reflexivity|done].
Qed.

Lemma from_end_is_Some back (code : list string) :
  (0 < back <= length code)%nat → is_Some (from_end back code).
Proof.
  intros H. unfold from_end. rewrite decide_True by lia.
  apply lookup_lt_is_Some. lia.
Qed.

(** The line that [extract_entanglement] takes for the last one: the
    one before a final empty line, else the final line. *)
Lemma extract_entanglement_generated (version src : string) (rest : list string) :
  has_char "{" src = false → has_char "]" src = false →
  let code := (generate_entangled_document version (Some src)).1 :: rest in
  extract_entanglement code
  = Ok (Some (src, if bool_decide (last code = Some "") then 2%nat else 1%nat)).
Proof.
  intros Hbrace Hbracket. unfold extract_entanglement, generate_entangled_document.
  cbn [fst str_or_None].
  set (header := "# Entanglement: This file is entangled with {" +:+ src +:+ "}.").
  assert (header ≠ "") as Hheader by done.
  cbv zeta. rewrite bool_decide_false by (intros [= ? _]; done).
  assert (from_end 1 (header :: rest) = last (header :: rest)) as Hlast.
  { unfold from_end. rewrite decide_True by (simpl; lia).
    rewrite last_lookup. f_equal. simpl. lia. }
  rewrite Hlast.
  set (last_line := match last (header :: rest) with
                    | Some l => if bool_decide (l = "") then 2%nat else 1%nat
                    | None => 1%nat
                    end).
  assert (last_line = if bool_decide (last (header :: rest) = Some "")
                      then 2%nat else 1%nat) as Hll.
  { unfold last_line. destruct (last (header :: rest)) as [l|]; [|done].
    destruct (decide (l = "")) as [->|Hne].
    - by rewrite !bool_decide_true.
    - rewrite !bool_decide_false; [done|congruence|done]. }
  assert (is_Some (from_end last_line (header :: rest))) as [l Hl].
  { apply from_end_is_Some. rewrite Hll.
    case_bool_decide as Hempty; [|simpl; lia].
    destruct rest as [|l' rest]; [|simpl; lia].
    simpl in Hempty. congruence. }
  rewrite Hl. cbn [lookup list_lookup].
  unfold header at 1. rewrite file_header_match by done.
  rewrite <- Hll. do 3 f_equal.
  unfold group, close_group, open_group. simpl.
  apply take_chars_app.
Qed.

(** X15. A file whose first line is the header that
    [generate_entangled_document] writes for a source without [{] and [\]]
    is taken for a generated file by [extract_entanglement], whatever its
    other lines are; the source read back from the header is the one
    that was written, and the footer is looked for in the last line, or
    in the line before it when the last line is empty. *)
Theorem extract_entanglement_reads_generated_header (version src : string)
    (rest : list string) :
  has_char "{" src = false → has_char "]" src = false →
  let code := (generate_entangled_document version (Some src)).1 :: rest in
  extract_entanglement code
  = Ok (Some (src, if bool_decide (last code = Some "") then 2%nat else 1%nat)).
Proof. apply extract_entanglement_generated. Qed.
End marker_facts.

Lemma extract_entanglement_reads_generated_header_witness :
  Generated.extract_entanglement
    ((Entities.generate_entangled_document "0.1.0" (Some "docs/guide.md")).1
       :: ["print(1)"; ""])
  = Ok (Some ("docs/guide.md", 2%nat)).
Proof.
  apply (extract_entanglement_reads_generated_header "0.1.0" "docs/guide.md"
           ["print(1)"; ""]); reflexivity.
Defined.
Section block_marker_facts.
Import Text Needs Entities Generated.

Lemma has_pair_app_first x y a b :
  has_char x a = false → has_pair x y (a +:+ b) = has_pair x y b.
Proof.
  intros Ha. induction a as [|c a IH]; [done|].
  simpl in Ha. apply orb_false_elim in Ha as [Hc Ha].
  rewrite string_app_cons, has_pair_cons, IH by done.
  destruct (a +:+ b) eqn:Hab; [|by rewrite Hc].
  destruct a; [|done]. rewrite string_app_nil in Hab. by subst b.
Qed.

Lemma all_chars_drop_while class other s :
  all_chars class s = true → all_chars class (drop_while other s) = true.
Proof.
  induction s as [|c s IH]; [done|]. simpl. intros H.
  destruct (other c); [|done]. apply andb_prop in H as [_ H]. by apply IH.
Qed.

(** The header that [generate_entangled_block] writes is matched by
    [NOWEB_HEADER], with the groups that were written. *)
Lemma block_header_match cc name src :
  all_chars is_dot cc = true →
  has_char "{" name = false → has_char "]" name = false →
  has_char "{" src = false → has_char "]" src = false →
  ∃ m, re_match NOWEB_HEADER (generate_entangled_block (Some src) name cc).1 = Some m
       ∧ group m "indent" = take_while is_space cc
       ∧ group m "ref_name" = name
       ∧ group m "source" = src.
Proof.
  intros Hcc Hn1 Hn2 Hs1 Hs2.
  unfold generate_entangled_block, re_match, NOWEB_HEADER. cbn [fst str_or_None].
  set (X := src +:+ "}.").
  set (S := "}@{" +:+ X).
  set (T2 := name +:+ S).
  set (H := "# Entanglement: This block is entangled with {" +:+ T2).
  assert (has_char "{" X = false) as HX
    by (unfold X; rewrite has_char_app, Hs1; reflexivity).
  assert (starts_outside is_space H) as HH by reflexivity.
  eexists. split.
  - rewrite match_here_open. apply match_star_longest.
    rewrite drop_while_outside by done.
    rewrite match_here_close.
    change H with ("# " +:+ String "E"
                     ("ntanglement: This block is entangled with {" +:+ T2)).
    rewrite <- string_app_assoc.
    apply match_star_across.
    { rewrite all_chars_app, all_chars_drop_while by done. reflexivity. }
    rewrite match_here_star_cons. change (is_dot "E") with true. cbv iota.
    rewrite (match_star_skip is_dot "E" _ _
               "ntanglement: This block is entangled with {" T2); cycle 1.
    { reflexivity. }
    { apply (match_needs_pair " " "{"); [reflexivity|].
      unfold T2. rewrite has_pair_app by done.
      unfold S. rewrite has_pair_app_first by reflexivity.
      unfold X. rewrite has_pair_app by done. reflexivity. }
    rewrite match_here_lit.
    change (String "E" ("ntanglement: This block is entangled with {" +:+ T2))
      with ("Entanglement: This block is entangled with" +:+ (" {" +:+ T2)).
    rewrite strip_prefix_app, match_here_lit, strip_prefix_app, match_here_open.
    unfold T2 at 1. apply match_star_across; [by apply no_char_all_chars|].
    change S with (String "}" (String "@" (String "{" X))).
    rewrite !match_here_star_cons.
    assert (∀ gs, match_here
                    [Star not_bracket; Close "ref_name"; Lit "}@{"; Open "source";
                     Star not_bracket; Close "source"; Lit "}."] X gs = None)
      as HstarX by (intros; apply (match_needs_char "{"); [reflexivity|done]).
    rewrite HstarX.
    change (not_bracket "}") with true. change (not_bracket "@") with true.
    change (not_bracket "{") with true. cbv iota.
    rewrite match_here_close.
    rewrite (match_here_lit "}@{" _ (String "{" X)).
    change (strip_prefix "}@{" (String "{" X)) with (@None string). cbv iota.
    rewrite match_here_close.
    rewrite (match_here_lit "}@{" _ (String "@" (String "{" X))).
    change (strip_prefix "}@{" (String "@" (String "{" X))) with (@None string).
    cbv iota.
    rewrite match_here_close, match_here_lit.
    change (String "}" (String "@" (String "{" X))) with ("}@{" +:+ X).
    rewrite strip_prefix_app, match_here_open.
    unfold X at 1. apply match_star_across; [by apply no_char_all_chars|].
    reflexivity.
  - unfold group, close_group, open_group. simpl.
    split_and!.
    + rewrite string_app_assoc.
      change ("# " +:+ "Entanglement: This block is entangled with" +:+ " {" +:+ T2)
        with H.
      rewrite <- (drop_while_outside is_space cc H) by done.
      rewrite take_chars_take_while. by apply take_while_outside.
    + exact (take_chars_app name S).
    + exact (take_chars_app src "}.").
Qed.
End block_marker_facts.
Section footer_facts.
Import Text Needs Entities Generated.

Lemma block_footer_match cc :
  all_chars is_dot cc = true →
  is_Some (re_match NOWEB_FOOTER (generate_entangled_block None "" cc).2).
Proof.
  intros Hcc. unfold generate_entangled_block, re_match, NOWEB_FOOTER. cbn [snd].
  set (F := "# End of block entanglement.").
  assert (starts_outside is_space F) as HF by reflexivity.
  eexists. rewrite match_here_open. apply match_star_longest.
  rewrite drop_while_outside by done. rewrite match_here_close.
  apply match_star_across; [by apply all_chars_drop_while|].
  reflexivity.
Qed.

Lemma block_footer_not_header cc :
  has_char "{" cc = false →
  re_match NOWEB_HEADER (generate_entangled_block None "" cc).2 = None.
Proof.
  intros Hcc. apply (match_needs_char "{"); [reflexivity|].
  unfold generate_entangled_block. cbn [snd].
  rewrite has_char_app, Hcc. reflexivity.
Qed.

(** X16. The two lines that [generate_entangled_block] writes are lines
    that the scanner of generated files recognises: for an indent text
    without line feed and [{], and a name and a source without [{] and
    [\]], the header matches [NOWEB_HEADER] with the name and the source
    that were written and with the leading white space of the indent text
    as its indent, and the footer matches [NOWEB_FOOTER] and not
    [NOWEB_HEADER]. *)
Theorem generated_block_markers_are_recognised (indent ref_name source : string) :
  all_chars is_dot indent = true → has_char "{" indent = false →
  has_char "{" ref_name = false → has_char "]" ref_name = false →
  has_char "{" source = false → has_char "]" source = false →
  let '(header, footer) := generate_entangled_block (Some source) ref_name indent in
  (∃ m, re_match NOWEB_HEADER header = Some m
        ∧ group m "indent" = take_while is_space indent
        ∧ group m "ref_name" = ref_name
        ∧ group m "source" = source)
  ∧ re_match NOWEB_HEADER footer = None
  ∧ is_Some (re_match NOWEB_FOOTER footer).
Proof.
  intros Hdot Hbrace Hn1 Hn2 Hs1 Hs2.
  pose proof (block_header_match indent ref_name source Hdot Hn1 Hn2 Hs1 Hs2) as Hh.
  pose proof (block_footer_not_header indent Hbrace) as Hf1.
  pose proof (block_footer_match indent Hdot) as Hf2.
  unfold generate_entangled_block in *. cbn [fst snd] in *. done.
Qed.

(** X17. The footer that [generate_entangled_document] writes is not a
    line that [ENTANGLED_FILE_END] matches, for any version text without
    a space and a closing parenthesis: the pattern wants a space between
    the version and the parenthesis, and the footer is written without
    one. *)
Theorem generated_file_footer_is_not_recognised (version : string)
    (source : option string) :
  has_char " " version = false → has_char ")" version = false →
  re_match ENTANGLED_FILE_END (generate_entangled_document version source).2 = None.
Proof.
  intros Hspace Hparen. unfold generate_entangled_document. cbn [snd].
  destruct version as [|c version]; [reflexivity|].
  apply (match_needs_pair " " ")"); [reflexivity|].
  rewrite has_pair_app; [|reflexivity|].
  - rewrite has_pair_app_first by done. reflexivity.
  - simpl in Hparen. apply orb_false_elim in Hparen as [Hc _].
    rewrite string_app_cons. exact Hc.
Qed.
End footer_facts.

Lemma generated_block_markers_are_recognised_witness :
  let '(header, footer) :=
    Entities.generate_entangled_block (Some "docs/guide.md") "greet" "    " in
  (∃ m, Text.re_match Generated.NOWEB_HEADER header = Some m
        ∧ Text.group m "indent" = Text.take_while Text.is_space "    "
        ∧ Text.group m "ref_name" = "greet"
        ∧ Text.group m "source" = "docs/guide.md")
  ∧ Text.re_match Generated.NOWEB_HEADER footer = None
  ∧ is_Some (Text.re_match Generated.NOWEB_FOOTER footer).
Proof.
  apply (generated_block_markers_are_recognised "    " "greet" "docs/guide.md");
    reflexivity.
Defined.

Lemma generated_file_footer_is_not_recognised_witness :
  Text.re_match Generated.ENTANGLED_FILE_END
    (Entities.generate_entangled_document "0.1.0" (Some "docs/guide.md")).2 = None.
Proof.
  apply (generated_file_footer_is_not_recognised "0.1.0" (Some "docs/guide.md"));
    reflexivity.
Defined.
Section scanner_facts.
Import Text Entities Generated ScannerState.

Lemma store_ok_alter_append e i store :
  store_ok store → store_ok (alter (append_child e) i store).
Proof.
  intros Hok a o Ha. rewrite length_alter.
  rewrite list_lookup_alter in Ha.
  destruct (decide (i = a)) as [->|]; [|by apply (Hok a)].
  destruct (store !! a) as [o'|] eqn:Ho'; [|done].
  injection Ha as <-. simpl. by apply (Hok a).
Qed.

Lemma store_ok_set_parent p i store :
  store_ok store → (p < length store)%nat →
  store_ok (alter (set_parent (Some p)) i store).
Proof.
  intros Hok Hp a o Ha. rewrite length_alter.
  rewrite list_lookup_alter in Ha.
  destruct (decide (i = a)) as [->|]; [|by apply (Hok a)].
  destruct (store !! a) as [o'|] eqn:Ho'; [|done].
  injection Ha as <-. simpl. split; [eauto|]. by intros ? [= <-].
Qed.

Lemma store_ok_push o store :
  store_ok store →
  (class o = RawCodeBlock → is_Some (parent o)) →
  (∀ p, parent o = Some p → (p < length store)%nat) →
  store_ok (store ++ [o]).
Proof.
  intros Hok Hraw Hparent a o' Ha. rewrite length_app. simpl.
  apply lookup_app_Some in Ha as [Ha|[Hlen Ha]].
  - destruct (Hok a o' Ha) as [H1 H2]. split; [done|].
    intros p Hp. specialize (H2 p Hp). lia.
  - destruct (a - length store)%nat; [|done]. injection Ha as <-.
    split; [done|]. intros p Hp. specialize (Hparent p Hp). lia.
Qed.

Lemma on_header_ok self m :
  scanner_ok self → ∃ self', on_header self m = Ok self' ∧ scanner_ok self'.
Proof.
  intros (Hstore & (a & Hcur & Ha) & Hdoc). unfold on_header. rewrite Hcur.
  set (block := mkObject EntangledCodeBlock [] None (Some (group m "source"))
                  (group m "ref_name") (String.length (group m "indent"))).
  assert (store_ok (store self ++ [block])) as Hpush
    by (apply store_ok_push; [done|done|done]).
  destruct (store self !! a) as [o|] eqn:Ho; [|by apply lookup_ge_None in Ho; lia].
  unfold type_of. cbn [mbind option_bind].
  rewrite lookup_app_l, Ho by done. cbn [fmap option_fmap option_map].
  destruct (class o) eqn:Hclass.
  - eexists. split; [done|]. split_and!; cbn [store current_parent document].
    + by apply store_ok_alter_append.
    + exists (length (store self)). rewrite length_alter, length_app. simpl.
      split; [done|lia].
    + rewrite length_alter, length_app. lia.
  - eexists. split; [done|]. split_and!; cbn [store current_parent document].
    + apply store_ok_set_parent; [by apply store_ok_alter_append|].
      rewrite length_alter, length_app. lia.
    + exists (length (store self)). rewrite !length_alter, length_app. simpl.
      split; [done|lia].
    + rewrite !length_alter, length_app. lia.
  - unfold parent_of. rewrite lookup_app_l, Ho by done.
    destruct (Hstore a o Ho) as [Hraw Hparent].
    destruct (Hraw Hclass) as [p Hp]. rewrite Hp.
    eexists. split; [done|]. split_and!; cbn [store current_parent document].
    + by apply store_ok_alter_append.
    + exists (length (store self)). rewrite length_alter, length_app. simpl.
      split; [done|lia].
    + rewrite length_alter, length_app. lia.
Qed.

Lemma on_footer_ok self :
  scanner_ok self → ∃ self', on_footer self = Ok self' ∧ scanner_ok self'.
Proof.
  intros (Hstore & (a & Hcur & Ha) & Hdoc). unfold on_footer. rewrite Hcur.
  destruct (store self !! a) as [o|] eqn:Ho; [|by apply lookup_ge_None in Ho; lia].
  unfold type_of. cbn [mbind option_bind]. rewrite Ho.
  cbn [fmap option_fmap option_map].
  assert (∀ b, (b < length (store self))%nat →
               scanner_ok (mkBloodhound (store self) (document self) (Some b)))
    as Hat by (intros b Hb; split_and!; [done|by exists b|done]).
  destruct (class o) eqn:Hclass; try (eexists; split; [done|]; by apply Hat).
  destruct (Hstore a o Ho) as [Hraw Hparent].
  destruct (Hraw Hclass) as [p Hp].
  assert (parent_of (store self) (Some a) = Ok (Some p)) as ->
    by (unfold parent_of; by rewrite Ho, Hp).
  specialize (Hparent p Hp). unfold parent_of.
  destruct (store self !! p) as [container|] eqn:Hc;
    [|by apply lookup_ge_None in Hc; lia].
  destruct (parent container) as [up|] eqn:Hup.
  - eexists. split; [done|]. apply Hat.
    by apply (proj2 (Hstore p container Hc)).
  - eexists. split; [done|]. by apply Hat.
Qed.

Lemma on_line_ok self line : scanner_ok self → scanner_ok (on_line self line).
Proof.
  intros (Hstore & (a & Hcur & Ha) & Hdoc).
  assert (∀ self', scanner_ok self' →
            scanner_ok
              match type_of (store self') (current_parent self'), current_parent self' with
              | Some RawCodeBlock, Some current =>
                  mkBloodhound (alter (append_child (Line line)) current (store self'))
                    (document self') (current_parent self')
              | _, _ => self'
              end) as Hsecond.
  { intros self' (Hstore' & (b & Hcur' & Hb) & Hdoc').
    rewrite Hcur'. destruct (type_of _ _) as [[]|];
      try (split_and!; [done|by exists b|done]).
    split_and!; cbn [store current_parent document].
    - by apply store_ok_alter_append.
    - exists b. by rewrite length_alter.
    - by rewrite length_alter. }
  unfold on_line. apply Hsecond. rewrite Hcur.
  set (raw := mkObject RawCodeBlock [] (Some a) None "" 0).
  assert (scanner_ok
            (mkBloodhound
               (alter (append_child (Object (length (store self)))) a (store self ++ [raw]))
               (document self) (Some (length (store self))))) as Hnew.
  { split_and!; cbn [store current_parent document].
    - apply store_ok_alter_append, store_ok_push; [done|by eauto|].
      by intros p [= <-].
    - exists (length (store self)). rewrite length_alter, length_app. simpl.
      split; [done|lia].
    - rewrite length_alter, length_app. lia. }
  destruct (type_of _ _) as [[]|]; try done.
  all: split_and!; [done|by exists a|done].
Qed.

Lemma step_ok self line :
  scanner_ok self → ∃ self', step self line = Ok self' ∧ scanner_ok self'.
Proof.
  intros Hok. unfold step.
  destruct (re_match NOWEB_HEADER line) as [m|]; [by apply on_header_ok|].
  destruct (re_match NOWEB_FOOTER line); [by apply on_footer_ok|].
  eexists. split; [done|]. by apply on_line_ok.
Qed.

Lemma run_lines_ok lines :
  ∀ self, scanner_ok self →
    ∃ self', run_lines self lines = Ok self' ∧ scanner_ok self'.
Proof.
  induction lines as [|line lines IH]; intros self Hok; simpl; [eauto|].
  destruct (step_ok self line Hok) as (self1 & -> & Hok1). by apply IH.
Qed.

Lemma new_bloodhound_ok : scanner_ok new_bloodhound.
Proof.
  split_and!.
  - intros [|a] o Ha; [|done]. injection Ha as <-. done.
  - exists 0%nat. split; [done|simpl; lia].
  - simpl. lia.
Qed.

(** X18. The scanner of generated files raises on no text: after every
    line each raw block has a parent, every parent and the cursor are
    objects of the scanner, so that no header, footer or line finds
    [None] where it reads a [parent]. *)
Theorem generated_scanner_never_raises :
  (∀ code, ∃ self, run code = Ok self ∧ scanner_ok self)
  ∧ (∀ self line, scanner_ok self →
                  ∃ self', step self line = Ok self' ∧ scanner_ok self').
Proof.
  split; [|apply step_ok].
  intros code. apply run_lines_ok, new_bloodhound_ok.
Qed.
End scanner_facts.
Section scanner_shape.
Import Text Entities Generated ScannerState.

Lemma type_of_at store a o :
  store !! a = Some o → type_of store (Some a) = Some (class o).
Proof. intros Ho. unfold type_of. cbn [mbind option_bind]. by rewrite Ho. Qed.

(** A plain line at a raw block is appended to it. *)
Lemma step_plain_at_raw pre o post doc line :
  plain line → class o = RawCodeBlock →
  step (mkBloodhound (pre ++ o :: post) doc (Some (length pre))) line
  = Ok (mkBloodhound (pre ++ append_child (Line line) o :: post) doc
          (Some (length pre))).
Proof.
  intros [Hh Hf] Hclass. unfold step. rewrite Hh, Hf. f_equal.
  assert (type_of (pre ++ o :: post) (Some (length pre)) = Some RawCodeBlock)
    as Htype by (rewrite <- Hclass; apply type_of_at; by apply list_lookup_middle).
  unfold on_line. cbn [store current_parent document].
  rewrite Htype. cbn [store current_parent document]. rewrite Htype. f_equal.
  replace (length pre) with (length pre + 0)%nat at 1 by lia.
  by rewrite alter_app_r.
Qed.

Lemma run_plain_at_raw lines :
  ∀ pre o post doc,
    Forall plain lines → class o = RawCodeBlock →
    run_lines (mkBloodhound (pre ++ o :: post) doc (Some (length pre))) lines
    = Ok (mkBloodhound
            (pre ++ mkObject RawCodeBlock (children o ++ (Line <$> lines))
                      (parent o) (source o) (ref_name o) (indent o) :: post)
            doc (Some (length pre))).
Proof.
  induction lines as [|l lines IH]; intros pre o post doc Hplain Hclass.
  - simpl. rewrite app_nil_r. destruct o. simpl in Hclass. by subst.
  - apply Forall_cons in Hplain as [Hl Hplain]. cbn [run_lines].
    rewrite step_plain_at_raw by done. rewrite IH by done.
    unfold append_child. cbn. by rewrite <- app_assoc.
Qed.

(** A plain line at the document or at a block opens a raw block there. *)
Lemma step_plain_at_container store doc a o line :
  plain line → store !! a = Some o → class o ≠ RawCodeBlock →
  step (mkBloodhound store doc (Some a)) line
  = Ok (mkBloodhound
          (alter (append_child (Object (length store))) a store
             ++ [mkObject RawCodeBlock [Line line] (Some a) None "" 0])
          doc (Some (length store))).
Proof.
  intros [Hh Hf] Ho Hclass. unfold step. rewrite Hh, Hf. f_equal.
  assert (a < length store)%nat as Ha by (by eapply lookup_lt_Some).
  set (raw := mkObject RawCodeBlock [] (Some a) None "" 0).
  assert (on_line (mkBloodhound store doc (Some a)) line
          = mkBloodhound
              (alter (append_child (Line line)) (length store)
                 (alter (append_child (Object (length store))) a (store ++ [raw])))
              doc (Some (length store))) as ->.
  { unfold on_line.
    cbn [Generated.store current_parent document].
    rewrite (type_of_at _ _ _ Ho).
    assert (type_of
              (alter (append_child (Object (length store))) a (store ++ [raw]))
              (Some (length store)) = Some RawCodeBlock) as Htype.
    { apply (type_of_at _ _ raw).
      rewrite list_lookup_alter_ne by lia.
      by rewrite list_lookup_middle. }
    destruct (class o); [| |done];
      cbn [Generated.store current_parent document].
    all: unfold raw in Htype; by rewrite Htype. }
  f_equal. rewrite alter_app_l by done.
  replace (length store) with
    (length (alter (append_child (Object (length store))) a store) + 0)%nat at 1
    by (rewrite length_alter; lia).
  by rewrite alter_app_r.
Qed.

Lemma tree_of_lines (below : nat → node) (lines : list string) :
  (λ e, match e with
        | Line text => Str text
        | Object a => below a
        end) <$> (Line <$> lines)
  = Str <$> lines.
Proof. by rewrite <- list_fmap_compose. Qed.

(** X19. A text without block markers: the scanner puts all its lines,
    in order and as they are, into one raw block, the only child of the
    document. *)
Theorem plain_lines_make_one_raw_block (first : string) (others : list string) :
  Forall plain (first :: others) →
  ∃ self, run_lines new_bloodhound (first :: others) = Ok self
          ∧ document_tree self
            = Entities.EntangledDocument
                [Entities.RawCodeBlock (Str <$> first :: others)] None.
Proof.
  intros Hplain. apply Forall_cons in Hplain as [Hfirst Hothers].
  cbn [run_lines]. unfold new_bloodhound.
  rewrite (step_plain_at_container _ _ 0 (mkObject Generated.EntangledDocument [] None None "" 0))
    by done.
  cbn [alter list_alter length app].
  eexists. split.
  - apply (run_plain_at_raw others
             [mkObject Generated.EntangledDocument [Object 1] None None "" 0]
             (mkObject Generated.RawCodeBlock [Line first] (Some 0%nat) None "" 0)
             [] 0); done.
  - unfold document_tree. cbn. by rewrite tree_of_lines.
Qed.
End scanner_shape.
Section block_roundtrip.
Import Text Needs Entities Generated ScannerState.

Lemma run_lines_app self a b :
  run_lines self (a ++ b)
  = match run_lines self a with
    | Ok self' => run_lines self' b
    | Raise e => Raise e
    end.
Proof.
  revert self. induction a as [|l a IH]; intros self; [done|].
  simpl. destruct (step self l); [apply IH|done].
Qed.

(** The scanner after a header at the start and then plain lines. *)
Lemma run_header_then_lines h m first others :
  re_match NOWEB_HEADER h = Some m →
  Forall plain (first :: others) →
  run_lines new_bloodhound (h :: first :: others)
  = Ok (mkBloodhound
          [mkObject Generated.EntangledDocument [Object 1] None None "" 0;
           mkObject Generated.EntangledCodeBlock [Object 2] None
             (Some (group m "source")) (group m "ref_name")
             (String.length (group m "indent"));
           mkObject Generated.RawCodeBlock (Line <$> first :: others) (Some 1%nat)
             None "" 0]
          0 (Some 2%nat)).
Proof.
  intros Hm Hplain. apply Forall_cons in Hplain as [Hfirst Hothers].
  cbn [run_lines]. unfold step at 1. rewrite Hm.
  unfold on_header. cbn.
  rewrite (step_plain_at_container _ _ 1
             (mkObject Generated.EntangledCodeBlock [] None
                (Some (group m "source")) (group m "ref_name")
                (String.length (group m "indent")))) by done.
  cbn [alter list_alter length app].
  apply (run_plain_at_raw others [_; _]
           (mkObject Generated.RawCodeBlock [Line first] (Some 1%nat) None "" 0)
           [] 0); done.
Qed.

Lemma tree_of_block source ref_name indent (lines : list string) current :
  document_tree
    (mkBloodhound
       [mkObject Generated.EntangledDocument [Object 1] None None "" 0;
        mkObject Generated.EntangledCodeBlock [Object 2] None source ref_name indent;
        mkObject Generated.RawCodeBlock (Line <$> lines) (Some 1%nat) None "" 0]
       0 current)
  = Entities.EntangledDocument
      [Entities.EntangledCodeBlock source ref_name indent
         [Entities.RawCodeBlock (Str <$> lines)]] None.
Proof. unfold document_tree. cbn. by rewrite tree_of_lines. Qed.

Lemma step_header_at_start h m :
  re_match NOWEB_HEADER h = Some m →
  step new_bloodhound h
  = Ok (mkBloodhound
          [mkObject Generated.EntangledDocument [Object 1] None None "" 0;
           mkObject Generated.EntangledCodeBlock [] None
             (Some (group m "source")) (group m "ref_name")
             (String.length (group m "indent"))]
          0 (Some 1%nat)).
Proof. intros Hm. unfold step. rewrite Hm. reflexivity. Qed.

(** X20. A block without a line between its header and its footer is
    not closed by the footer: the scanner is after header and footer
    where it was after the header, and the lines after the footer become
    the raw block of that block, as if they stood between the two
    markers. *)
Theorem empty_block_is_not_closed (h f first : string) (others : list string)
    (m : groups) :
  re_match NOWEB_HEADER h = Some m →
  re_match NOWEB_HEADER f = None → is_Some (re_match NOWEB_FOOTER f) →
  Forall plain (first :: others) →
  ∃ self,
    run_lines new_bloodhound [h; f] = run_lines new_bloodhound [h]
    ∧ run_lines new_bloodhound (h :: f :: first :: others) = Ok self
    ∧ document_tree self
      = Entities.EntangledDocument
          [Entities.EntangledCodeBlock (Some (group m "source"))
             (group m "ref_name") (String.length (group m "indent"))
             [Entities.RawCodeBlock (Str <$> first :: others)]] None.
Proof.
  intros Hm Hf1 [mf Hf2] Hplain.
  pose proof (run_header_then_lines h m first others Hm Hplain) as Hrun.
  cbn [run_lines] in *. rewrite (step_header_at_start h m Hm) in *.
  assert (step
            (mkBloodhound
               [mkObject Generated.EntangledDocument [Object 1] None None "" 0;
                mkObject Generated.EntangledCodeBlock [] None
                  (Some (group m "source")) (group m "ref_name")
                  (String.length (group m "indent"))]
               0 (Some 1%nat)) f
          = Ok (mkBloodhound
                  [mkObject Generated.EntangledDocument [Object 1] None None "" 0;
                   mkObject Generated.EntangledCodeBlock [] None
                     (Some (group m "source")) (group m "ref_name")
                     (String.length (group m "indent"))]
                  0 (Some 1%nat))) as Hstep
    by (unfold step; rewrite Hf1, Hf2; reflexivity).
  rewrite Hstep.
  eexists. split_and!; [done|exact Hrun|]. apply tree_of_block.
Qed.

Lemma splitlines_from_line current l t :
  all_chars (λ c, negb (is_linebreak c)) l = true →
  splitlines_from current false (l +:+ t) = splitlines_from (current +:+ l) false t.
Proof.
  revert current. induction l as [|c l IH]; intros current Hl.
  - by rewrite string_app_nil, string_app_empty_r.
  - simpl in Hl. apply andb_prop in Hl as [Hc Hl].
    rewrite string_app_cons. cbn [splitlines_from andb].
    apply negb_true_iff in Hc. rewrite Hc, IH by done.
    f_equal. by rewrite string_app_assoc.
Qed.

Lemma splitlines_from_newline current t :
  splitlines_from current false (String newline t)
  = current :: splitlines_from "" false t.
Proof. reflexivity. Qed.

(** Lines without line boundaries, the last of them not empty, are what
    [splitlines] finds in their [join]. *)
Lemma splitlines_join_lines (lines : list string) :
  Forall (λ l, all_chars (λ c, negb (is_linebreak c)) l = true) lines →
  last lines ≠ Some "" →
  splitlines (join_lines lines) = lines.
Proof.
  unfold splitlines. induction lines as [|l lines IH]; intros Hall Hlast; [done|].
  apply Forall_cons in Hall as [Hl Hall].
  destruct lines as [|l2 lines].
  - cbn [join_lines]. rewrite <- (string_app_empty_r l) at 1.
    rewrite splitlines_from_line by done. simpl.
    rewrite string_app_nil.
    rewrite bool_decide_false; [done|]. intros ->. by apply Hlast.
  - change (join_lines (l :: l2 :: lines))
      with (l +:+ String newline (join_lines (l2 :: lines))).
    rewrite splitlines_from_line, splitlines_from_newline by done.
    rewrite string_app_nil. f_equal. apply IH; [done|].
    by rewrite last_cons_cons in Hlast.
Qed.

Lemma no_linebreak_is_dot s :
  all_chars (λ c, negb (is_linebreak c)) s = true → all_chars is_dot s = true.
Proof.
  induction s as [|c s IH]; [done|]. simpl. intros H.
  apply andb_prop in H as [Hc Hs]. rewrite IH by done.
  rewrite andb_true_r. unfold is_dot, is_char. apply negb_true_iff.
  apply bool_decide_eq_false. intros ->. done.
Qed.

(** X21. The markers that [generate_entangled_block] writes for a
    comment text, a name and a source, put around lines of text and
    joined by line feeds, are read by the scanner of generated files as
    one block with that name and that source and with the lines in one
    raw block: when the comment text, the name and the source hold no
    line boundary and no [{], name and source no [\]], and the lines hold
    no line boundary and are not themselves markers. The indent of the
    block read is the length of the white space that the comment text
    begins with. *)
Theorem written_block_is_read_back (comment_chars ref_name source : string)
    (first : string) (others : list string) :
  let no_boundary (s : string) := all_chars (λ c, negb (is_linebreak c)) s = true in
  let markers := generate_entangled_block (Some source) ref_name comment_chars in
  no_boundary comment_chars → has_char "{" comment_chars = false →
  no_boundary ref_name → has_char "{" ref_name = false → has_char "]" ref_name = false →
  no_boundary source → has_char "{" source = false → has_char "]" source = false →
  Forall (λ l, no_boundary l ∧ plain l) (first :: others) →
  ∃ self,
    run (join_lines (markers.1 :: (first :: others) ++ [markers.2])) = Ok self
    ∧ document_tree self
      = Entities.EntangledDocument
          [Entities.EntangledCodeBlock (Some source) ref_name
             (String.length (take_while is_space comment_chars))
             [Entities.RawCodeBlock (Str <$> first :: others)]] None.
Proof.
  intros no_boundary markers Hcc1 Hcc2 Hn0 Hn1 Hn2 Hs0 Hs1 Hs2 Hlines.
  pose proof (no_linebreak_is_dot _ Hcc1) as Hdot.
  destruct (block_header_match comment_chars ref_name source Hdot Hn1 Hn2 Hs1 Hs2)
    as (m & Hm & Hindent & Hname & Hsource).
  pose proof (block_footer_not_header comment_chars Hcc2) as Hf1.
  destruct (block_footer_match comment_chars Hdot) as [mf Hf2].
  unfold markers, generate_entangled_block in *. cbn [fst snd str_or_None] in *.
  set (header := comment_chars
                 +:+ "# Entanglement: This block is entangled with {" +:+ ref_name
                 +:+ "}@{" +:+ source +:+ "}.") in *.
  set (footer := comment_chars +:+ "# End of block entanglement.") in *.
  assert (Forall plain (first :: others)) as Hplain
    by (eapply Forall_impl; [exact Hlines|]; by intros l [_ ?]).
  assert (Forall no_boundary (first :: others)) as Hnb
    by (eapply Forall_impl; [exact Hlines|]; by intros l [? _]).
  unfold run. rewrite splitlines_join_lines; cycle 1.
  { constructor.
    - unfold no_boundary, header in *.
      rewrite !all_chars_app, Hcc1, Hn0, Hs0. reflexivity.
    - apply Forall_app. split; [exact Hnb|]. constructor; [|constructor].
      unfold footer. rewrite all_chars_app, Hcc1. reflexivity. }
  { rewrite app_comm_cons, last_snoc. intros [= Hfooter].
    apply (f_equal String.length) in Hfooter. unfold footer in Hfooter.
    rewrite string_length_app in Hfooter. simpl in Hfooter. lia. }
  rewrite app_comm_cons, run_lines_app.
  rewrite (run_header_then_lines header m first others Hm Hplain).
  cbn [run_lines]. unfold step. rewrite Hf1, Hf2.
  eexists. split; [reflexivity|].
  rewrite Hindent, Hname, Hsource. apply tree_of_block.
Qed.
End block_roundtrip.

Lemma plain_lines_make_one_raw_block_witness :
  ∃ self,
    Generated.run_lines Generated.new_bloodhound ("import os" :: ["print(1)"])
    = Ok self
    ∧ Generated.document_tree self
      = Entities.EntangledDocument
          [Entities.RawCodeBlock (Entities.Str <$> "import os" :: ["print(1)"])] None.
Proof.
  apply (plain_lines_make_one_raw_block "import os" ["print(1)"]).
  repeat constructor.
Defined.

Lemma empty_block_is_not_closed_witness :
  ∃ m self,
    Text.re_match Generated.NOWEB_HEADER
      "# Entanglement: This block is entangled with {greet}@{doc.md}." = Some m
    ∧ Generated.run_lines Generated.new_bloodhound
        ("# Entanglement: This block is entangled with {greet}@{doc.md}."
           :: "# End of block entanglement." :: "print(1)" :: [])
      = Ok self
    ∧ Generated.document_tree self
      = Entities.EntangledDocument
          [Entities.EntangledCodeBlock (Some (Text.group m "source"))
             (Text.group m "ref_name") (String.length (Text.group m "indent"))
             [Entities.RawCodeBlock (Entities.Str <$> "print(1)" :: [])]] None.
Proof.
  destruct (Text.re_match Generated.NOWEB_HEADER
              "# Entanglement: This block is entangled with {greet}@{doc.md}.")
    as [m|] eqn:Hm; [|vm_compute in Hm; discriminate Hm].
  destruct (empty_block_is_not_closed
              "# Entanglement: This block is entangled with {greet}@{doc.md}."
              "# End of block entanglement." "print(1)" [] m Hm)
    as (self & _ & Hrun & Htree).
  - reflexivity.
  - vm_compute. eauto.
  - repeat constructor.
  - exists m, self. done.
Defined.

Lemma written_block_is_read_back_witness :
  ∃ self,
    Generated.run
      (Text.join_lines
         ((Entities.generate_entangled_block (Some "doc.md") "greet" "  ").1
            :: ("def greet():" :: ["    pass"])
            ++ [(Entities.generate_entangled_block (Some "doc.md") "greet" "  ").2]))
    = Ok self
    ∧ Generated.document_tree self
      = Entities.EntangledDocument
          [Entities.EntangledCodeBlock (Some "doc.md") "greet"
             (String.length (Text.take_while Text.is_space "  "))
             [Entities.RawCodeBlock (Entities.Str <$> "def greet():" :: ["    pass"])]]
          None.
Proof.
  apply (written_block_is_read_back "  " "greet" "doc.md"
           "def greet():" ["    pass"]); try reflexivity.
  repeat constructor.
Defined.
Section dummy_facts.
Import Text Needs Storages Status Entities Printing Generated ScannerState
       GeneratedParser Dummy.

Lemma split_from_line current l t :
  has_char newline l = false →
  split_from current (l +:+ t) = split_from (current +:+ l) t.
Proof.
  revert current. induction l as [|c l IH]; intros current Hl.
  - by rewrite string_app_nil, string_app_empty_r.
  - simpl in Hl. apply orb_false_elim in Hl as [Hc Hl].
    rewrite string_app_cons. cbn [split_from]. rewrite Hc, IH by done.
    f_equal. by rewrite string_app_assoc.
Qed.

(** Lines without line feed are what [split("\n")] finds in their
    [join]. *)
Lemma split_newline_join_lines (first : string) (others : list string) :
  Forall (λ l, has_char newline l = false) (first :: others) →
  split_newline (join_lines (first :: others)) = first :: others.
Proof.
  unfold split_newline. revert first.
  induction others as [|l2 others IH]; intros first Hall;
    apply Forall_cons in Hall as [Hl Hall].
  - cbn [join_lines]. rewrite <- (string_app_empty_r first) at 1.
    by rewrite split_from_line.
  - change (join_lines (first :: l2 :: others))
      with (first +:+ String newline (join_lines (l2 :: others))).
    rewrite split_from_line by done. cbn [split_from].
    change (is_char newline newline) with true. cbv iota.
    rewrite string_app_nil. f_equal. by apply IH.
Qed.

(** A final empty line is not a line for [splitlines]. *)
Lemma splitlines_join_lines_empty (lines : list string) :
  Forall (λ l, all_chars (λ c, negb (is_linebreak c)) l = true) lines →
  lines ≠ [] →
  splitlines (join_lines (lines ++ [""])) = lines.
Proof.
  unfold splitlines. induction lines as [|l lines IH]; intros Hall Hne; [done|].
  apply Forall_cons in Hall as [Hl Hall].
  destruct lines as [|l2 lines].
  - change (join_lines ([l] ++ [""])) with (l +:+ String newline "").
    rewrite splitlines_from_line, splitlines_from_newline by done.
    by rewrite string_app_nil.
  - change (join_lines ((l :: l2 :: lines) ++ [""]))
      with (l +:+ String newline (join_lines ((l2 :: lines) ++ [""]))).
    rewrite splitlines_from_line, splitlines_from_newline by done.
    rewrite string_app_nil. f_equal. by apply IH.
Qed.

Lemma no_linebreak_no_newline s :
  all_chars (λ c, negb (is_linebreak c)) s = true → has_char newline s = false.
Proof.
  induction s as [|c s IH]; [done|]. simpl. intros H.
  apply andb_prop in H as [Hc Hs]. rewrite IH by done.
  rewrite orb_false_r. unfold is_char. apply bool_decide_eq_false. intros ->. done.
Qed.

Lemma step_plain self line : plain line → step self line = Ok (on_line self line).
Proof. intros [Hh Hf]. unfold step. by rewrite Hh, Hf. Qed.

(** The scanner on the body of the dummy file, for a header line [h]. *)
Lemma run_dummy_body h m :
  re_match NOWEB_HEADER h = Some m →
  ∃ self,
    run_lines new_bloodhound
      [ "print('prelude')"; h; "if __name__ == '__main__':";
        "    print('hello world')"; "# End of block entanglement.";
        "print('epilogue')" ] = Ok self
    ∧ document_tree self
      = Entities.EntangledDocument
          [ Entities.RawCodeBlock [Str "print('prelude')"];
            Entities.EntangledCodeBlock (Some (group m "source"))
              (group m "ref_name") (String.length (group m "indent"))
              [ Entities.RawCodeBlock
                  [ Str "if __name__ == '__main__':";
                    Str "    print('hello world')" ] ];
            Entities.RawCodeBlock [Str "print('epilogue')"] ] None.
Proof.
  intros Hm. cbn [run_lines].
  let r := eval vm_compute in (step new_bloodhound "print('prelude')") in
  change (step new_bloodhound "print('prelude')") with r.
  cbv beta iota. unfold step at 1. rewrite Hm. unfold on_header.
  generalize (group m "source") (group m "ref_name")
             (String.length (group m "indent")).
  intros source ref_name indent.
  eexists. split; [vm_compute; reflexivity|]. vm_compute. reflexivity.
Qed.

Lemma py_text_new version name md_file :
  py_text version name md_file false
  = ("w",
     join_lines
       [ (generate_entangled_document version (Some md_file)).1;
         "print('prelude')";
         (generate_entangled_block (Some md_file) ("dummy_ref_name_" +:+ name) "").1;
         "if __name__ == '__main__':";
         "    print('hello world')";
         "# End of block entanglement.";
         "print('epilogue')";
         "";
         (generate_entangled_document version (Some md_file)).2 ]).
Proof. reflexivity. Qed.

(** The dummy file read by [parse]. *)
Lemma parse_dummy version name md_file :
  has_char newline version = false →
  all_chars (λ c, negb (is_linebreak c)) name = true →
  has_char "{" name = false → has_char "]" name = false →
  all_chars (λ c, negb (is_linebreak c)) md_file = true →
  has_char "{" md_file = false → has_char "]" md_file = false →
  ∃ parser,
    parse (py_text version name md_file false).2 = Ok (Some (parser, md_file))
    ∧ document_tree parser
      = Entities.EntangledDocument
          [ Entities.RawCodeBlock [Str "print('prelude')"];
            Entities.EntangledCodeBlock (Some md_file) ("dummy_ref_name_" +:+ name) 0
              [ Entities.RawCodeBlock
                  [ Str "if __name__ == '__main__':";
                    Str "    print('hello world')" ] ];
            Entities.RawCodeBlock [Str "print('epilogue')"] ] None.
Proof.
  intros Hv Hn0 Hn1 Hn2 Hs0 Hs1 Hs2.
  assert (has_char "{" ("dummy_ref_name_" +:+ name) = false) as Hr1
    by (rewrite has_char_app, Hn1; reflexivity).
  assert (has_char "]" ("dummy_ref_name_" +:+ name) = false) as Hr2
    by (rewrite has_char_app, Hn2; reflexivity).
  destruct (block_header_match "" ("dummy_ref_name_" +:+ name) md_file
              eq_refl Hr1 Hr2 Hs1 Hs2) as (m & Hm & Hindent & Hname & Hsource).
  destruct (run_dummy_body _ m Hm) as (parser & Hrun & Htree).
  exists parser. rewrite Hindent, Hname, Hsource in Htree. split; [|exact Htree].
  rewrite py_text_new. cbn [snd]. unfold parse.
  pose proof (no_linebreak_no_newline _ Hn0) as Hn0'.
  pose proof (no_linebreak_no_newline _ Hs0) as Hs0'.
  set (h := (generate_entangled_block (Some md_file) ("dummy_ref_name_" +:+ name) "").1)
    in *.
  assert (all_chars (λ c, negb (is_linebreak c)) h = true) as Hh.
  { unfold h, generate_entangled_block. cbn [fst str_or_None].
    rewrite !all_chars_app, Hn0, Hs0. reflexivity. }
  rewrite split_newline_join_lines; cycle 1.
  { unfold generate_entangled_document. cbn [fst snd str_or_None].
    repeat constructor; try (by apply no_linebreak_no_newline);
      rewrite !has_char_app, ?Hs0', ?Hv; reflexivity. }
  rewrite (extract_entanglement_generated version md_file) by done.
  rewrite bool_decide_false; cycle 1.
  { cbn [last]. unfold generate_entangled_document. cbn [snd]. by intros [= Hff]. }
  cbn [length drop take Nat.sub]. unfold run.
  pose proof (splitlines_join_lines_empty
                [ "print('prelude')"; h; "if __name__ == '__main__':";
                  "    print('hello world')"; "# End of block entanglement.";
                  "print('epilogue')" ]) as Hsplit.
  cbn [app] in Hsplit. rewrite Hsplit; [|by repeat constructor|done].
  by rewrite Hrun.
Qed.

(** X22. The Python file that [create_dummy_entanglement] writes when
    there is none yet is a generated file for [parse]: for a name and a
    Markdown path without line boundary, [{] and [\]], [parse] returns
    the Markdown path as the source and a document of three children - the
    prelude line, the block [dummy_ref_name_<name>] with its two lines,
    and the epilogue line; the empty line before the file footer is not
    kept. *)
Theorem dummy_file_is_parsed (version name md_file : string) :
  has_char newline version = false →
  all_chars (λ c, negb (is_linebreak c)) name = true →
  has_char "{" name = false → has_char "]" name = false →
  all_chars (λ c, negb (is_linebreak c)) md_file = true →
  has_char "{" md_file = false → has_char "]" md_file = false →
  (py_text version name md_file false).1 = "w"
  ∧ ∃ parser,
      parse (py_text version name md_file false).2 = Ok (Some (parser, md_file))
      ∧ document_tree parser
        = Entities.EntangledDocument
            [ Entities.RawCodeBlock [Str "print('prelude')"];
              Entities.EntangledCodeBlock (Some md_file)
                ("dummy_ref_name_" +:+ name) 0
                [ Entities.RawCodeBlock
                    [ Str "if __name__ == '__main__':";
                      Str "    print('hello world')" ] ];
              Entities.RawCodeBlock [Str "print('epilogue')"] ] None.
Proof. intros. split; [done|]. by apply parse_dummy. Qed.

(** X23. The entanglements that [get_entanglements] reads from the parsed
    dummy file: one for the file itself, whose content is the prelude, the
    reference [<<dummy_ref_name_<name>>>] and the epilogue - the block
    folded back into its reference - and one for the block, whose content
    is its two lines; both carry index 0, the first names the file as its
    target, the second as its indirect target. *)
Theorem dummy_file_entanglements (xxh64 : string → N)
    (version name md_file py_file : string) :
  has_char newline version = false →
  all_chars (λ c, negb (is_linebreak c)) name = true →
  has_char "{" name = false → has_char "]" name = false →
  all_chars (λ c, negb (is_linebreak c)) md_file = true →
  has_char "{" md_file = false → has_char "]" md_file = false →
  ∃ parser,
    parse (py_text version name md_file false).2 = Ok (Some (parser, md_file))
    ∧ get_entanglements xxh64 py_file (Some (document_tree parser, md_file))
      = mkGenerated
          [ mkParsed 0
              (entanglement_of xxh64
                 (join_lines [ "print('prelude')";
                               "<<" +:+ "dummy_ref_name_" +:+ name +:+ ">>";
                               "print('epilogue')" ])
                 (mkDefinition py_file md_file "" py_file ""))
              Entangled;
            mkParsed 0
              (entanglement_of xxh64
                 (join_lines [ "if __name__ == '__main__':";
                               "    print('hello world')" ])
                 (mkDefinition ("dummy_ref_name_" +:+ name) md_file "" "" py_file))
              Entangled ]
          None.
Proof.
  intros Hv Hn0 Hn1 Hn2 Hs0 Hs1 Hs2.
  destruct (parse_dummy version name md_file Hv Hn0 Hn1 Hn2 Hs0 Hs1 Hs2)
    as (parser & Hparse & Htree).
  exists parser. split; [exact Hparse|]. rewrite Htree. reflexivity.
Qed.
End dummy_facts.

Lemma dummy_file_is_parsed_witness :
  (Dummy.py_text "0.1.0" "demo" "demo.md" false).1 = "w"
  ∧ ∃ parser,
      Generated.parse (Dummy.py_text "0.1.0" "demo" "demo.md" false).2
      = Ok (Some (parser, "demo.md"))
      ∧ Generated.document_tree parser
        = Entities.EntangledDocument
            [ Entities.RawCodeBlock [Entities.Str "print('prelude')"];
              Entities.EntangledCodeBlock (Some "demo.md")
                ("dummy_ref_name_" +:+ "demo") 0
                [ Entities.RawCodeBlock
                    [ Entities.Str "if __name__ == '__main__':";
                      Entities.Str "    print('hello world')" ] ];
              Entities.RawCodeBlock [Entities.Str "print('epilogue')"] ] None.
Proof.
  apply (dummy_file_is_parsed "0.1.0" "demo" "demo.md"); reflexivity.
Defined.

Lemma dummy_file_entanglements_witness :
  ∃ parser,
    Generated.parse (Dummy.py_text "0.1.0" "demo" "demo.md" false).2
    = Ok (Some (parser, "demo.md"))
    ∧ GeneratedParser.get_entanglements (λ _, 0%N) "demo.py"
        (Some (Generated.document_tree parser, "demo.md"))
      = mkGenerated
          [ Status.mkParsed 0
              (GeneratedParser.entanglement_of (λ _, 0%N)
                 (Text.join_lines [ "print('prelude')";
                                    "<<" +:+ "dummy_ref_name_" +:+ "demo" +:+ ">>";
                                    "print('epilogue')" ])
                 (Storages.mkDefinition "demo.py" "demo.md" "" "demo.py" ""))
              Status.Entangled;
            Status.mkParsed 0
              (GeneratedParser.entanglement_of (λ _, 0%N)
                 (Text.join_lines [ "if __name__ == '__main__':";
                                    "    print('hello world')" ])
                 (Storages.mkDefinition ("dummy_ref_name_" +:+ "demo") "demo.md" ""
                    "" "demo.py"))
              Status.Entangled ]
          None.
Proof.
  apply (dummy_file_entanglements (λ _, 0%N) "0.1.0" "demo" "demo.md" "demo.py");
    reflexivity.
Defined.

(** ** The attributes of a fenced code block *)

Section extra_facts.
Import Text Extra.

Lemma greedy_take_all {R} class (k : string → option R) a b r :
  all_chars class a = true → starts_outside class b → k b = Some r →
  greedy class k (a +:+ b) = Some r.
Proof.
  intros Ha Hb Hk. induction a as [|c a IH].
  - rewrite string_app_nil. destruct b as [|c b]; [done|]. simpl in *. by rewrite Hb.
  - rewrite string_app_cons. simpl in *. apply andb_prop in Ha as [-> Ha].
    by rewrite IH.
Qed.

(** What follows the repetition begins with the character [x]: without
    [x] in the run offered, nothing is found. *)
Lemma greedy_needs_char {R} x (k : string → option R) s :
  (∀ t, take_chars 1 t ≠ String x "" → k t = None) →
  has_char x (take_while non_space s) = false → non_space x = true →
  greedy non_space k s = None.
Proof.
  intros Hk Hs Hx. induction s as [|c s IH]; simpl in *.
  - by apply Hk.
  - destruct (non_space c) eqn:Hc.
    + simpl in Hs. apply orb_false_elim in Hs as [Hcx Hs]. rewrite IH by done.
      apply Hk. simpl. unfold is_char in Hcx. apply bool_decide_eq_false in Hcx.
      destruct s; congruence.
    + apply Hk. simpl. destruct s; intros [= ->]; congruence.
Qed.

Lemma greedy_last {R} x (k : string → option R) a t r :
  all_chars non_space a = true → non_space x = true →
  greedy non_space k t = None → k (String x t) = Some r →
  greedy non_space k (a +:+ String x t) = Some r.
Proof.
  intros Ha Hx Ht Hk. induction a as [|c a IH].
  - rewrite string_app_nil. simpl. by rewrite Hx, Ht.
  - rewrite string_app_cons. simpl in *. apply andb_prop in Ha as [-> Ha].
    by rewrite IH.
Qed.

Lemma lazy_first {R} x (k : string → option R) v t r :
  (∀ t, take_chars 1 t ≠ String x "" → k t = None) →
  all_chars is_dot v = true → has_char x v = false →
  k t = Some r → lazy is_dot k (v +:+ t) = Some r.
Proof.
  intros Hk Hv Hx Ht. induction v as [|c v IH].
  - rewrite string_app_nil. destruct t; simpl; by rewrite Ht.
  - rewrite string_app_cons. simpl in *.
    apply andb_prop in Hv as [Hc Hv]. apply orb_false_elim in Hx as [Hcx Hx].
    rewrite Hk, Hc; [by apply IH|].
    simpl. unfold is_char in Hcx. apply bool_decide_eq_false in Hcx.
    destruct (v +:+ t); congruence.
Qed.

Lemma take_chars_cons_app c a b :
  take_chars (String.length (String c (a +:+ b)) - String.length b) (String c (a +:+ b))
  = String c a.
Proof. rewrite <- string_app_cons. apply take_chars_app. Qed.

Lemma word_cons s :
  word s = true →
  ∃ c s', s = String c s' ∧ non_space c = true ∧ is_char "=" c = false
          ∧ all_chars non_space s' = true ∧ has_char "=" s' = false.
Proof.
  unfold word. intros H. apply andb_prop in H as [H H3]. apply andb_prop in H as [H1 H2].
  destruct s as [|c s]; [done|]. simpl in *.
  apply andb_prop in H2 as [? ?]. apply negb_true_iff, orb_false_elim in H3 as [? ?].
  by exists c, s.
Qed.

Lemma non_space_eq : non_space "=" = true.
Proof. reflexivity. Qed.

Lemma char_needs {R} x s gs (k : string → list (string * string) → option R) :
  take_chars 1 s ≠ String x "" → matches (Char (is_char x)) s gs k = None.
Proof.
  intros Hs. destruct s as [|c s]; [done|]. simpl.
  unfold is_char. rewrite bool_decide_false; [done|]. intros ->. by destruct s.
Qed.

Lemma then_char_needs {R} x r s gs (k : string → list (string * string) → option R) :
  take_chars 1 s ≠ String x "" → matches (Then (Char (is_char x)) r) s gs k = None.
Proof.
  intros Hs. destruct s as [|c s]; [done|]. simpl.
  unfold is_char. rewrite bool_decide_false; [done|]. intros ->. by destruct s.
Qed.

Lemma pair_flat key v :
  word key && plain_value v = true →
  word key && word v && negb (bool_decide (take_chars 1 v = String quote "")) = true.
Proof. unfold plain_value. by rewrite andb_assoc. Qed.

Lemma has_char_take_while x class a :
  has_char x a = false → has_char x (take_while class a) = false.
Proof.
  induction a as [|c a IH]; [done|]. simpl. intros H.
  apply orb_false_elim in H as [Hc Ha]. destruct (class c); [|done].
  simpl. by rewrite Hc, IH.
Qed.

Lemma no_char_in_run x a b :
  has_char x a = false → starts_outside non_space b →
  has_char x (take_while non_space (a +:+ b)) = false.
Proof. intros Ha Hb. rewrite take_while_outside by done. by apply has_char_take_while. Qed.

(** [\S+=r] finds nothing where the run of [\S] has no [=]. *)
Lemma key_needs_eq {R} r s gs (k : string → list (string * string) → option R) :
  has_char "=" (take_while non_space s) = false →
  matches (Then (Many non_space) (Then (Char (is_char "=")) r)) s gs k = None.
Proof.
  intros Hs. change (matches (Many non_space) s gs
                       (λ s' gs', matches (Then (Char (is_char "=")) r) s' gs' k) = None).
  destruct s as [|c s]; [done|]. cbn [matches]. simpl in Hs.
  destruct (non_space c); [|done]. simpl in Hs. apply orb_false_elim in Hs as [_ Hs].
  apply (greedy_needs_char "="); [|done|reflexivity].
  intros t Ht. by apply (then_char_needs "=").
Qed.

(** [\S+=r] takes the key up to the last [=] of the run of [\S]. *)
Lemma key_then_eq {R} r c key t gs (k : string → list (string * string) → option R) res :
  non_space c = true → all_chars non_space key = true →
  has_char "=" (take_while non_space t) = false →
  matches r t gs k = Some res →
  matches (Then (Many non_space) (Then (Char (is_char "=")) r))
    (String c (key +:+ String "=" t)) gs k = Some res.
Proof.
  intros Hc Hkey Ht Hr.
  change (matches (Many non_space) (String c (key +:+ String "=" t)) gs
            (λ s' gs', matches (Then (Char (is_char "=")) r) s' gs' k) = Some res).
  cbn [matches]. rewrite Hc.
  apply (greedy_last "="); [done|reflexivity| |].
  - apply (greedy_needs_char "="); [|done|reflexivity].
    intros u Hu. by apply (then_char_needs "=").
  - exact Hr.
Qed.

Lemma value_plain {R} d w b gs (k : string → list (string * string) → option R) res :
  non_space d = true → is_char quote d = false → all_chars non_space w = true →
  starts_outside non_space b → k b gs = Some res →
  matches VALUE (String d (w +:+ b)) gs k = Some res.
Proof.
  intros Hd Hq Hw Hb Hk. unfold VALUE. cbn [matches]. rewrite Hq, Hd.
  by apply greedy_take_all.
Qed.

Lemma value_quoted {R} v b gs (k : string → list (string * string) → option R) res :
  all_chars is_dot v = true → has_char quote v = false → k b gs = Some res →
  matches VALUE (String quote (v +:+ String quote b)) gs k = Some res.
Proof.
  intros Hv Hq Hk. unfold VALUE. cbn [matches].
  change (is_char quote quote) with true. cbv iota.
  rewrite (lazy_first quote _ v (String quote b) res); [done| |done|done|].
  - intros t Ht. destruct t as [|e t]; [done|].
    unfold is_char. rewrite bool_decide_false; [done|]. intros ->. by destruct t.
  - change (is_char quote quote) with true. cbv iota. exact Hk.
Qed.

Lemma extra_pattern_eq :
  EXTRA_PATTERN
  = Or (Named "kv" (Then (Many non_space) (Then (Char (is_char "=")) VALUE)))
       (Named "attr" (Many non_space)).
Proof. reflexivity. Qed.

Lemma matches_or {R} r1 r2 s gs (k : string → list (string * string) → option R) :
  matches (Or r1 r2) s gs k
  = match matches r1 s gs k with Some r => Some r | None => matches r2 s gs k end.
Proof. reflexivity. Qed.

Lemma matches_named {R} g r s gs (k : string → list (string * string) → option R) :
  matches (Named g r) s gs k
  = matches r s gs
      (λ s' gs', k s' ((g, take_chars (String.length s - String.length s') s) :: gs')).
Proof. reflexivity. Qed.

(** The match of [EXTRA_PATTERN] at the head of a token that white space
    or the end of the text follows. *)
Lemma match_at_token t b :
  well_formed t = true → starts_outside non_space b →
  ∃ gs, match_at false EXTRA_PATTERN (token_text t +:+ b) = Some (gs, b)
        ∧ kv_attr gs = match t with
                       | Attr name => ("", name)
                       | _ => (token_text t, "")
                       end.
Proof.
  intros Ht Hb. unfold match_at. rewrite extra_pattern_eq, matches_or, !matches_named.
  destruct t as [name|key v|key v]; simpl in Ht.
  - apply word_cons in Ht as (c & s & -> & Hc & Hce & Hs & Hse).
    cbn [token_text]. rewrite key_needs_eq; cycle 1.
    { apply no_char_in_run; [|done]. simpl. by rewrite Hce, Hse. }
    rewrite string_app_cons. cbn [matches]. rewrite Hc.
    eexists. split.
    + by apply greedy_take_all.
    + unfold kv_attr. cbn [assoc].
      rewrite bool_decide_false by done. rewrite bool_decide_true by done.
      cbn [assoc default]. by rewrite take_chars_cons_app.
  - apply pair_flat in Ht.
    apply andb_prop in Ht as [Ht Hq]. apply andb_prop in Ht as [Hkey Hv].
    apply word_cons in Hkey as (c & s & -> & Hc & Hce & Hs & Hse).
    apply word_cons in Hv as (d & w & -> & Hd & Hde & Hw & Hwe).
    apply negb_true_iff, bool_decide_eq_false in Hq.
    assert (is_char quote d = false) as Hdq.
    { unfold is_char. apply bool_decide_eq_false. intros ->. apply Hq.
      simpl. by destruct w. }
    assert (token_text (Pair (String c s) (String d w)) +:+ b
            = String c (s +:+ String "=" (String d (w +:+ b)))) as Htext.
    { cbn [token_text]. by rewrite !string_app_cons, !string_app_assoc. }
    rewrite Htext. eexists. split.
    + erewrite key_then_eq; [reflexivity|done|done| |].
      * rewrite <- string_app_cons. apply no_char_in_run; [|done].
        simpl. by rewrite Hde, Hwe.
      * by apply value_plain.
    + unfold kv_attr. cbn [assoc].
      rewrite bool_decide_true by done. cbn [default].
      rewrite bool_decide_false by done. cbn [assoc default].
      f_equal. rewrite <- Htext. exact (take_chars_app (token_text _) b).
  - apply andb_prop in Ht as [Ht Hve]. apply andb_prop in Ht as [Ht Hvq].
    apply andb_prop in Ht as [Hkey Hv].
    apply word_cons in Hkey as (c & s & -> & Hc & Hce & Hs & Hse).
    apply negb_true_iff in Hve, Hvq.
    assert (token_text (Quoted (String c s) v) +:+ b
            = String c (s +:+ String "=" (String quote (v +:+ String quote b)))) as Htext.
    { cbn [token_text].
      by rewrite !string_app_cons, !string_app_assoc, !string_app_cons,
           string_app_nil, string_app_cons, string_app_assoc, string_app_cons,
           string_app_nil. }
    rewrite Htext. eexists. split.
    + erewrite key_then_eq; [reflexivity|done|done| |].
      * change (String quote (v +:+ String quote b))
          with (String quote (v +:+ (String quote "" +:+ b))).
        rewrite <- string_app_assoc, <- string_app_cons.
        apply no_char_in_run; [|done].
        simpl. rewrite has_char_app, Hve. reflexivity.
      * by apply value_quoted.
    + unfold kv_attr. cbn [assoc].
      rewrite bool_decide_true by done. cbn [default].
      rewrite bool_decide_false by done. cbn [assoc default].
      f_equal. rewrite <- Htext. exact (take_chars_app (token_text _) b).
Qed.

Lemma findall_skip {T} r (tuple : list (string * string) → T) a b :
  findall_from r tuple (String.length a) (a +:+ b) = findall_from r tuple 0 b.
Proof. induction a as [|c a IH]; [by rewrite string_app_nil|]. by rewrite string_app_cons. Qed.

Lemma token_text_cons t :
  well_formed t = true → ∃ c a, token_text t = String c a.
Proof.
  destruct t as [name|key v|key v]; simpl; intros Ht.
  - apply word_cons in Ht as (c & a & -> & _). by exists c, a.
  - apply pair_flat in Ht.
    apply andb_prop in Ht as [Ht _]. apply andb_prop in Ht as [Ht _].
    apply word_cons in Ht as (c & a & -> & _). rewrite string_app_cons. by eexists _, _.
  - apply andb_prop in Ht as [Ht _]. apply andb_prop in Ht as [Ht _].
    apply andb_prop in Ht as [Ht _].
    apply word_cons in Ht as (c & a & -> & _). rewrite string_app_cons. by eexists _, _.
Qed.

(** A match at the head of the text that leaves [b] is followed by the
    matches of [b]. *)
Lemma findall_match text b gs :
  text ≠ "" → match_at false EXTRA_PATTERN (text +:+ b) = Some (gs, b) →
  findall_from EXTRA_PATTERN kv_attr 0 (text +:+ b)
  = kv_attr gs :: findall_from EXTRA_PATTERN kv_attr 0 b.
Proof.
  intros Htext Hm. destruct text as [|c a]; [done|].
  rewrite string_app_cons in *. cbn [findall_from]. rewrite Hm.
  rewrite <- string_app_cons, string_length_app.
  assert ((String.length b =? String.length (String c a) + String.length b)%nat = false)
    as -> by (apply Nat.eqb_neq; simpl; lia).
  replace (String.length (String c a) + String.length b - String.length b - 1)%nat
    with (String.length a) by (simpl; lia).
  by rewrite findall_skip.
Qed.

Lemma findall_token t b :
  well_formed t = true → starts_outside non_space b →
  findall_from EXTRA_PATTERN kv_attr 0 (token_text t +:+ b)
  = pair_of t :: findall_from EXTRA_PATTERN kv_attr 0 b.
Proof.
  intros Ht Hb. destruct (match_at_token t b Ht Hb) as (gs & Hm & Hgs).
  destruct (token_text_cons t Ht) as (c & a & Hca).
  rewrite (findall_match _ _ gs); [|by rewrite Hca|done].
  by rewrite Hgs.
Qed.

Lemma info_string_cons t tokens :
  info_string (t :: tokens) = token_text t +:+ tail_text tokens.
Proof. destruct tokens; [|done]. simpl. by rewrite string_app_empty_r. Qed.

Lemma tail_text_outside tokens : starts_outside non_space (tail_text tokens).
Proof. by destruct tokens. Qed.

Lemma findall_tail_text tokens :
  findall_from EXTRA_PATTERN kv_attr 0 (tail_text tokens)
  = findall_from EXTRA_PATTERN kv_attr 0 (info_string tokens).
Proof. by destruct tokens. Qed.

Lemma findall_tokens before rest :
  Forall (λ t, well_formed t = true) before →
  findall EXTRA_PATTERN kv_attr (info_string (before ++ rest))
  = (pair_of <$> before) ++ findall EXTRA_PATTERN kv_attr (info_string rest).
Proof.
  unfold findall. induction 1 as [|t before Ht _ IH]; [done|].
  rewrite <- app_comm_cons, info_string_cons.
  rewrite findall_token by auto using tail_text_outside.
  by rewrite findall_tail_text, IH.
Qed.

Lemma split_at_no_sep sep current s :
  has_char sep s = false → split_at sep current s = [current +:+ s].
Proof.
  revert current. induction s as [|c s IH]; intros current Hs; simpl in *.
  - by rewrite string_app_empty_r.
  - apply orb_false_elim in Hs as [-> Hs]. rewrite IH by done.
    by rewrite string_app_assoc.
Qed.

Lemma split_at_sep sep current a t :
  has_char sep a = false →
  split_at sep current (a +:+ String sep t) = (current +:+ a) :: split_at sep "" t.
Proof.
  revert current. induction a as [|c a IH]; intros current Ha.
  - rewrite string_app_nil, string_app_empty_r. simpl.
    unfold is_char. by rewrite bool_decide_true.
  - rewrite string_app_cons. simpl in *. apply orb_false_elim in Ha as [-> Ha].
    rewrite IH by done. by rewrite string_app_assoc.
Qed.

Lemma split_at_cons sep current s : ∃ x l, split_at sep current s = x :: l.
Proof.
  revert current. induction s as [|c s IH]; intros current; simpl.
  - by eexists _, _.
  - destruct (is_char sep c); [by eexists _, _|]. apply IH.
Qed.

Lemma split_at_has sep current s :
  has_char sep s = true → ∃ x y l, split_at sep current s = x :: y :: l.
Proof.
  revert current. induction s as [|c s IH]; intros current Hs; [done|].
  simpl in *. destruct (is_char sep c).
  - destruct (split_at_cons sep "" s) as (y & l & ->). by eexists _, _, _.
  - by apply IH.
Qed.

Lemma split_at_three sep current a t :
  has_char sep a = true →
  ∃ x y z l, split_at sep current (a +:+ String sep t) = x :: y :: z :: l.
Proof.
  revert current. induction a as [|c a IH]; intros current Ha; [done|].
  rewrite string_app_cons. simpl in *. destruct (is_char sep c).
  - destruct (split_at_has sep "" (a +:+ String sep t)) as (y & z & l & ->).
    { rewrite has_char_app. simpl. unfold is_char at 1.
      rewrite bool_decide_true by done. apply orb_true_r. }
    by eexists _, _, _, _.
  - by apply IH.
Qed.

Lemma word_no_eq s : word s = true → s ≠ "" ∧ has_char "=" s = false.
Proof.
  intros H. apply word_cons in H as (c & s' & -> & _ & Hc & _ & Hs).
  split; [done|]. simpl. by rewrite Hc, Hs.
Qed.

Lemma app_not_empty a b : a ≠ "" → a +:+ b ≠ "".
Proof. by destruct a. Qed.

Lemma on_token_well_formed data t :
  well_formed t = true →
  on_token data (pair_of t).1 (pair_of t).2 = Ok (set_token data t).
Proof.
  destruct t as [name|key v|key v]; simpl; intros Ht.
  - apply word_no_eq in Ht as [Hn _]. unfold on_token.
    rewrite (bool_decide_true ("" = "")) by done.
    rewrite bool_decide_false by done. cbn [negb].
    unfold set_token. simpl.
    destruct name as [|c name]; [done|].
    destruct (decide (c = "#"%char)) as [->|Hc]; [done|].
    destruct c as [[] [] [] [] [] [] [] []]; done.
  - apply pair_flat in Ht.
    apply andb_prop in Ht as [Ht _]. apply andb_prop in Ht as [Hkey Hv].
    apply word_no_eq in Hkey as [Hk Hke]. apply word_no_eq in Hv as [Hv Hve].
    unfold on_token. rewrite bool_decide_false by by apply app_not_empty.
    cbn [negb]. rewrite string_app_cons, string_app_nil.
    rewrite split_at_sep, split_at_no_sep by done. by rewrite !string_app_nil.
  - apply andb_prop in Ht as [Ht Hve]. apply andb_prop in Ht as [Ht Hvq].
    apply andb_prop in Ht as [Hkey _]. apply negb_true_iff in Hve.
    apply word_no_eq in Hkey as [Hk Hke].
    unfold on_token. rewrite bool_decide_false by by apply app_not_empty.
    cbn [negb]. rewrite string_app_cons, string_app_nil.
    rewrite split_at_sep, split_at_no_sep, !string_app_nil; [done| |done].
    rewrite has_char_app. simpl. by rewrite Hve.
Qed.

Lemma on_tokens_well_formed data tokens more :
  Forall (λ t, well_formed t = true) tokens →
  on_tokens data ((pair_of <$> tokens) ++ more)
  = on_tokens (foldl set_token data tokens) more.
Proof.
  intros H. revert data. induction H as [|t tokens Ht _ IH]; intros data; [done|].
  cbn [fmap list_fmap app on_tokens foldl].
  pose proof (on_token_well_formed data t Ht) as Hon.
  destruct (pair_of t) as [kv attr]. simpl in Hon. rewrite Hon. apply IH.
Qed.

Lemma info_string_empty tokens :
  Forall (λ t, well_formed t = true) tokens → info_string tokens = "" → tokens = [].
Proof.
  intros H. destruct H as [|t tokens Ht _]; [done|].
  rewrite info_string_cons. destruct (token_text_cons t Ht) as (c & a & ->). done.
Qed.

(** X24. An info string of attributes, [key=value] pairs and pairs with
    a quoted value, one space between two of them, is read token by token:
    [#name] sets [id], another attribute is set to [True], a pair sets its
    key to the text after [=], with the quotes if there are some; a later
    token overwrites an earlier one of the same key. *)
Theorem markdown_extra_reads_tokens (tokens : list token) :
  Forall (λ t, well_formed t = true) tokens →
  MarkdownExtra (info_string tokens) = Ok (foldl set_token [] tokens).
Proof.
  intros H. unfold MarkdownExtra. case_bool_decide as Hempty.
  - by rewrite (info_string_empty tokens H Hempty).
  - rewrite <- (app_nil_r tokens) at 1. rewrite findall_tokens by done.
    change (info_string []) with "". unfold findall at 1.
    change (findall_from EXTRA_PATTERN kv_attr 0 "") with (@nil (string * string)).
    by rewrite on_tokens_well_formed.
Qed.

(** X25. A token with a second [=] before a plain value is taken as one
    [key=value] match, and the unpacking of its split ends the constructor
    with [ValueError], whatever follows the token. *)
Theorem second_equals_sign_raises (before after : list token) (key v : string) :
  Forall (λ t, well_formed t = true) before →
  all_chars non_space key = true → has_char "=" key = true →
  plain_value v = true →
  MarkdownExtra (info_string (before ++ Pair key v :: after)) = Raise ValueError.
Proof.
  intros Hbefore Hkey Heq Hv. unfold MarkdownExtra.
  rewrite findall_tokens by done. rewrite info_string_cons.
  rewrite bool_decide_false; cycle 1.
  { destruct before as [|t before]; [|inversion Hbefore as [|? ? Ht _]; subst].
    - rewrite app_nil_l, info_string_cons. destruct key; done.
    - rewrite <- app_comm_cons, info_string_cons.
      destruct (token_text_cons t Ht) as (c & a & ->). done. }
  unfold plain_value in Hv. apply andb_prop in Hv as [Hv Hq].
  apply word_cons in Hv as (d & w & -> & Hd & Hde & Hw & Hwe).
  apply negb_true_iff, bool_decide_eq_false in Hq.
  assert (is_char quote d = false) as Hdq.
  { unfold is_char. apply bool_decide_eq_false. intros ->. apply Hq.
    simpl. by destruct w. }
  destruct key as [|c key]; [done|]. simpl in Hkey.
  apply andb_prop in Hkey as [Hc Hkey].
  set (b := tail_text after).
  assert (starts_outside non_space b) as Hb by apply tail_text_outside.
  assert (token_text (Pair (String c key) (String d w)) +:+ b
          = String c (key +:+ String "=" (String d (w +:+ b)))) as Htext.
  { cbn [token_text]. by rewrite !string_app_cons, !string_app_assoc. }
  assert (∃ gs, match_at false EXTRA_PATTERN
                  (token_text (Pair (String c key) (String d w)) +:+ b) = Some (gs, b)
                ∧ kv_attr gs = (token_text (Pair (String c key) (String d w)), ""))
    as (gs & Hm & Hgs).
  { unfold match_at. rewrite extra_pattern_eq, matches_or, !matches_named, Htext.
    eexists. split.
    - erewrite key_then_eq; [reflexivity|done|done| |].
      + rewrite <- string_app_cons. apply no_char_in_run; [|done].
        simpl. by rewrite Hde, Hwe.
      + by apply value_plain.
    - unfold kv_attr. cbn [assoc].
      rewrite bool_decide_true by done. cbn [default].
      rewrite bool_decide_false by done. cbn [assoc default].
      f_equal. rewrite <- Htext. exact (take_chars_app (token_text _) b). }
  unfold findall at 1. rewrite (findall_match _ _ gs); [|done|done].
  rewrite Hgs, on_tokens_well_formed by done.
  cbn [on_tokens]. unfold on_token.
  rewrite bool_decide_false by done. cbn [negb token_text].
  change ("=" +:+ String d w) with (String "=" (String d w)).
  by destruct (split_at_three "=" "" (String c key) (String d w) Heq)
    as (x & y & z & l & ->).
Qed.

Lemma dict_get_set key k v data :
  dict_get key (dict_set k v data)
  = if bool_decide (k = key) then Some v else dict_get key data.
Proof.
  induction data as [|[k' w] data IH]; simpl.
  - done.
  - destruct (decide (k' = k)) as [->|Hk].
    + rewrite (bool_decide_true (k = k)) by done. simpl.
      by destruct (bool_decide (k = key)).
    + rewrite (bool_decide_false (k' = k)) by done. simpl. rewrite IH.
      case_bool_decide as H1; [|done]. subst.
      by rewrite bool_decide_false.
Qed.

Lemma truthy_token_value t :
  well_formed t = true → token_key t ≠ "id" → truthy (Some (token_value t)) = true.
Proof.
  destruct t as [name|key v|key v]; simpl; intros Ht Hk.
  - destruct name as [|c name]; [done|].
    destruct (decide (c = "#"%char)) as [->|Hc]; [done|].
    destruct c as [[] [] [] [] [] [] [] []]; done.
  - apply pair_flat in Ht.
    apply andb_prop in Ht as [Ht _]. apply andb_prop in Ht as [_ Hv].
    apply word_no_eq in Hv as [Hv _]. by rewrite bool_decide_false.
  - done.
Qed.

Lemma ignore_set_token data t :
  well_formed t = true →
  ignore (set_token data t) = ignore data || asks_to_ignore t.
Proof.
  intros Ht. unfold ignore, set_token, asks_to_ignore. rewrite !dict_get_set.
  repeat case_bool_decide; try congruence;
    rewrite ?truthy_token_value by (done || congruence);
    cbn [orb]; rewrite ?orb_true_r, ?orb_false_r; done.
Qed.

Lemma ignore_tokens data tokens :
  Forall (λ t, well_formed t = true) tokens →
  ignore (foldl set_token data tokens) = ignore data || existsb asks_to_ignore tokens.
Proof.
  intros H. revert data. induction H as [|t tokens Ht _ IH]; intros data; simpl.
  - by rewrite orb_false_r.
  - by rewrite IH, ignore_set_token, orb_assoc.
Qed.

(** X26. For such an info string [ignore()] is true exactly when a token
    has the key [ignore] or [ignore-markdown], as an attribute or as a pair
    of any value: [ignore=false] makes it true as well. *)
Theorem ignore_whatever_the_value (tokens : list token) :
  Forall (λ t, well_formed t = true) tokens →
  ∃ data, MarkdownExtra (info_string tokens) = Ok data
          ∧ ignore data = existsb asks_to_ignore tokens.
Proof.
  intros H. exists (foldl set_token [] tokens). split.
  - unfold MarkdownExtra. case_bool_decide as Hempty.
    + by rewrite (info_string_empty tokens H Hempty).
    + rewrite <- (app_nil_r tokens) at 1. rewrite findall_tokens by done.
      by rewrite on_tokens_well_formed.
  - by rewrite ignore_tokens.
Qed.
End extra_facts.

Lemma markdown_extra_reads_tokens_witness :
  let tokens := [Extra.Attr "#greet"; Extra.Pair "file" "out.py";
                 Extra.Quoted "title" "my file"; Extra.Attr "noweb";
                 Extra.Pair "file" "main.py"] in
  Forall (λ t, Extra.well_formed t = true) tokens
  ∧ Extra.info_string tokens
    = "#greet file=out.py title=" +:+ String Extra.quote "my file"
        +:+ String Extra.quote " noweb file=main.py"
  ∧ Extra.MarkdownExtra (Extra.info_string tokens)
    = Ok [("id", Extra.VStr "greet"); ("file", Extra.VStr "main.py");
          ("title", Extra.VStr (String Extra.quote "my file" +:+ String Extra.quote ""));
          ("noweb", Extra.VTrue)].
Proof.
  intros tokens.
  assert (Forall (λ t, Extra.well_formed t = true) tokens) as H
    by (repeat constructor).
  split; [exact H|]. split; [reflexivity|].
  exact (markdown_extra_reads_tokens tokens H).
Defined.

Lemma second_equals_sign_raises_witness :
  Forall (λ t, Extra.well_formed t = true) [Extra.Attr "#greet"]
  ∧ Text.all_chars Extra.non_space "a=b" = true
  ∧ Text.has_char "=" "a=b" = true
  ∧ Extra.plain_value "c" = true
  ∧ Extra.info_string ([Extra.Attr "#greet"] ++ Extra.Pair "a=b" "c" :: [Extra.Attr "noweb"])
    = "#greet a=b=c noweb"
  ∧ Extra.MarkdownExtra "#greet a=b=c noweb" = Raise ValueError.
Proof.
  assert (Forall (λ t, Extra.well_formed t = true) [Extra.Attr "#greet"]) as H
    by (repeat constructor).
  split_and!; [exact H|reflexivity..|].
  exact (second_equals_sign_raises [Extra.Attr "#greet"] [Extra.Attr "noweb"] "a=b" "c"
           H eq_refl eq_refl eq_refl).
Defined.

Lemma ignore_whatever_the_value_witness :
  let tokens := [Extra.Attr "#greet"; Extra.Pair "ignore" "false"] in
  Forall (λ t, Extra.well_formed t = true) tokens
  ∧ Extra.info_string tokens = "#greet ignore=false"
  ∧ ∃ data, Extra.MarkdownExtra "#greet ignore=false" = Ok data
            ∧ Extra.ignore data = true.
Proof.
  intros tokens.
  assert (Forall (λ t, Extra.well_formed t = true) tokens) as H
    by (repeat constructor).
  split; [exact H|]. split; [reflexivity|].
  exact (ignore_whatever_the_value tokens H).
Defined.
